(** * daChain: a shallow embedding of the ledger core

    The development follows the Python sources file by file:
    [crypto] (crypto.py), [models] (models.py), [utxo] (utxo.py),
    [utils] (utils.py), [blockchain] (blockchain.py) and [node] (node.py).

    Conventions of the embedding.
    - Python [int] is [Z]; Python [bytes] is [list byte]; Python [str] is
      [string], every character standing for the code point of the same
      number (so the model covers strings over code points 0..255).
    - A Python [dict] whose iteration order is observed by the code
      ([blocks_by_hash], [mempool]) is an insertion-ordered association
      list ([pydict]); the UTXO dictionary, which is only looked up,
      written and deleted by key, is a [gmap].
    - Methods that read or write [self] are state-passing functions in the
      monad [M]; a raised exception is the outcome [Raise], and the state
      reached at the raise is kept.
    - The MongoDB write-through calls ([block_db], [utxo_db]) do not feed
      back into the in-memory state and are left out.
    - [hashlib.sha256] is implemented (FIPS 180-4); the ECDSA check of the
      external [ecdsa] package is a section variable. *)

From Stdlib Require Import ZArith List String Ascii Lia Bool.
From Stdlib Require Import Init.Byte Strings.Byte Numbers.DecimalString.
From stdpp Require Import base option gmap strings list sorting.

Import ListNotations.
Local Open Scope string_scope.
Local Open Scope Z_scope.

(** ** Python built-ins used by the sources *)

Module py.

(** [bytes] values and the two conversions with [str]. *)
Definition bytes := list byte.

Definition byte_val (b : byte) : Z := Z.of_N (Byte.to_N b).

Definition byte_of_val (z : Z) : byte :=
  match Byte.of_N (Z.to_N (z mod 256)) with
  | Some b => b
  | None => x00
  end.

(** [s.encode("utf-8")] on a string of ASCII characters (everything the
    JSON encoder emits is ASCII). *)
Definition encode (s : string) : bytes := list_byte_of_string s.

Definition hex_digit (n : Z) : ascii :=
  if n <? 10 then ascii_of_N (Z.to_N (48 + n))
  else ascii_of_N (Z.to_N (87 + n)).

(** [bytes.hex()]: two lowercase digits per byte. *)
Fixpoint hex (bs : bytes) : string :=
  match bs with
  | [] => EmptyString
  | b :: rest =>
      String (hex_digit (byte_val b / 16))
        (String (hex_digit (byte_val b mod 16)) (hex rest))
  end.

(** Value of one character as a digit in base 16, as [int(s, 16)] and
    [bytes.fromhex] read it (both letter cases). *)
Definition digit_val (c : ascii) : option Z :=
  let n := Z.of_N (N_of_ascii c) in
  if (48 <=? n) && (n <=? 57) then Some (n - 48)
  else if (97 <=? n) && (n <=? 102) then Some (n - 87)
  else if (65 <=? n) && (n <=? 70) then Some (n - 55)
  else None.

Definition is_space (c : ascii) : bool :=
  let n := Z.of_N (N_of_ascii c) in
  (n =? 32) || ((9 <=? n) && (n <=? 13)).

(** [bytes.fromhex(s)]: ASCII whitespace is skipped before a byte, each
    byte is two adjacent hexadecimal digits; anything else raises
    [ValueError] ([None]). *)
Fixpoint fromhex (s : string) : option bytes :=
  match s with
  | EmptyString => Some []
  | String c rest =>
      if is_space c then fromhex rest
      else
        match digit_val c, rest with
        | Some hi, String d rest' =>
            match digit_val d, fromhex rest' with
            | Some lo, Some bs => Some (byte_of_val (16 * hi + lo) :: bs)
            | _, _ => None
            end
        | _, _ => None
        end
  end.

(** [int(s, 16)] on a string of hexadecimal digits. *)
Fixpoint int16_from (acc : Z) (s : string) : option Z :=
  match s with
  | EmptyString => Some acc
  | String c rest =>
      match digit_val c with
      | Some d => int16_from (16 * acc + d) rest
      | None => None
      end
  end.

Definition int16 (s : string) : option Z :=
  match s with
  | EmptyString => None
  | _ => int16_from 0 s
  end.

(** [str(n)] for an [int]. *)
Definition str_int (n : Z) : string := NilZero.string_of_int (Z.to_int n).

(** ["0" * 64]. *)
Fixpoint repeat_char (c : ascii) (n : nat) : string :=
  match n with
  | O => EmptyString
  | S k => String c (repeat_char c k)
  end.

(** *** json.dumps(obj, sort_keys=True, separators=(",", ":")) *)

Definition u_escape (n : Z) : string :=
  String "\" (String "u" (String "0" (String "0"
    (String (hex_digit (n / 16)) (String (hex_digit (n mod 16)) EmptyString))))).

(** One character of a JSON string with the default [ensure_ascii]. *)
Definition json_escape_char (c : ascii) : string :=
  let n := Z.of_N (N_of_ascii c) in
  if n =? 34 then String "\" (String c EmptyString)
  else if n =? 92 then String "\" (String "\" EmptyString)
  else if n =? 10 then String "\" (String "n" EmptyString)
  else if n =? 13 then String "\" (String "r" EmptyString)
  else if n =? 9 then String "\" (String "t" EmptyString)
  else if n =? 8 then String "\" (String "b" EmptyString)
  else if n =? 12 then String "\" (String "f" EmptyString)
  else if (32 <=? n) && (n <=? 126) then String c EmptyString
  else u_escape n.

Fixpoint json_escape (s : string) : string :=
  match s with
  | EmptyString => EmptyString
  | String c rest => json_escape_char c ++ json_escape rest
  end.

Definition quote : string := String (ascii_of_N 34) EmptyString.

Definition json_str (s : string) : string := quote ++ json_escape s ++ quote.
Definition json_int (n : Z) : string := str_int n.

(** A JSON member ["key":value]; the key is a field name. *)
Definition json_member (key value : string) : string :=
  json_str key ++ ":" ++ value.

Fixpoint join (sep : string) (items : list string) : string :=
  match items with
  | [] => EmptyString
  | [x] => x
  | x :: rest => x ++ sep ++ join sep rest
  end.

Definition json_object (members : list string) : string :=
  "{" ++ join "," members ++ "}".
Definition json_array (items : list string) : string :=
  "[" ++ join "," items ++ "]".

(** *** Exceptions and the state monad of a method call *)

Inductive exn : Type :=
| ValueError (msg : string)
| RuntimeError (msg : string)
| IndexError (msg : string).

(** Outcome of a call: a value, a raised exception, or one of the two
    artefacts of the model: a loop that used up its iteration budget,
    and a dereferenced index that names no object. *)
Inductive result (A : Type) : Type :=
| Ok (a : A)
| Raise (e : exn)
| OutOfFuel
| Dangling.
Arguments Ok {A} a.
Arguments Raise {A} e.
Arguments OutOfFuel {A}.
Arguments Dangling {A}.

(** The value of a call known to return. *)
Definition ok_or {A} (d : A) (r : result A) : A :=
  match r with
  | Ok a => a
  | _ => d
  end.

#[global] Instance exn_eq_dec : EqDecision exn.
Proof. solve_decision. Defined.
#[global] Instance result_eq_dec {A} `{EqDecision A} : EqDecision (result A).
Proof. solve_decision. Defined.

Definition M (S A : Type) : Type := S -> result A * S.

Definition ret {S A} (a : A) : M S A := fun s => (Ok a, s).
Definition raise {S A} (e : exn) : M S A := fun s => (Raise e, s).
Definition bind {S A B} (m : M S A) (k : A -> M S B) : M S B :=
  fun s =>
    match m s with
    | (Ok a, s') => k a s'
    | (Raise e, s') => (Raise e, s')
    | (OutOfFuel, s') => (OutOfFuel, s')
    | (Dangling, s') => (Dangling, s')
    end.
Definition get {S} : M S S := fun s => (Ok s, s).
Definition put {S} (s : S) : M S unit := fun _ => (Ok tt, s).
Definition modify {S} (f : S -> S) : M S unit := fun s => (Ok tt, f s).

(** [for x in xs: body(x)] *)
Fixpoint for_each {S A} (xs : list A) (body : A -> M S unit) : M S unit :=
  match xs with
  | [] => ret tt
  | x :: rest => bind (body x) (fun _ => for_each rest body)
  end.

(** [enumerate(xs)] *)
Fixpoint enumerate_from {A} (i : Z) (xs : list A) : list (Z * A) :=
  match xs with
  | [] => []
  | x :: rest => (i, x) :: enumerate_from (i + 1) rest
  end.
Definition enumerate {A} (xs : list A) : list (Z * A) := enumerate_from 0 xs.

(** *** Insertion-ordered dictionaries with [str] keys *)

Definition pydict (V : Type) : Type := list (string * V).

Fixpoint dict_get {V} (k : string) (d : pydict V) : option V :=
  match d with
  | [] => None
  | (k', v) :: rest => if String.eqb k k' then Some v else dict_get k rest
  end.

Definition dict_mem {V} (k : string) (d : pydict V) : bool :=
  match dict_get k d with Some _ => true | None => false end.

(** [d[k] = v]: an existing key keeps its position, a new key goes last. *)
Fixpoint dict_set {V} (k : string) (v : V) (d : pydict V) : pydict V :=
  match d with
  | [] => [(k, v)]
  | (k', v') :: rest =>
      if String.eqb k k' then (k', v) :: rest
      else (k', v') :: dict_set k v rest
  end.

(** [d.pop(k, None)] *)
Fixpoint dict_pop {V} (k : string) (d : pydict V) : pydict V :=
  match d with
  | [] => []
  | (k', v') :: rest =>
      if String.eqb k k' then rest else (k', v') :: dict_pop k rest
  end.

Definition dict_items {V} (d : pydict V) : list (string * V) := d.
Definition dict_values {V} (d : pydict V) : list V := map snd d.
Definition dict_keys {V} (d : pydict V) : list string := map fst d.

(** [items.sort(key=key, reverse=True)]: the stable sort into
    descending key order (equal keys keep their original order). *)
Fixpoint insert_desc {A} (key : A -> Z) (x : A) (sorted : list A) : list A :=
  match sorted with
  | [] => [x]
  | y :: rest =>
      if key x <? key y then y :: insert_desc key x rest
      else x :: y :: rest
  end.

Fixpoint sort_desc {A} (key : A -> Z) (l : list A) : list A :=
  match l with
  | [] => []
  | x :: rest => insert_desc key x (sort_desc key rest)
  end.

(** A document as it goes to the database and comes back: the values
    [_block_to_dict] builds from. *)
#[warnings="-register-all"]
Inductive pyval : Type :=
| VInt (z : Z)
| VStr (s : string)
| VList (l : list pyval)
| VDict (d : list (string * pyval)).

(** [d[k]] on a document, and a value read at the type the data classes
    declare; [None] stands for the [KeyError] of a missing key and for
    a document of another shape, which the typed records cannot hold. *)
Definition item (k : string) (d : pyval) : option pyval :=
  match d with
  | VDict kv => dict_get k kv
  | _ => None
  end.

Definition int_item (k : string) (d : pyval) : option Z :=
  match item k d with Some (VInt z) => Some z | _ => None end.
Definition str_item (k : string) (d : pyval) : option string :=
  match item k d with Some (VStr s) => Some s | _ => None end.

(** [[f(x) for x in d[k]]] *)
Definition list_item {A} (f : pyval -> option A) (k : string) (d : pyval)
    : option (list A) :=
  match item k d with
  | Some (VList l) => mapM (M := option) f l
  | _ => None
  end.

(** [history[:limit]]: a negative bound counts from the end. *)
Definition slice_to {A} (limit : Z) (l : list A) : list A :=
  if 0 <=? limit then take (Z.to_nat limit) l
  else take (Z.to_nat (Z.of_nat (length l) + limit)) l.

(** The [random] module.  The generator is a supply of numbers, one
    taken per draw; which numbers come is open, so what holds for every
    supply holds for every run. *)
Record rng : Type := { supply : nat -> nat; used : nat }.

Definition draw : M rng nat :=
  fun g => (Ok (supply g (used g)),
            {| supply := supply g; used := S (used g) |}).

(** [random.choice(xs)] *)
Definition choice {A} (xs : list A) : M rng A :=
  match xs with
  | [] => raise (IndexError "Cannot choose from an empty sequence")
  | x :: _ => bind draw (fun r => ret (nth (r mod length xs) xs x))
  end.

(** [random.randint(a, b)] *)
Definition randint (a b : Z) : M rng Z :=
  if a <=? b
  then bind draw (fun r => ret (a + Z.of_nat r mod (b - a + 1)))
  else raise (ValueError "empty range for randrange()").

End py.

Notation "'let!' x ':=' m 'in' k" := (py.bind m (fun x => k))
  (at level 10, x pattern, m at level 100, k at level 200).
Notation "'run!' m 'in' k" := (py.bind m (fun _ => k))
  (at level 10, m at level 100, k at level 200).

(** ** crypto.py *)

Module crypto.
Import py.

(** Reduction modulo [2^32], as a mask. *)
Definition w32 (x : Z) : Z := Z.land x 0xffffffff.
Definition rotr (n x : Z) : Z :=
  Z.lor (Z.shiftr x n) (w32 (Z.shiftl x (32 - n))).
Definition Ch (x y z : Z) : Z :=
  Z.lxor (Z.land x y) (Z.land (Z.lxor x 0xffffffff) z).
Definition Maj (x y z : Z) : Z :=
  Z.lxor (Z.lxor (Z.land x y) (Z.land x z)) (Z.land y z).
Definition bsig0 (x : Z) : Z := Z.lxor (Z.lxor (rotr 2 x) (rotr 13 x)) (rotr 22 x).
Definition bsig1 (x : Z) : Z := Z.lxor (Z.lxor (rotr 6 x) (rotr 11 x)) (rotr 25 x).
Definition ssig0 (x : Z) : Z := Z.lxor (Z.lxor (rotr 7 x) (rotr 18 x)) (Z.shiftr x 3).
Definition ssig1 (x : Z) : Z := Z.lxor (Z.lxor (rotr 17 x) (rotr 19 x)) (Z.shiftr x 10).

(** The round constants and the initial hash value, written as the
    big-endian bytes of their words. *)
Definition K256_hex : string :=
  ("428a2f9871374491b5c0fbcfe9b5dba53956c25b59f111f1923f82a4ab1c5ed5" ++
   "d807aa9812835b01243185be550c7dc372be5d7480deb1fe9bdc06a7c19bf174" ++
   "e49b69c1efbe47860fc19dc6240ca1cc2de92c6f4a7484aa5cb0a9dc76f988da" ++
   "983e5152a831c66db00327c8bf597fc7c6e00bf3d5a7914706ca635114292967" ++
   "27b70a852e1b21384d2c6dfc53380d13650a7354766a0abb81c2c92e92722c85" ++
   "a2bfe8a1a81a664bc24b8b70c76c51a3d192e819d6990624f40e3585106aa070" ++
   "19a4c1161e376c082748774c34b0bcb5391c0cb34ed8aa4a5b9cca4f682e6ff3" ++
   "748f82ee78a5636f84c878148cc7020890befffaa4506cebbef9a3f7c67178f2")%string.

Definition H256_hex : string :=
  "6a09e667bb67ae853c6ef372a54ff53a510e527f9b05688c1f83d9ab5be0cd19".

(** Big-endian encodings. *)
Fixpoint be_bytes (n : nat) (x : Z) : bytes :=
  match n with
  | O => []
  | S k => byte_of_val (Z.shiftr x (8 * Z.of_nat k)) :: be_bytes k x
  end.

Fixpoint be_val (acc : Z) (bs : bytes) : Z :=
  match bs with
  | [] => acc
  | b :: rest => be_val (256 * acc + byte_val b) rest
  end.

Definition pad (msg : bytes) : bytes :=
  let len := Z.of_nat (length msg) in
  (msg ++ [x80] ++ repeat x00 (Z.to_nat ((55 - len) mod 64))
     ++ be_bytes 8 (8 * len))%list.

(** The bytes of a padded message as 32-bit words. *)
Fixpoint words (bs : bytes) : list Z :=
  match bs with
  | b0 :: b1 :: b2 :: b3 :: rest => be_val 0 [b0; b1; b2; b3] :: words rest
  | _ => []
  end.

Definition K256 : list Z := words (default [] (fromhex K256_hex)).
Definition H256 : list Z := words (default [] (fromhex H256_hex)).

(** The working variables a..h. *)
Definition round (v : list Z) (k w : Z) : list Z :=
  match v with
  | [a; b; c; d; e; f; g; h] =>
      let t1 := h + bsig1 e + Ch e f g + k + w in
      let t2 := bsig0 a + Maj a b c in
      [w32 (t1 + t2); a; b; c; w32 (d + t1); e; f; g]
  | _ => v
  end.

(** The 64 rounds; [win] holds the next sixteen words of the message
    schedule. *)
Fixpoint rounds (ks : list Z) (win : list Z) (v : list Z) : list Z :=
  match ks, win with
  | k :: ks', w0 :: rest =>
      let next :=
        w32 (ssig1 (nth 13 rest 0) + nth 8 rest 0 + ssig0 (nth 0 rest 0) + w0) in
      rounds ks' (rest ++ [next])%list (round v k w0)
  | _, _ => v
  end.

Fixpoint add_words (xs ys : list Z) : list Z :=
  match xs, ys with
  | x :: xs', y :: ys' => w32 (x + y) :: add_words xs' ys'
  | _, _ => []
  end.

Definition compress (h : list Z) (block : list Z) : list Z :=
  add_words h (rounds K256 block h).

Fixpoint blocks (n : nat) (ws : list Z) (h : list Z) : list Z :=
  match n with
  | O => h
  | S k =>
      match ws with
      | [] => h
      | _ => blocks k (skipn 16 ws) (compress h (firstn 16 ws))
      end
  end.

(** [hashlib.sha256(data).digest()] *)
Definition sha256_bytes (data : bytes) : bytes :=
  let ws := words (pad data) in
  flat_map (be_bytes 4) (blocks (length ws) ws H256).

(** [hashlib.sha256(data).hexdigest()] *)
Definition sha256_hex (data : bytes) : string := hex (sha256_bytes data).

End crypto.

(** ** models.py *)

Module models.
Import py crypto.

Record TxOutput : Type := {
  asset_id : string;
  pubkey_hash : string;
  portion : Z
}.

Record TxInput : Type := {
  txid_ref : string;
  index : Z;
  pubkey : string;
  signature : string
}.

(** The data class keeps [txid] as a field of its own, assigned once by
    [__post_init__]; [new_Transaction] below is the constructor call. *)
Record Transaction : Type := {
  inputs : list TxInput;
  outputs : list TxOutput;
  txid : string
}.

Record BlockHeader : Type := {
  height : Z;
  prev_hash : string;
  merkle_root : string;
  nonce : Z
}.

Record Block : Type := {
  header : BlockHeader;
  txs : list Transaction
}.

(** The data classes compare field by field ([__eq__] of [@dataclass]). *)
#[global] Instance TxOutput_eq_dec : EqDecision TxOutput.
Proof. solve_decision. Defined.
#[global] Instance TxInput_eq_dec : EqDecision TxInput.
Proof. solve_decision. Defined.
#[global] Instance Transaction_eq_dec : EqDecision Transaction.
Proof. solve_decision. Defined.
#[global] Instance BlockHeader_eq_dec : EqDecision BlockHeader.
Proof. solve_decision. Defined.
#[global] Instance Block_eq_dec : EqDecision Block.
Proof. solve_decision. Defined.

(** [to_dict] followed by [json.dumps(..., sort_keys=True)]: the members
    appear in the order of their keys. *)
Definition TxOutput_json (o : TxOutput) : string :=
  json_object
    [ json_member "asset_id" (json_str (asset_id o));
      json_member "portion" (json_int (portion o));
      json_member "pubkey_hash" (json_str (pubkey_hash o)) ].

Definition TxInput_json (include_signature : bool) (i : TxInput) : string :=
  json_object
    ([ json_member "index" (json_int (index i));
       json_member "pubkey" (json_str (pubkey i)) ]
     ++ (if include_signature
         then [ json_member "signature" (json_str (signature i)) ]
         else [])
     ++ [ json_member "txid_ref" (json_str (txid_ref i)) ])%list.

Definition _serialize (include_signatures : bool)
    (ins : list TxInput) (outs : list TxOutput) : bytes :=
  encode
    (json_object
       [ json_member "inputs"
           (json_array (map (TxInput_json include_signatures) ins));
         json_member "outputs" (json_array (map TxOutput_json outs)) ]).

Definition compute_txid (ins : list TxInput) (outs : list TxOutput) : string :=
  sha256_hex (_serialize true ins outs).

Definition message_hash (tx : Transaction) : string :=
  sha256_hex (_serialize false (inputs tx) (outputs tx)).

Definition new_Transaction (ins : list TxInput) (outs : list TxOutput)
    : Transaction :=
  {| inputs := ins; outputs := outs; txid := compute_txid ins outs |}.

Definition BlockHeader_json (h : BlockHeader) : string :=
  json_object
    [ json_member "height" (json_int (height h));
      json_member "merkle_root" (json_str (merkle_root h));
      json_member "nonce" (json_int (nonce h));
      json_member "prev_hash" (json_str (prev_hash h)) ].

(** [BlockHeader.hash] *)
Definition hash (h : BlockHeader) : string :=
  sha256_hex (encode (BlockHeader_json h)).

(** The [to_dict] methods. *)
Definition TxOutput_to_dict (o : TxOutput) : pyval :=
  VDict [ ("asset_id", VStr (asset_id o));
          ("pubkey_hash", VStr (pubkey_hash o));
          ("portion", VInt (portion o)) ].

Definition TxInput_to_dict (include_signature : bool) (i : TxInput) : pyval :=
  VDict
    ([ ("txid_ref", VStr (txid_ref i));
       ("index", VInt (index i));
       ("pubkey", VStr (pubkey i)) ]
     ++ (if include_signature then [ ("signature", VStr (signature i)) ]
         else []))%list.

End models.

(** ** wallet.py *)

Module wallet.
Import py crypto.

(** What the ledger sees of a wallet is its verifying key,
    [vk.to_string()]. *)
Record Wallet : Type := { pubkey_bytes : bytes }.

Definition pubkey_hex (w : Wallet) : string := hex (pubkey_bytes w).
Definition pubkey_hash (w : Wallet) : string := sha256_hex (pubkey_bytes w).

(** The signature check of the [ecdsa] package on raw bytes:
    [VerifyingKey.from_string(pk, curve=SECP256k1).verify(sig, msg)]
    returning normally ([true]) or raising ([false]). *)
Class Ecdsa : Type := { ecdsa_verify : bytes -> bytes -> bytes -> bool }.

(** [Wallet.verify]: every exception, the one of [bytes.fromhex]
    included, is caught and turned into [False]. *)
Definition verify `{Ecdsa} (pubkey_hex msg_hash_hex signature_hex : string)
    : bool :=
  match fromhex pubkey_hex, fromhex signature_hex, fromhex msg_hash_hex with
  | Some pk, Some sig, Some msg => ecdsa_verify pk sig msg
  | _, _, _ => false
  end.

End wallet.

(** ** utxo.py *)

Module utxo.
Import models.

(** [UTXOSet.utxos : Dict[Tuple[str, int], TxOutput]] *)
Abbreviation UTXOSet := (gmap (string * Z) TxOutput).

Definition add_output (txid : string) (index : Z) (out : TxOutput)
    (u : UTXOSet) : UTXOSet := <[(txid, index) := out]> u.

Definition remove_output (txid : string) (index : Z) (u : UTXOSet)
    : UTXOSet := delete (txid, index) u.

Definition get_output (txid : string) (index : Z) (u : UTXOSet)
    : option TxOutput := u !! (txid, index).

End utxo.

(** ** utils.py *)

Module utils.
Import py crypto models.
Abbreviation Wallet := wallet.Wallet.

(** One pass of the [for i in range(0, len(level), 2)] loop; [lhs] and
    [rhs] are the source's [left] and [right]. *)
Fixpoint merkle_level (level : list bytes) : list bytes :=
  match level with
  | [] => []
  | [lhs] => [sha256_bytes (lhs ++ lhs)%list]
  | lhs :: rhs :: rest =>
      sha256_bytes (lhs ++ rhs)%list :: merkle_level rest
  end.

(** [while len(level) > 1: ...] *)
Fixpoint merkle_loop (fuel : nat) (level : list bytes) : result (list bytes) :=
  if (1 <? Z.of_nat (length level)) then
    match fuel with
    | O => OutOfFuel
    | S f => merkle_loop f (merkle_level level)
    end
  else Ok level.

(** [[bytes.fromhex(txid) for txid in txids]] *)
Fixpoint fromhex_all (txids : list string) : option (list bytes) :=
  match txids with
  | [] => Some []
  | t :: rest =>
      match fromhex t with
      | None => None
      | Some b =>
          match fromhex_all rest with
          | None => None
          | Some bs => Some (b :: bs)
          end
      end
  end.

Definition fromhex_error : exn :=
  ValueError "non-hexadecimal number found in fromhex() arg".

Definition merkle_root (txids : list string) : result string :=
  match txids with
  | [] => Ok (sha256_hex [])
  | _ =>
      match fromhex_all txids with
      | None => Raise fromhex_error
      | Some level =>
          match merkle_loop (length level) level with
          | Ok (root :: _) => Ok (hex root)
          | Ok [] => Raise (IndexError "list index out of range")
          | Raise e => Raise e
          | OutOfFuel => OutOfFuel
          | Dangling => Dangling
          end
      end
  end.

(** The [for i in range(num_assets)] loop of [create_genesis]. *)
Fixpoint genesis_txs (ids : list Z) (initial_wallets : list Wallet)
    : result (list Transaction) :=
  match ids with
  | [] => Ok []
  | i :: rest =>
      match initial_wallets !! Z.to_nat i with
      | None => Raise (IndexError "list index out of range")
      | Some w =>
          let out := {| asset_id := "asset-" ++ str_int i;
                        pubkey_hash := wallet.pubkey_hash w;
                        portion := 100 |} in
          match genesis_txs rest initial_wallets with
          | Ok txs => Ok (new_Transaction [] [out] :: txs)
          | r => r
          end
      end
  end.

Definition zero_hash : string := repeat_char "0" 64.
Arguments zero_hash : simpl never.

Definition create_genesis (num_assets : Z) (initial_wallets : list Wallet)
    : result Block :=
  match genesis_txs (seqZ 0 num_assets) initial_wallets with
  | Ok txs =>
      match merkle_root (map txid txs) with
      | Ok root =>
          Ok {| header := {| height := 0; prev_hash := zero_hash;
                             models.merkle_root := root; nonce := 0 |};
                txs := txs |}
      | Raise e => Raise e
      | OutOfFuel => OutOfFuel
      | Dangling => Dangling
      end
  | Raise e => Raise e
  | OutOfFuel => OutOfFuel
  | Dangling => Dangling
  end.

End utils.

(** ** blockchain.py *)

Module blockchain.
Import py crypto models.
Export utxo.

Definition TARGET_HEX : string :=
  "00000fffffffffffffffffffffffffffffffffffffffffffffffffffffffffff".
Definition MAX_TX_PER_BLOCK : Z := 8.

Record Blockchain : Type := {
  blocks_by_hash : pydict Block;
  height_tip_hash : string;
  utxo : UTXOSet
}.

#[global] Instance Blockchain_eq_dec : EqDecision Blockchain.
Proof. solve_decision. Defined.

(** [Blockchain()] before anything is loaded. *)
Definition empty_chain : Blockchain :=
  {| blocks_by_hash := []; height_tip_hash := ""; utxo := ∅ |}.

Definition with_blocks (f : pydict Block -> pydict Block) (bc : Blockchain)
    : Blockchain :=
  {| blocks_by_hash := f (blocks_by_hash bc);
     height_tip_hash := height_tip_hash bc;
     utxo := utxo bc |}.

Definition with_tip (h : string) (bc : Blockchain) : Blockchain :=
  {| blocks_by_hash := blocks_by_hash bc;
     height_tip_hash := h;
     utxo := utxo bc |}.

Definition with_utxo (f : UTXOSet -> UTXOSet) (bc : Blockchain) : Blockchain :=
  {| blocks_by_hash := blocks_by_hash bc;
     height_tip_hash := height_tip_hash bc;
     utxo := f (utxo bc) |}.

(** The property [tip]. *)
Definition tip (bc : Blockchain) : option Block :=
  dict_get (height_tip_hash bc) (blocks_by_hash bc).

(** [self.utxo.add_output], [self.utxo.remove_output] and
    [self.utxo.get_output] as steps on the ledger. *)
Definition utxo_add (txid : string) (idx : Z) (out : TxOutput)
    : M Blockchain unit := modify (with_utxo (add_output txid idx out)).
Definition utxo_remove (txid : string) (idx : Z) : M Blockchain unit :=
  modify (with_utxo (remove_output txid idx)).
Definition utxo_get (txid : string) (idx : Z)
    : M Blockchain (option TxOutput) :=
  fun bc => (Ok (get_output txid idx (utxo bc)), bc).

(** [for idx, out in enumerate(tx.outputs): self.utxo.add_output(...)] *)
Definition add_outputs (tx : Transaction) : M Blockchain unit :=
  for_each (enumerate (outputs tx))
    (fun io => utxo_add (txid tx) (fst io) (snd io)).

Definition add_genesis_block (block : Block) : M Blockchain unit :=
  let h := hash (header block) in
  run! modify (with_blocks (dict_set h block)) in
  run! modify (with_tip h) in
  for_each (txs block) add_outputs.

Section Validation.
Context `{wallet.Ecdsa}.

(** The loop over [tx.inputs]; [inl] is an early [return]. *)
Fixpoint check_inputs (ins : list TxInput) (asset : option string)
    (total_in : Z)
    : M Blockchain ((bool * string) + (option string * Z)) :=
  match ins with
  | [] => ret (inr (asset, total_in))
  | inp :: rest =>
      let! found := utxo_get (txid_ref inp) (index inp) in
      match found with
      | None =>
          ret (inl (false,
                    "missing UTXO for (" ++ txid_ref inp ++ ", "
                      ++ str_int (index inp) ++ ")"))
      | Some u =>
          let same :=
            match asset with
            | None => true
            | Some a => String.eqb (asset_id u) a
            end in
          if negb same then ret (inl (false, "multiple asset_ids in inputs"))
          else
            match fromhex (pubkey inp) with
            | None => raise utils.fromhex_error
            | Some pk =>
                if String.eqb (sha256_hex pk) (pubkey_hash u)
                then check_inputs rest (Some (asset_id u))
                       (total_in + portion u)
                else ret (inl (false, "pubkey hash mismatch"))
            end
      end
  end.

(** The loop over [tx.outputs]. *)
Fixpoint check_outputs (outs : list TxOutput) (asset : option string)
    (total_out : Z) : (bool * string) + Z :=
  match outs with
  | [] => inr total_out
  | out :: rest =>
      match asset with
      | Some a =>
          if String.eqb (asset_id out) a
          then check_outputs rest asset (total_out + portion out)
          else inl (false, "output asset_id mismatch")
      | None => inl (false, "output asset_id mismatch")
      end
  end.

(** The loop over the signatures. *)
Fixpoint check_signatures (ins : list TxInput) (msg_hash : string)
    : bool * string :=
  match ins with
  | [] => (true, "ok")
  | inp :: rest =>
      if wallet.verify (pubkey inp) msg_hash (signature inp)
      then check_signatures rest msg_hash
      else (false, "signature verification failed")
  end.

Definition validate_transaction (tx : Transaction)
    : M Blockchain (bool * string) :=
  match inputs tx with
  | [] => ret (true, "coinbase/genesis tx")
  | _ =>
      let! r := check_inputs (inputs tx) None 0 in
      match r with
      | inl verdict => ret verdict
      | inr (asset, total_in) =>
          match check_outputs (outputs tx) asset 0 with
          | inl verdict => ret verdict
          | inr total_out =>
              if negb (total_in =? total_out)
              then ret (false,
                        "portion mismatch: in=" ++ str_int total_in
                          ++ ", out=" ++ str_int total_out)
              else ret (check_signatures (inputs tx) (message_hash tx))
          end
      end
  end.

Definition apply_transaction (tx : Transaction) : M Blockchain unit :=
  run! for_each (inputs tx)
         (fun inp => utxo_remove (txid_ref inp) (index inp)) in
  add_outputs tx.

(** The selection loop of [mine_block]. *)
Fixpoint select_valid (pending selected : list Transaction)
    : M Blockchain (list Transaction) :=
  match pending with
  | [] => ret selected
  | tx :: rest =>
      let! verdict := validate_transaction tx in
      let selected' :=
        if fst verdict then (selected ++ [tx])%list else selected in
      if MAX_TX_PER_BLOCK <=? Z.of_nat (length selected')
      then ret selected'
      else select_valid rest selected'
  end.

(** [int(h, 16) < int(TARGET_HEX, 16)]; [None] is the [ValueError] of
    [int]. *)
Definition below_target (h : string) : option bool :=
  match int16 h, int16 TARGET_HEX with
  | Some v, Some target_int => Some (v <? target_int)
  | _, _ => None
  end.

Definition int16_error : exn :=
  ValueError "invalid literal for int() with base 16".

(** The [while True] search for a nonce; on success the block is
    stored, the tip moved and the selected transactions applied. *)
Fixpoint pow_loop (fuel : nat) (height : Z) (prev root : string)
    (selected : list Transaction) (nonce : Z) : M Blockchain Block :=
  match fuel with
  | O => fun bc => (OutOfFuel, bc)
  | S f =>
      let header := {| models.height := height; prev_hash := prev;
                       models.merkle_root := root;
                       models.nonce := nonce |} in
      let h := hash header in
      match below_target h with
      | None => raise int16_error
      | Some true =>
          let block := {| models.header := header; txs := selected |} in
          run! modify (with_blocks (dict_set h block)) in
          run! modify (with_tip h) in
          run! for_each selected apply_transaction in
          ret block
      | Some false => pow_loop f height prev root selected (nonce + 1)
      end
  end.

Definition no_valid_transactions : exn :=
  RuntimeError "no valid transactions to mine".

Definition mine_block (fuel : nat) (pending_txs : list Transaction)
    : M Blockchain Block :=
  let! selected := select_valid pending_txs [] in
  match selected with
  | [] => raise no_valid_transactions
  | _ =>
      match utils.merkle_root (map txid selected) with
      | Ok root =>
          let! bc := get in
          let '(height, prev) :=
            match tip bc with
            | Some t => (models.height (header t) + 1, hash (header t))
            | None => (0, utils.zero_hash)
            end in
          pow_loop fuel height prev root selected 0
      | Raise e => raise e
      | OutOfFuel => fun bc => (OutOfFuel, bc)
      | Dangling => fun bc => (Dangling, bc)
      end
  end.

End Validation.

(** The inner [for out in tx.outputs: ... break] of [trace_asset]. *)
Fixpoint first_hit {A} (asset : string) (outs : list TxOutput) (entry : A)
    : list A :=
  match outs with
  | [] => []
  | out :: rest =>
      if String.eqb (asset_id out) asset then [entry]
      else first_hit asset rest entry
  end.

Definition trace_block (asset : string) (kv : string * Block)
    : list (Z * string * Transaction) :=
  flat_map
    (fun tx =>
       first_hit asset (outputs tx) (height (header (snd kv)), fst kv, tx))
    (txs (snd kv)).

Definition trace_asset (bc : Blockchain) (asset : string)
    : list (Z * string * Transaction) :=
  let blocks :=
    sort_desc (fun kv => height (header (snd kv)))
      (dict_items (blocks_by_hash bc)) in
  flat_map (trace_block asset) blocks.

(** [find_output_in_chain]: the [return] sits inside the bounds test, so
    a transaction with the right txid and too few outputs is skipped. *)
Fixpoint find_in_txs (ts : list Transaction) (t : string) (idx : Z)
    : option TxOutput :=
  match ts with
  | [] => None
  | tx :: rest =>
      if String.eqb (txid tx) t && (0 <=? idx)
         && (idx <? Z.of_nat (length (outputs tx)))
      then outputs tx !! Z.to_nat idx
      else find_in_txs rest t idx
  end.

Fixpoint find_output_in_chain_from (blocks : list Block) (t : string)
    (idx : Z) : option TxOutput :=
  match blocks with
  | [] => None
  | blk :: rest =>
      match find_in_txs (txs blk) t idx with
      | Some out => Some out
      | None => find_output_in_chain_from rest t idx
      end
  end.

Definition find_output_in_chain (bc : Blockchain) (t : string) (idx : Z)
    : option TxOutput :=
  find_output_in_chain_from (dict_values (blocks_by_hash bc)) t idx.

(** The [while cur_hash and cur_hash not in visited] loop.  [chain] is
    kept in append order; [None] means the iteration budget ran out. *)
Fixpoint build_chain_loop (fuel : nat) (blocks : pydict Block)
    (cur_hash : string) (visited : gset string)
    (chain : list (string * Block)) : option (list (string * Block)) :=
  if negb (String.eqb cur_hash "") && negb (bool_decide (cur_hash ∈ visited))
  then
    match fuel with
    | O => None
    | S f =>
        let visited' := {[cur_hash]} ∪ visited in
        match dict_get cur_hash blocks with
        | None => Some chain
        | Some blk =>
            let chain' := (chain ++ [(cur_hash, blk)])%list in
            if String.eqb (prev_hash (header blk)) utils.zero_hash
            then Some chain'
            else build_chain_loop f blocks (prev_hash (header blk))
                   visited' chain'
        end
    end
  else Some chain.

(** The budget: one iteration per stored block and a last one that
    leaves the loop. *)
Definition build_chain_from_tip (bc : Blockchain)
    : option (list (string * Block)) :=
  build_chain_loop (S (length (blocks_by_hash bc))) (blocks_by_hash bc)
    (height_tip_hash bc) ∅ [].

(** [_block_to_dict]; [now] is [int(time.time())]. *)
Definition _block_to_dict (now : Z) (block : Block) (block_hash : string)
    : pyval :=
  let txs_list :=
    map (fun tx =>
           VDict [ ("txid", VStr (txid tx));
                   ("inputs", VList (map (TxInput_to_dict true) (inputs tx)));
                   ("outputs", VList (map TxOutput_to_dict (outputs tx))) ])
      (txs block) in
  VDict [ ("hash", VStr block_hash);
          ("height", VInt (height (header block)));
          ("prev_hash", VStr (prev_hash (header block)));
          ("merkle_root", VStr (models.merkle_root (header block)));
          ("nonce", VInt (nonce (header block)));
          ("timestamp", VInt now);
          ("txs", VList txs_list) ].

Definition TxInput_from_dict (inp : pyval) : option TxInput :=
  match str_item "txid_ref" inp, int_item "index" inp,
        str_item "pubkey" inp, str_item "signature" inp with
  | Some t, Some i, Some p, Some s =>
      Some {| txid_ref := t; index := i; pubkey := p; signature := s |}
  | _, _, _, _ => None
  end.

Definition TxOutput_from_dict (out : pyval) : option TxOutput :=
  match str_item "asset_id" out, str_item "pubkey_hash" out,
        int_item "portion" out with
  | Some a, Some h, Some p =>
      Some {| asset_id := a; pubkey_hash := h; portion := p |}
  | _, _, _ => None
  end.

(** The stored ["txid"] is not read: [Transaction(inputs=..., outputs=...)]
    computes it again. *)
Definition Transaction_from_dict (tx_data : pyval) : option Transaction :=
  match list_item TxInput_from_dict "inputs" tx_data,
        list_item TxOutput_from_dict "outputs" tx_data with
  | Some ins, Some outs => Some (new_Transaction ins outs)
  | _, _ => None
  end.

Definition _block_from_dict (data : pyval) : option Block :=
  match int_item "height" data, str_item "prev_hash" data,
        str_item "merkle_root" data, int_item "nonce" data,
        list_item Transaction_from_dict "txs" data with
  | Some h, Some p, Some r, Some n, Some txs =>
      Some {| header := {| height := h; prev_hash := p;
                           models.merkle_root := r; nonce := n |};
              txs := txs |}
  | _, _, _, _, _ => None
  end.

End blockchain.

(** ** utils.py: the transaction generators of the user process *)

Module generators.
Import py crypto models.
Export blockchain.

Section Generators.

(** The signing operation of the [ecdsa] package on raw bytes,
    [sk.sign(msg)], for the key of a wallet and the entropy it takes. *)
Variable ecdsa_sign : wallet.Wallet -> bytes -> nat -> bytes.

(** [Wallet.sign] *)
Definition sign (w : wallet.Wallet) (msg_hash_hex : string) : M rng string :=
  match fromhex msg_hash_hex with
  | None => raise utils.fromhex_error
  | Some msg => let! entropy := draw in ret (hex (ecdsa_sign w msg entropy))
  end.

(** The [for i in range(k)] loop that splits the portion. *)
Fixpoint random_outputs (wallets : list wallet.Wallet) (asset : string)
    (k : Z) (ids : list Z) (remaining : Z) (outs : list TxOutput)
    : M rng (list TxOutput) :=
  match ids with
  | [] => ret outs
  | i :: rest =>
      let! w := choice wallets in
      let! p :=
        if i =? k - 1 then ret remaining
        else randint 1 (remaining - (k - i - 1)) in
      random_outputs wallets asset k rest (remaining - p)
        (outs ++ [ {| asset_id := asset;
                      pubkey_hash := wallet.pubkey_hash w;
                      portion := p |} ])%list
  end.

(** The search for the owner's wallet, up to its [break]. *)
Fixpoint find_owner (wallets : list wallet.Wallet) (h : string)
    : option wallet.Wallet :=
  match wallets with
  | [] => None
  | w :: rest =>
      if String.eqb (wallet.pubkey_hash w) h then Some w
      else find_owner rest h
  end.

(** [create_random_valid_tx].  [all_utxos().items()] is taken in the
    order of the keys; [random.choice] makes the order immaterial. *)
Definition create_random_valid_tx (bc : Blockchain)
    (wallets : list wallet.Wallet) : M rng (option Transaction) :=
  let utxos := map_to_list (utxo bc) in
  match utxos with
  | [] => ret None
  | _ =>
      let! chosen := choice utxos in
      let u := snd chosen in
      let! k := randint 1 3 in
      let! outs :=
        random_outputs wallets (asset_id u) k (seqZ 0 k) (portion u) [] in
      match find_owner wallets (pubkey_hash u) with
      | None => ret None
      | Some owner =>
          let input sig :=
            {| txid_ref := fst (fst chosen); index := snd (fst chosen);
               pubkey := wallet.pubkey_hex owner; signature := sig |} in
          let tx_tmp := new_Transaction [input ""] outs in
          let! sig := sign owner (message_hash tx_tmp) in
          ret (Some (new_Transaction [input sig] outs))
      end
  end.

(** The error [create_random_invalid_tx] puts into its copy of the
    base transaction, by [mode]. *)
Definition inject_error (wallets : list wallet.Wallet) (mode : string)
    (ins : list TxInput) (outs : list TxOutput)
    : M rng (list TxInput * list TxOutput) :=
  if String.eqb mode "portion" then
    match outs with
    | [] => ret (ins, outs)
    | o :: rest =>
        ret (ins, {| asset_id := asset_id o; pubkey_hash := pubkey_hash o;
                     portion := portion o + 1 |} :: rest)
    end
  else if String.eqb mode "asset" then
    match outs with
    | [] => raise (IndexError "list index out of range")
    | o :: rest =>
        ret (ins, {| asset_id := "broken-asset";
                     pubkey_hash := pubkey_hash o;
                     portion := portion o |} :: rest)
    end
  else if String.eqb mode "pubkey" then
    let! fake_w := choice wallets in
    match ins with
    | [] => raise (IndexError "list index out of range")
    | i :: rest =>
        ret ({| txid_ref := txid_ref i; index := index i;
                pubkey := wallet.pubkey_hex fake_w;
                signature := signature i |} :: rest, outs)
    end
  else if String.eqb mode "signature" then
    let! fake_w := choice wallets in
    let! sig := sign fake_w (message_hash (new_Transaction ins outs)) in
    match ins with
    | [] => raise (IndexError "list index out of range")
    | i :: rest =>
        ret ({| txid_ref := txid_ref i; index := index i;
                pubkey := pubkey i; signature := sig |} :: rest, outs)
    end
  else ret (ins, outs).

(** [create_random_invalid_tx]; the last assignment sets the txid of
    the changed copy. *)
Definition create_random_invalid_tx (bc : Blockchain)
    (wallets : list wallet.Wallet) : M rng (option Transaction) :=
  let! base := create_random_valid_tx bc wallets in
  match base with
  | None => ret None
  | Some base =>
      let! mode := choice ["portion"; "asset"; "pubkey"; "signature"] in
      let! changed := inject_error wallets mode (inputs base) (outputs base) in
      ret (Some (new_Transaction (fst changed) (snd changed)))
  end.

End Generators.

End generators.

(** ** node.py *)

Module node.
Import py crypto models.
Export blockchain.

(** A node refers to its ledger and to its peers; references are indices
    into the two object tables of [World], so that nodes sharing one
    [Blockchain] object see each other's writes. *)
Record FullNode : Type := {
  node_id : string;
  blockchain : nat;
  mempool : pydict Transaction;
  peers : list nat;
  last_mined_block : option Block
}.

Record World : Type := {
  ledgers : list Blockchain;
  nodes : list FullNode
}.

#[global] Instance FullNode_eq_dec : EqDecision FullNode.
Proof. solve_decision. Defined.
#[global] Instance World_eq_dec : EqDecision World.
Proof. solve_decision. Defined.

Definition with_mempool (f : pydict Transaction -> pydict Transaction)
    (nd : FullNode) : FullNode :=
  {| node_id := node_id nd; blockchain := blockchain nd;
     mempool := f (mempool nd); peers := peers nd;
     last_mined_block := last_mined_block nd |}.

Definition get_node (self : nat) : M World FullNode :=
  fun w =>
    match nodes w !! self with
    | Some nd => (Ok nd, w)
    | None => (Dangling, w)
    end.

Definition update_node (self : nat) (f : FullNode -> FullNode)
    : M World unit :=
  fun w =>
    match nodes w !! self with
    | Some nd =>
        (Ok tt, {| ledgers := ledgers w; nodes := <[self := f nd]> (nodes w) |})
    | None => (Dangling, w)
    end.

(** A method call on the ledger object behind reference [r]. *)
Definition on_ledger {A} (r : nat) (m : M Blockchain A) : M World A :=
  fun w =>
    match ledgers w !! r with
    | Some bc =>
        let '(res, bc') := m bc in
        (res, {| ledgers := <[r := bc']> (ledgers w); nodes := nodes w |})
    | None => (Dangling, w)
    end.

Definition with_peers (f : list nat -> list nat) (nd : FullNode) : FullNode :=
  {| node_id := node_id nd; blockchain := blockchain nd;
     mempool := mempool nd; peers := f (peers nd);
     last_mined_block := last_mined_block nd |}.

(** [connect_peer]: [peer not in self.peers] compares node objects,
    which have no [__eq__] of their own, by identity: here, by
    reference. *)
Definition connect_peer (self peer : nat) : M World unit :=
  update_node self
    (fun nd =>
       if bool_decide (peer ∈ peers nd) then nd
       else with_peers (fun ps => (ps ++ [peer])%list) nd).

Section Node.
Context `{wallet.Ecdsa}.

(** The flood: [fuel] bounds the nesting of the calls from peer to
    peer. *)
Fixpoint receive_transaction (fuel : nat) (self : nat) (tx : Transaction)
    : M World unit :=
  match fuel with
  | O => fun w => (OutOfFuel, w)
  | S f =>
      let! nd := get_node self in
      if dict_mem (txid tx) (mempool nd) then ret tt
      else
        let! verdict := on_ledger (blockchain nd) (validate_transaction tx) in
        if negb (fst verdict) then ret tt
        else
          run! update_node self (with_mempool (dict_set (txid tx) tx)) in
          for_each (peers nd) (fun p => receive_transaction f p tx)
  end.

(** The validation loop of [receive_block]; [false] is the early
    [return]. *)
Fixpoint validate_all (ts : list Transaction) : M Blockchain bool :=
  match ts with
  | [] => ret true
  | tx :: rest =>
      let! verdict := validate_transaction tx in
      if negb (fst verdict) then ret false else validate_all rest
  end.

Definition receive_block (self : nat) (block : Block) : M World unit :=
  let! nd := get_node self in
  let header := header block in
  let prev := prev_hash header in
  let! bc := on_ledger (blockchain nd) get in
  let tip_hash := height_tip_hash bc in
  if negb (String.eqb tip_hash "") && negb (String.eqb prev tip_hash)
  then ret tt
  else
    let h := hash header in
    match below_target h with
    | None => raise int16_error
    | Some false => ret tt
    | Some true =>
        let! valid := on_ledger (blockchain nd) (validate_all (txs block)) in
        if negb valid then ret tt
        else
          run! on_ledger (blockchain nd)
                 (run! modify (with_blocks (dict_set h block)) in
                  modify (with_tip h)) in
          for_each (txs block)
            (fun tx =>
               run! on_ledger (blockchain nd) (apply_transaction tx) in
               update_node self (with_mempool (dict_pop (txid tx))))
    end.

(** [mine], up to the report to the master process, which only
    observes; [fuel] is the budget of the nonce search. *)
Definition mine (fuel : nat) (self : nat) : M World (option Block) :=
  let! nd := get_node self in
  match mempool nd with
  | [] => ret None
  | _ =>
      let txs := dict_values (mempool nd) in
      fun w =>
        match on_ledger (blockchain nd) (mine_block fuel txs) w with
        | (Raise (RuntimeError _), w') => (Ok None, w')
        | (Ok block, w') =>
            (run! update_node self
                    (fun n =>
                       {| node_id := node_id n; blockchain := blockchain n;
                          mempool := mempool n; peers := peers n;
                          last_mined_block := Some block |}) in
             run! for_each (models.txs block)
                    (fun tx =>
                       update_node self (with_mempool (dict_pop (txid tx)))) in
             run! for_each (peers nd) (fun p => receive_block p block) in
             ret (Some block)) w'
        | (Raise e, w') => (Raise e, w')
        | (OutOfFuel, w') => (OutOfFuel, w')
        | (Dangling, w') => (Dangling, w')
        end
  end.

End Node.

End node.

(** ** cli.py *)

Module cli.
Import py models.
Export node.

(** [FullNode(f"F{i}", self.blockchain, master=self.master)] *)
Definition new_node (i : nat) (ledger : nat) : FullNode :=
  {| node_id := "F" ++ str_int (Z.of_nat i); blockchain := ledger;
     mempool := []; peers := []; last_mined_block := None |}.

Definition append_node (nd : FullNode) : M World unit :=
  modify (fun w => {| ledgers := ledgers w; nodes := (nodes w ++ [nd])%list |}).

(** [initiate_fullnodes(l)].  [ledger] is [self.blockchain] ([None]
    before [initiate daChain]); [self.nodes] is the node table of the
    world, so [self.nodes[i]] is reference [i].  [range(l)] is
    [seq 0 (Z.to_nat l)] and [range(i + 1, l)] the numbers from [i + 1]
    below [l]. *)
Definition initiate_fullnodes (l : Z) (ledger : option nat) : M World unit :=
  match ledger with
  | None => ret tt
  | Some r =>
      let! w := get in
      match nodes w with
      | _ :: _ => ret tt
      | [] =>
          let n := Z.to_nat l in
          run! for_each (seq 0 n) (fun i => append_node (new_node i r)) in
          for_each (seq 0 n)
            (fun i =>
               for_each (seq (S i) (n - S i))
                 (fun j =>
                    run! connect_peer i j in
                    connect_peer j i))
      end
  end.

End cli.

(** ** processes.py *)

Module processes.
Import py crypto models.
Export node.

(** What [MasterProcess] writes to the console, one constructor per
    [print], with the values the line shows. *)
Inductive line : Type :=
| no_such_node (node_id : string)
| no_block (node_id : string)
| leftmost (txid : string)
| input_outpoint (idx : Z) (txid_ref : string) (index : Z)
| outpoint_missing
| outpoint_found (o : TxOutput)
| mixed_assets
| hash_check (ok : bool)
| signature_check (ok : bool)
| output_mismatch
| sum_check (ok : bool) (total_in total_out : Z)
| all_passed.

Definition print (l : line) : M (list line) unit :=
  modify (fun out => (out ++ [l])%list).

(** [find_node] *)
Fixpoint find_node (nds : list FullNode) (id : string) : option FullNode :=
  match nds with
  | [] => None
  | n :: rest => if String.eqb (node_id n) id then Some n else find_node rest id
  end.

Section Master.
Context `{wallet.Ecdsa}.

(** The loop over [enumerate(tx.inputs)] of [verify_transaction];
    [None] is a [return]. *)
Fixpoint verify_inputs (bc : Blockchain) (tx : Transaction)
    (ins : list (Z * TxInput)) (asset : option string) (total_in : Z)
    : M (list line) (option (option string * Z)) :=
  match ins with
  | [] => ret (Some (asset, total_in))
  | (idx, inp) :: rest =>
      run! print (input_outpoint idx (txid_ref inp) (index inp)) in
      match find_output_in_chain bc (txid_ref inp) (index inp) with
      | None => run! print outpoint_missing in ret None
      | Some u =>
          run! print (outpoint_found u) in
          let same :=
            match asset with
            | None => true
            | Some a => String.eqb (asset_id u) a
            end in
          if negb same then run! print mixed_assets in ret None
          else
            match fromhex (pubkey inp) with
            | None => raise utils.fromhex_error
            | Some pk =>
                run! print
                       (hash_check
                          (String.eqb (sha256_hex pk) (pubkey_hash u))) in
                let ok_sig :=
                  wallet.verify (pubkey inp) (message_hash tx)
                    (signature inp) in
                run! print (signature_check ok_sig) in
                if negb ok_sig then ret None
                else verify_inputs bc tx rest (Some (asset_id u))
                       (total_in + portion u)
            end
      end
  end.

(** The loop over [tx.outputs]: [o.asset_id != asset_id], with
    [asset_id] still [None] when there was no input. *)
Fixpoint verify_outputs (outs : list TxOutput) (asset : option string)
    (total_out : Z) : option Z :=
  match outs with
  | [] => Some total_out
  | o :: rest =>
      match asset with
      | Some a =>
          if String.eqb (asset_id o) a
          then verify_outputs rest asset (total_out + portion o)
          else None
      | None => None
      end
  end.

(** [verify_transaction]; [ledger] is the master's [self.blockchain],
    the node's own ledger is read for its tip. *)
Definition verify_transaction (w : World) (ledger : nat) (node_id : string)
    (from_last_block : bool) : M (list line) unit :=
  match find_node (nodes w) node_id with
  | None => print (no_such_node node_id)
  | Some node =>
      match ledgers w !! blockchain node, ledgers w !! ledger with
      | Some node_bc, Some bc =>
          let blk :=
            if from_last_block then last_mined_block node else tip node_bc in
          match blk with
          | None => print (no_block node_id)
          | Some {| txs := [] |} => print (no_block node_id)
          | Some {| txs := tx :: _ |} =>
              run! print (leftmost (txid tx)) in
              let! r := verify_inputs bc tx (enumerate (inputs tx)) None 0 in
              match r with
              | None => ret tt
              | Some (asset, total_in) =>
                  match verify_outputs (outputs tx) asset 0 with
                  | None => print output_mismatch
                  | Some total_out =>
                      run! print (sum_check (total_in =? total_out)
                                    total_in total_out) in
                      if negb (total_in =? total_out) then ret tt
                      else print all_passed
                  end
              end
          end
      | _, _ => fun out => (Dangling, out)
      end
  end.

End Master.

(** [MasterProcess.trace_asset], as the entries it prints (none: the
    line "no txs for asset"). *)
Definition trace_asset (bc : Blockchain) (asset_id : string)
    (limit : option Z) : list (Z * string * Transaction) :=
  let history := blockchain.trace_asset bc asset_id in
  match limit with
  | Some k => slice_to k history
  | None => history
  end.

End processes.

(** ** A concrete run

    Two wallets (their keys are the curve points [G] and [2G] of
    secp256k1), the two-asset genesis block built from them, and three
    blocks on top of it.  Hashes and txids are written out; the section
    "The concrete run is what the code computes" below recomputes each of
    them with the definitions above.  The nonces were found by search. *)

Module scenario.
Import py crypto models.
Export node.

Definition w0 : wallet.Wallet :=
  {| wallet.pubkey_bytes := default [] (fromhex
       ("79be667ef9dcbbac55a06295ce870b07029bfcdb2dce28d959f2815b16f81798"
        ++ "483ada7726a3c4655da4fbfc0e1108a8fd17b448a68554199c47d08ffb10d4b8")) |}.

Definition w1 : wallet.Wallet :=
  {| wallet.pubkey_bytes := default [] (fromhex
       ("c6047f9441ed7d6d3045406e95c07cd85c778e4b8cef3ca7abac09b95c709ee5"
        ++ "1ae168fea63dc339a3c58419466ceaeef7f632653266d0e1236431a950cfe52a")) |}.

(** [w0.pubkey_hash] and [w1.pubkey_hash]. *)
Definition pkh0 : string :=
  "09c0b2d1a486c439a87bcba6b46a7a1a23f3897cc83a94521a96da5c23bc58db".
Definition pkh1 : string :=
  "5d99ee966b42cd8fc7bdd1364b389153a9e78b42b7d4a691470674e817888d4e".

(** A stand-in for the signature check, used where a run needs an
    accepted signature: the signature of [msg] under key [pk] is
    SHA-256 of [pk ++ msg]. *)
Definition keyed_hash_check : wallet.Ecdsa :=
  {| wallet.ecdsa_verify pk sig msg :=
       String.eqb (hex sig) (sha256_hex (pk ++ msg)%list) |}.

(** A check that accepts nothing. *)
Definition reject_all : wallet.Ecdsa :=
  {| wallet.ecdsa_verify _ _ _ := false |}.

Definition out0 : TxOutput :=
  {| asset_id := "asset-0"; pubkey_hash := pkh0; portion := 100 |}.
Definition out1 : TxOutput :=
  {| asset_id := "asset-1"; pubkey_hash := pkh1; portion := 100 |}.

(** [Transaction(inputs=[], outputs=[out0])] and the same for [out1]. *)
Definition genesis_tx0 : Transaction :=
  {| inputs := []; outputs := [out0];
     txid := "3dcfb7a97831cc1aca740cf7574759894c12aa1222c5363a02c135b885e4079f" |}.
Definition genesis_tx1 : Transaction :=
  {| inputs := []; outputs := [out1];
     txid := "7e56ba95f1c4bdeb176f3acc3222eb45bf04f88ceac3d0ee863cc90aabb14b20" |}.

(** [create_genesis(2, [w0, w1])] *)
Definition genesis : Block :=
  {| header :=
       {| height := 0; prev_hash := utils.zero_hash;
          merkle_root :=
            "f03455dd67501be6089ac87ff93ca2436c1331e9af7e7a71a6262c4f4d560f88";
          nonce := 0 |};
     txs := [genesis_tx0; genesis_tx1] |}.

Definition genesis_hash : string :=
  "33c1586e35e873086169c34465be71a24328f9cf53de78be2d2c8f6491cafbd6".

(** The ledger after [add_genesis_block(genesis)]. *)
Definition chain1 : Blockchain :=
  {| blocks_by_hash := [(genesis_hash, genesis)];
     height_tip_hash := genesis_hash;
     utxo := add_output (txid genesis_tx1) 0 out1
               (add_output (txid genesis_tx0) 0 out0 ∅) |}.

Definition single_tx_block (height : Z) (prev : string) (tx : Transaction)
    (nonce : Z) : Block :=
  {| header := {| models.height := height; prev_hash := prev;
                  merkle_root := txid tx; models.nonce := nonce |};
     txs := [tx] |}.

(** A transaction without inputs that creates 50 more of [asset-0]. *)
Definition mint_output : TxOutput :=
  {| asset_id := "asset-0"; pubkey_hash := pkh1; portion := 50 |}.
Definition mint : Transaction :=
  {| inputs := []; outputs := [mint_output];
     txid := "b9e8f6cbeb6a18a5b56187f403ad5e91cda9e85e2982ad46314b1783a0d4993d" |}.

Definition mint_block : Block := single_tx_block 1 genesis_hash mint 1607024.
Definition mint_block_hash : string :=
  "0000081eb2af47e36e1d0e64b277a4c0606b15290f8b85225a031e9cb2449500".

(** The ledger after [mint_block] was received on [chain1]. *)
Definition chain_minted : Blockchain :=
  {| blocks_by_hash := [(genesis_hash, genesis); (mint_block_hash, mint_block)];
     height_tip_hash := mint_block_hash;
     utxo := add_output (txid mint) 0 mint_output (utxo chain1) |}.

(** [w0] splits its 100 of [asset-0] into 60 for [w1] and 40 for itself. *)
Definition split_outputs : list TxOutput :=
  [ {| asset_id := "asset-0"; pubkey_hash := pkh1; portion := 60 |};
    {| asset_id := "asset-0"; pubkey_hash := pkh0; portion := 40 |} ].

Definition split_input (sig : string) : TxInput :=
  {| txid_ref := txid genesis_tx0; index := 0;
     pubkey := wallet.pubkey_hex w0; signature := sig |}.

(** The signature under [keyed_hash_check]: SHA-256 of the key of [w0]
    followed by the bytes of the message hash. *)
Definition split_signature : string :=
  "11ac749299176ce4f55ebae62b8f7c8cfa4d7c615ed6bccdbcd9a7891bd7773e".

Definition split : Transaction :=
  {| inputs := [split_input split_signature]; outputs := split_outputs;
     txid := "378f90d5fc3b67907ea79ea2bb225f352c474597f484532b9957e40440cd0d49" |}.

Definition split_block : Block := single_tx_block 1 genesis_hash split 709721.
Definition split_block_hash : string :=
  "00000f07e1ee580c29ee405d9e112c15e302c31cf55f8a83cd08afe5b983b118".

(** The ledger after [split_block] was received on [chain1]. *)
Definition chain_split : Blockchain :=
  {| blocks_by_hash := [(genesis_hash, genesis); (split_block_hash, split_block)];
     height_tip_hash := split_block_hash;
     utxo := add_output (txid split) 1
               {| asset_id := "asset-0"; pubkey_hash := pkh0; portion := 40 |}
               (add_output (txid split) 0
                  {| asset_id := "asset-0"; pubkey_hash := pkh1; portion := 60 |}
                  (remove_output (txid genesis_tx0) 0 (utxo chain1))) |}.

(** A block without transactions on top of nothing. *)
Definition empty_block : Block :=
  {| header :=
       {| height := 0; prev_hash := utils.zero_hash;
          merkle_root :=
            "e3b0c44298fc1c149afbf4c8996fb92427ae41e4649b934ca495991b7852b855";
          nonce := 102855 |};
     txs := [] |}.
Definition empty_block_hash : string :=
  "00000e5d529a29bd7cafe6920a9e3110453babdd06236338e1d4906f3a93c97e".

(** The ledger after [empty_block] was received on the empty chain. *)
Definition chain_of_empty_block : Blockchain :=
  {| blocks_by_hash := [(empty_block_hash, empty_block)];
     height_tip_hash := empty_block_hash;
     utxo := ∅ |}.

(** A transaction without inputs that creates an asset of its own; the
    block of it on top of [genesis] passes at nonce 2. *)
Definition issue_output : TxOutput :=
  {| asset_id := "asset-2"; pubkey_hash := pkh1; portion := 303374 |}.
Definition issue : Transaction :=
  {| inputs := []; outputs := [issue_output];
     txid := "c5456c8120376faae8f62de14dcc7dcb14e28510e8978f90ac5476d3709ff189" |}.

Definition issue_block : Block := single_tx_block 1 genesis_hash issue 2.
Definition issue_block_hash : string :=
  "000002707b8e48143d2b98b748cbb79344e546ceea2dd216e17b36bdf658dc3f".

(** The ledger after [mine_block([issue])] on [chain1]. *)
Definition chain_issued : Blockchain :=
  {| blocks_by_hash := [(genesis_hash, genesis); (issue_block_hash, issue_block)];
     height_tip_hash := issue_block_hash;
     utxo := add_output (txid issue) 0 issue_output (utxo chain1) |}.

Definition node0 : FullNode :=
  {| node_id := "F0"; blockchain := 0%nat; mempool := [];
     peers := []; last_mined_block := None |}.

(** One node on one ledger. *)
Definition world_of (bc : Blockchain) : World :=
  {| ledgers := [bc]; nodes := [node0] |}.

(** A node that holds [split] and [mint] in its mempool. *)
Definition busy_node : FullNode :=
  {| node_id := "F0"; blockchain := 0%nat;
     mempool := [(txid split, split); (txid mint, mint)];
     peers := []; last_mined_block := None |}.

Definition busy_world (bc : Blockchain) : World :=
  {| ledgers := [bc]; nodes := [busy_node] |}.

Definition mesh_node0 : FullNode :=
  {| node_id := "F0"; blockchain := 0%nat; mempool := [];
     peers := [1%nat; 2%nat]; last_mined_block := None |}.

(** Three nodes, each a peer of the other two, on one shared ledger. *)
Definition mesh_of (bc : Blockchain) : World :=
  {| ledgers := [bc];
     nodes :=
       [ mesh_node0;
         {| node_id := "F1"; blockchain := 0%nat; mempool := [];
            peers := [0%nat; 2%nat]; last_mined_block := None |};
         {| node_id := "F2"; blockchain := 0%nat; mempool := [];
            peers := [0%nat; 1%nat]; last_mined_block := None |} ] |}.

(** A mesh of three nodes on one ledger in which [issue] waits in the
    mempools of the first two. *)
Definition miner : FullNode :=
  {| node_id := "F0"; blockchain := 0%nat;
     mempool := [(txid issue, issue)];
     peers := [1%nat; 2%nat]; last_mined_block := None |}.

Definition mining_mesh (bc : Blockchain) : World :=
  {| ledgers := [bc];
     nodes :=
       [ miner;
         {| node_id := "F1"; blockchain := 0%nat;
            mempool := [(txid issue, issue)];
            peers := [0%nat; 2%nat]; last_mined_block := None |};
         {| node_id := "F2"; blockchain := 0%nat; mempool := [];
            peers := [0%nat; 1%nat]; last_mined_block := None |} ] |}.

(** The signing that goes with [keyed_hash_check], and a generator
    that draws [0] every time. *)
Definition keyed_sign (w : wallet.Wallet) (msg : bytes) (entropy : nat)
    : bytes :=
  sha256_bytes (wallet.pubkey_bytes w ++ msg)%list.

Definition steady (n : nat) : rng := {| supply := fun _ => 0%nat; used := n |}.




End scenario.

(** ** Properties of ledger states, in the words of the specification *)

Module props.
Import py crypto models.
Export scenario.

(** The portion an output contributes to asset [a]. *)
Definition asset_portion (a : string) (o : TxOutput) : Z :=
  if String.eqb (asset_id o) a then portion o else 0.

(** Sum of the portions of all unspent outputs of asset [a]. *)
Definition asset_sum (a : string) (u : UTXOSet) : Z :=
  map_fold (fun _ o acc => asset_portion a o + acc) 0 u.

Definition outpoint (inp : TxInput) : string * Z := (txid_ref inp, index inp).

(** Every outpoint spent by a list of transactions, in order. *)
Definition spent (ts : list Transaction) : list (string * Z) :=
  flat_map (fun tx => map outpoint (inputs tx)) ts.

(** The txids that occur in the keys of a UTXO set. *)
Definition utxo_txids (u : UTXOSet) : list string :=
  map (fun kv => fst (fst kv)) (map_to_list u).

(** What the code never checks about the transactions of a block: each
    one spends something, no outpoint is spent twice, and the new
    outpoints do not collide with each other or with unspent ones. *)
Definition spends_cleanly (u : UTXOSet) (ts : list Transaction) : Prop :=
  Forall (fun tx => inputs tx <> []) ts
  /\ NoDup (spent ts)
  /\ NoDup (map txid ts)
  /\ Forall (fun tx => txid tx ∉ utxo_txids u) ts.


(** One block offered to a ledger through [mine_block] or
    [receive_block]: [bc] is the ledger before the call, [bc'] after. *)
Inductive ledger_step `{wallet.Ecdsa} (bc : Blockchain) (blk : Block)
    (bc' : Blockchain) : Prop :=
| step_mine (fuel : nat) (pending : list Transaction) :
    mine_block fuel pending bc = (Ok blk, bc') ->
    ledger_step bc blk bc'
| step_receive (w w' : World) (self : nat) (nd : FullNode) :
    receive_block self blk w = (Ok tt, w') ->
    nodes w !! self = Some nd ->
    ledgers w !! blockchain nd = Some bc ->
    ledgers w' !! blockchain nd = Some bc' ->
    ledger_step bc blk bc'.

(** Every reference held by a node names an object. *)
Definition well_formed (w : World) : bool :=
  forallb
    (fun nd =>
       (blockchain nd <? length (ledgers w))%nat
       && forallb (fun p => (p <? length (nodes w))%nat) (peers nd))
    (nodes w).

Definition in_mempool (t : string) (nd : FullNode) : bool :=
  dict_mem t (mempool nd).

(** A transaction with at least one output of asset [a]. *)
Definition has_asset (a : string) (tx : Transaction) : bool :=
  existsb (fun o => String.eqb (asset_id o) a) (outputs tx).

(** The entries the specification asks of one block: one per
    transaction that has the asset, in block order. *)
Definition trace_entries (a : string) (kv : string * Block)
    : list (Z * string * Transaction) :=
  map (fun tx => (height (header (snd kv)), fst kv, tx))
    (filter (fun tx => has_asset a tx = true) (txs (snd kv))).

Definition entry_height (e : Z * string * Transaction) : Z := fst (fst e).

(** Descending order of a key: [x] may stand before [y]. *)
Definition newer_first {A} (key : A -> Z) (x y : A) : Prop := key y <= key x.

(** The output that the transactions [ts], written in order, leave at
    key [(t, i)]: the one of the last transaction with that txid that
    has an output number [i]. *)
Fixpoint last_output (ts : list Transaction) (t : string) (i : Z)
    : option TxOutput :=
  match ts with
  | [] => None
  | tx :: rest =>
      match last_output rest t i with
      | Some o => Some o
      | None =>
          if String.eqb (txid tx) t && (0 <=? i)
          then outputs tx !! Z.to_nat i
          else None
      end
  end.



(** No transaction of [pending] validates on [bc]: each call returns
    [(False, reason)]. *)
Definition none_validates `{wallet.Ecdsa} (pending : list Transaction)
    (bc : Blockchain) : Prop :=
  Forall
    (fun tx => exists reason,
       fst (validate_transaction tx bc) = Ok (false, reason))
    pending.

(** The effect of the two loops of [apply_transaction] on the UTXO
    dictionary. *)
Definition put_outputs (t : string) (outs : list (Z * TxOutput))
    (u : UTXOSet) : UTXOSet :=
  fold_left (fun acc io => add_output t (fst io) (snd io) acc) outs u.

Definition drop_inputs (ins : list TxInput) (u : UTXOSet) : UTXOSet :=
  fold_left (fun acc inp => remove_output (txid_ref inp) (index inp) acc)
    ins u.

Definition apply_utxo (tx : Transaction) (u : UTXOSet) : UTXOSet :=
  put_outputs (txid tx) (enumerate (outputs tx)) (drop_inputs (inputs tx) u).

Definition apply_all (ts : list Transaction) (u : UTXOSet) : UTXOSet :=
  fold_left (fun acc tx => apply_utxo tx acc) ts u.

(** [validate_transaction(tx)] returns [(True, reason)] on [bc]. *)
Definition validates `{wallet.Ecdsa} (bc : Blockchain) (tx : Transaction)
    : Prop :=
  exists reason, fst (validate_transaction tx bc) = Ok (true, reason).

(** The ledger [bc'] is [bc] after block [blk] was accepted: the proof of
    work passed, every transaction validated on [bc], and the block was
    stored, made the tip and applied. *)
Definition accepted `{wallet.Ecdsa} (bc : Blockchain) (blk : Block)
    (bc' : Blockchain) : Prop :=
  below_target (hash (header blk)) = Some true
  /\ Forall (validates bc) (txs blk)
  /\ bc' = with_utxo (apply_all (txs blk))
             (with_tip (hash (header blk))
                (with_blocks (dict_set (hash (header blk)) blk) bc)).

(** The hash a chain walk that started at [cur] and collected [chain]
    would look at next. *)
Fixpoint next_hash (cur : string) (chain : list (string * Block)) : string :=
  match chain with
  | [] => cur
  | (_, b) :: rest => next_hash (prev_hash (header b)) rest
  end.

(** [chain] follows the prev-hash links from [cur], tip first: each entry
    is the stored block of the hash the walk had reached, and the walk
    only went on from a block that is not a genesis block. *)
Fixpoint linked (blocks : pydict Block) (cur : string)
    (chain : list (string * Block)) : Prop :=
  match chain with
  | [] => True
  | (h, b) :: rest =>
      h = cur /\ h <> "" /\ dict_get h blocks = Some b
      /\ (rest <> [] -> prev_hash (header b) <> utils.zero_hash)
      /\ linked blocks (prev_hash (header b)) rest
  end.

(** Why the walk from [tip] ended after [chain]: the last block is a
    genesis block, or the next hash is the empty string (no hash), was
    already visited (a cycle), or names no stored block. *)
Definition walk_stops (blocks : pydict Block) (tip : string)
    (chain : list (string * Block)) : Prop :=
  (chain <> [] /\ next_hash tip chain = utils.zero_hash)
  \/ next_hash tip chain = ""
  \/ In (next_hash tip chain) (map fst chain)
  \/ dict_get (next_hash tip chain) blocks = None.

(** The number of nodes whose mempool has no entry for txid [t]. *)
Fixpoint lacking (t : string) (nds : list FullNode) : nat :=
  match nds with
  | [] => 0%nat
  | nd :: rest => ((if in_mempool t nd then 0 else 1) + lacking t rest)%nat
  end.

(** A node after a flood of the transaction with txid [t]: nothing but
    the mempool moved, and an entry under [t] stayed what it was. *)
Definition node_grows (t : string) (nd nd' : FullNode) : Prop :=
  node_id nd' = node_id nd
  /\ blockchain nd' = blockchain nd
  /\ peers nd' = peers nd
  /\ forall v, dict_get t (mempool nd) = Some v ->
               dict_get t (mempool nd') = Some v.

(** Node number [p] of [w] has an entry for txid [t] in its mempool. *)
Definition holds (t : string) (w : World) (p : nat) : Prop :=
  exists nd, nodes w !! p = Some nd /\ in_mempool t nd = true.

Definition grows (t : string) (w w' : World) : Prop :=
  ledgers w' = ledgers w /\ Forall2 (node_grows t) (nodes w) (nodes w').

(** What the inputs [ins] take away from asset [a] on the UTXO set [u],
    and what the outputs [outs] add to it. *)
Fixpoint spent_portion (a : string) (u : UTXOSet) (ins : list TxInput) : Z :=
  match ins with
  | [] => 0
  | inp :: rest =>
      match u !! outpoint inp with
      | Some o => asset_portion a o
      | None => 0
      end + spent_portion a u rest
  end.

Fixpoint created_portion (a : string) (outs : list TxOutput) : Z :=
  match outs with
  | [] => 0
  | o :: rest => asset_portion a o + created_portion a rest
  end.

(** What validation establishes about a transaction with inputs, in
    terms of the UTXO set alone. *)
Definition balanced (u : UTXOSet) (tx : Transaction) : Prop :=
  Forall (fun inp => is_Some (u !! outpoint inp)) (inputs tx)
  /\ forall a, spent_portion a u (inputs tx) = created_portion a (outputs tx).

(** The transactions [ts] can be applied one after the other on [u]
    without losing or creating portions. *)
Definition clean_on (u : UTXOSet) (ts : list Transaction) : Prop :=
  Forall (balanced u) ts
  /\ NoDup (spent ts)
  /\ NoDup (map txid ts)
  /\ Forall (fun tx => forall i, u !! (txid tx, i) = None) ts.

(** The header [mine_block] tries at a nonce. *)
Definition candidate (height : Z) (prev root : string) (nonce : Z)
    : BlockHeader :=
  {| models.height := height; prev_hash := prev;
     models.merkle_root := root; models.nonce := nonce |}.

(** The height and previous hash [mine_block] gives its block. *)
Definition next_position (bc : Blockchain) : Z * string :=
  match tip bc with
  | Some t => (height (header t) + 1, hash (header t))
  | None => (0, utils.zero_hash)
  end.

End props.

(** ** Further properties, stated on the same definitions *)

Module laws.
Import py crypto models.
Export props.

(** The sums [validate_transaction] compares: the portions of the
    referenced outputs, one term per input, and the portions of the
    outputs. *)
Fixpoint input_total (u : UTXOSet) (ins : list TxInput) : Z :=
  match ins with
  | [] => 0
  | inp :: rest =>
      match u !! outpoint inp with
      | Some o => portion o
      | None => 0
      end + input_total u rest
  end.

Fixpoint output_total (outs : list TxOutput) : Z :=
  match outs with
  | [] => 0
  | o :: rest => portion o + output_total rest
  end.

(** One input passes the input loop for asset [a]: its outpoint is
    unspent, of asset [a], and the hash of the claimed key is the owner
    hash of the output. *)
Definition input_bound (u : UTXOSet) (a : string) (inp : TxInput) : Prop :=
  exists o pk,
    u !! outpoint inp = Some o
    /\ asset_id o = a
    /\ fromhex (pubkey inp) = Some pk
    /\ sha256_hex pk = pubkey_hash o.

(** A transaction with inputs that passes every test. *)
Definition spendable `{wallet.Ecdsa} (bc : Blockchain) (tx : Transaction)
    : Prop :=
  inputs tx <> []
  /\ exists a,
       Forall (input_bound (utxo bc) a) (inputs tx)
       /\ Forall (fun o => asset_id o = a) (outputs tx)
       /\ input_total (utxo bc) (inputs tx) = output_total (outputs tx)
       /\ Forall
            (fun inp =>
               wallet.verify (pubkey inp) (message_hash tx) (signature inp)
               = true)
            (inputs tx).

(** The verdict of [validate_transaction] as a boolean; an exception
    counts as no. *)
Definition valid_now `{wallet.Ecdsa} (bc : Blockchain) (tx : Transaction)
    : bool :=
  match fst (validate_transaction tx bc) with
  | Ok (true, _) => true
  | _ => false
  end.

(** The mempool after the pops of [receive_block] and [mine]. *)
Definition pop_all (ts : list Transaction) (mp : pydict Transaction)
    : pydict Transaction :=
  fold_left (fun m tx => dict_pop (txid tx) m) ts mp.

(** The test [receive_block] makes on the previous hash. *)
Definition extends_tip (bc : Blockchain) (blk : Block) : Prop :=
  height_tip_hash bc = "" \/ prev_hash (header blk) = height_tip_hash bc.

(** The world after node [self], on ledger [r], took block [blk] in. *)
Definition world_with_block (w : World) (self : nat) (nd : FullNode)
    (bc : Blockchain) (blk : Block) : World :=
  {| ledgers :=
       <[blockchain nd :=
           with_utxo (apply_all (txs blk))
             (with_tip (hash (header blk))
                (with_blocks (dict_set (hash (header blk)) blk) bc))]>
         (ledgers w);
     nodes := <[self := with_mempool (pop_all (txs blk)) nd]> (nodes w) |}.

(** What a flood of [tx] may do to a node: nothing, or put [tx] under
    its txid into a mempool that had no entry there. *)
Definition node_took (tx : Transaction) (nd nd' : FullNode) : Prop :=
  nd' = nd
  \/ (in_mempool (txid tx) nd = false
      /\ nd' = with_mempool (dict_set (txid tx) tx) nd).

Definition flooded (tx : Transaction) (w w' : World) : Prop :=
  ledgers w' = ledgers w /\ Forall2 (node_took tx) (nodes w) (nodes w').

(** The two ways a flood ends: a return, or the [ValueError] of
    [bytes.fromhex] on the key of an input. *)
Definition flood_outcome (r : result unit) : Prop :=
  r = Ok tt \/ r = Raise utils.fromhex_error.

Definition valid_everywhere `{wallet.Ecdsa} (w : World) (tx : Transaction)
    : Prop :=
  Forall (fun bc => validates bc tx) (ledgers w).

(** The transaction [create_genesis] makes for asset number [i] and its
    first owner [w]. *)
Definition endowment (i : Z) (w : wallet.Wallet) : Transaction :=
  new_Transaction []
    [ {| asset_id := "asset-" ++ str_int i;
         models.pubkey_hash := wallet.pubkey_hash w;
         portion := 100 |} ].

(** An input as [message_hash] reads it. *)
Definition unsigned (i : TxInput) : TxInput :=
  {| txid_ref := txid_ref i; index := index i; pubkey := pubkey i;
     signature := "" |}.

(** Some transaction of some stored block has txid [t] and an output at
    position [i]. *)
Definition in_chain (bc : Blockchain) (t : string) (i : Z)
    (tx : Transaction) : Prop :=
  (exists blk, In blk (dict_values (blocks_by_hash bc)) /\ In tx (txs blk))
  /\ txid tx = t
  /\ 0 <= i < Z.of_nat (length (outputs tx)).

(** Peer [p] of [nd] is a node on the ledger object of [nd]. *)
Definition shares_ledger (w : World) (nd : FullNode) (p : nat) : Prop :=
  exists ndp, nodes w !! p = Some ndp /\ blockchain ndp = blockchain nd.

(** The world after node [self] mined [blk] and its ledger became
    [bc']: the node remembers the block and has popped its txids. *)
Definition world_after_mine (w : World) (self : nat) (nd : FullNode)
    (bc' : Blockchain) (blk : Block) : World :=
  {| ledgers := <[blockchain nd := bc']> (ledgers w);
     nodes :=
       <[self := {| node_id := node_id nd; blockchain := blockchain nd;
                    mempool := pop_all (txs blk) (mempool nd);
                    peers := peers nd;
                    last_mined_block := Some blk |}]> (nodes w) |}.

(** [n] nodes on ledger [r], node [k] with the peer list [ps k]. *)
Definition mesh_nodes (n r : nat) (ps : nat -> list nat) : list FullNode :=
  map (fun k => with_peers (fun _ => ps k) (cli.new_node k r)) (seq 0 n).

(** Every node but [k], in ascending order. *)
Definition others (n k : nat) : list nat :=
  (seq 0 k ++ seq (S k) (n - S k))%list.

(** The peer lists while [initiate_fullnodes] is at the pair [(i, j)]:
    the nodes below [i] are done, node [i] has reached [j], the nodes
    from [i + 1] below [j] know [0 .. i], the others [0 .. i - 1]. *)
Definition peers_at (n i j k : nat) : list nat :=
  if (k <? i)%nat then others n k
  else if (k =? i)%nat then (seq 0 i ++ seq (S i) (j - S i))%list
  else if (k <? j)%nat then seq 0 (S i)
  else seq 0 i.

(** The block [_block_from_dict] makes of the document of [blk]. *)
Definition reloaded (blk : Block) : Block :=
  {| header := header blk;
     txs := map (fun tx => new_Transaction (inputs tx) (outputs tx))
              (txs blk) |}.


(** Every unspent output of [bc] can be split into three and belongs
    to one of [ws]. *)
Definition splittable (bc : Blockchain) (ws : list wallet.Wallet) : Prop :=
  forall k u,
    utxo bc !! k = Some u ->
    3 <= portion u
    /\ exists w, In w ws /\ wallet.pubkey_hash w = pubkey_hash u.

(** The sum the master's report compares with the outputs: the
    portions of the outputs the inputs name, as the chain has them. *)
Fixpoint chain_total (bc : Blockchain) (ins : list TxInput) : Z :=
  match ins with
  | [] => 0
  | inp :: rest =>
      match find_output_in_chain bc (txid_ref inp) (index inp) with
      | Some o => portion o
      | None => 0
      end + chain_total bc rest
  end.

(** One input passes the input loop of the report for asset [a]: the
    chain has the output it names, of asset [a], and its signature
    verifies. *)
Definition shown_input `{wallet.Ecdsa} (bc : Blockchain) (tx : Transaction)
    (a : string) (inp : TxInput) : Prop :=
  (exists o, find_output_in_chain bc (txid_ref inp) (index inp) = Some o
             /\ asset_id o = a)
  /\ wallet.verify (pubkey inp) (message_hash tx) (signature inp) = true.

Definition passes_report `{wallet.Ecdsa} (bc : Blockchain) (tx : Transaction)
    : Prop :=
  (inputs tx = [] /\ outputs tx = [])
  \/ (inputs tx <> []
      /\ exists a,
           Forall (shown_input bc tx a) (inputs tx)
           /\ Forall (fun o => asset_id o = a) (outputs tx)
           /\ chain_total bc (inputs tx) = output_total (outputs tx)).

(** What one call of [receive_transaction] with budget [f] does. *)
Definition flood_result `{wallet.Ecdsa} (tx : Transaction) (f self : nat)
    (w : World) : Prop :=
  exists r w',
    receive_transaction f self tx w = (r, w')
    /\ flood_outcome r
    /\ flooded tx w w'
    /\ (valid_everywhere w tx -> r = Ok tt /\ holds (txid tx) w' self).

End laws.

Import py crypto models props laws.

(** * Part II: proofs *)

(** ** The state monad *)

Lemma bind_ok {S A B} (m : M S A) (k : A -> M S B) s a s' :
  m s = (Ok a, s') -> bind m k s = k a s'.
Proof. intros E. unfold bind. now rewrite E. Qed.

Lemma bind_not_ok {S A B} (m : M S A) (k : A -> M S B) s r s' :
  m s = (r, s') -> (forall a, r <> Ok a) ->
  exists r', bind m k s = (r', s') /\ forall b, r' <> Ok b.
Proof.
  intros E Hr. unfold bind. rewrite E.
  destruct r; [now destruct (Hr a) | eexists; split; [reflexivity|discriminate] ..].
Qed.

(** ** The concrete run is what the code computes *)

(** Equalities between closed terms are settled by running the decision
    procedure of the equality. *)
Ltac by_computing := apply (bool_decide_eq_true_1 _); vm_compute; reflexivity.

Example wallets_hashed :
  wallet.pubkey_hash w0 = pkh0 /\ wallet.pubkey_hash w1 = pkh1.
Proof. split; vm_compute; reflexivity. Qed.


Example genesis_hashed : hash (header genesis) = genesis_hash.
Proof. vm_compute. reflexivity. Qed.

Example genesis_stored :
  add_genesis_block genesis empty_chain = (Ok tt, chain1).
Proof. by_computing. Qed.

Example mint_built : new_Transaction [] [mint_output] = mint.
Proof. vm_compute. reflexivity. Qed.

Example mint_block_hashed : hash (header mint_block) = mint_block_hash.
Proof. vm_compute. reflexivity. Qed.

(** The signature of [split] is the keyed hash of its signing form, and
    its txid the hash of its identity form. *)
Example split_built :
  hex (sha256_bytes
         (wallet.pubkey_bytes w0
          ++ default []
               (fromhex
                  (message_hash
                     (new_Transaction [split_input ""] split_outputs))))%list)
  = split_signature
  /\ new_Transaction [split_input split_signature] split_outputs = split.
Proof. split; vm_compute; reflexivity. Qed.

Example empty_block_built :
  utils.merkle_root (map txid (txs empty_block))
  = Ok (merkle_root (header empty_block)).
Proof. vm_compute. reflexivity. Qed.

(** What the single node of [world_of] does with the three blocks. *)
Example empty_block_received :
  receive_block (H := reject_all) 0 empty_block (world_of empty_chain)
  = (Ok tt, world_of chain_of_empty_block).
Proof. by_computing. Qed.

Example mint_received :
  receive_block (H := reject_all) 0 mint_block (world_of chain1)
  = (Ok tt, world_of chain_minted).
Proof. by_computing. Qed.

Example split_received :
  receive_block (H := keyed_hash_check) 0 split_block (world_of chain1)
  = (Ok tt, world_of chain_split).
Proof. by_computing. Qed.

Lemma world_step `{wallet.Ecdsa} (bc : Blockchain) (blk : Block)
    (bc' : Blockchain) :
  receive_block 0 blk (world_of bc) = (Ok tt, world_of bc') ->
  ledger_step bc blk bc'.
Proof.
  intros Hrun.
  exact (step_receive bc blk bc' (world_of bc) (world_of bc') 0 node0 Hrun
           eq_refl eq_refl eq_refl).
Qed.

(** ** Merkle root of one txid *)

Lemma merkle_loop_single fuel b : utils.merkle_loop fuel [b] = Ok [b].
Proof. destruct fuel; reflexivity. Qed.

(** C2 (as the code has it): for a single txid that decodes, no hash is
    taken; the root is the hexadecimal spelling of the decoded bytes. *)
Theorem merkle_root_single (t : string) (bs : bytes) :
  fromhex t = Some bs -> utils.merkle_root [t] = Ok (hex bs).
Proof.
  intros Ht. unfold utils.merkle_root, utils.fromhex_all. rewrite Ht.
  cbn [length]. now rewrite merkle_loop_single.
Qed.

Lemma merkle_root_single_witness :
  fromhex (txid mint) = Some (default [] (fromhex (txid mint)))
  /\ utils.merkle_root [txid mint]
     = Ok (hex (default [] (fromhex (txid mint)))).
Proof.
  assert (E : fromhex (txid mint) = Some (default [] (fromhex (txid mint))))
    by (vm_compute; reflexivity).
  split; [exact E | exact (merkle_root_single _ _ E)].
Defined.

(** C2 (as stated) fails: the root of the one-element list holding the
    txid of the first genesis transaction is that txid, not the SHA-256
    of its bytes doubled. *)
Lemma merkle_root_single_is_not_a_hash :
  fromhex (txid genesis_tx0) = Some (default [] (fromhex (txid genesis_tx0)))
  /\ utils.merkle_root [txid genesis_tx0] = Ok (txid genesis_tx0)
  /\ utils.merkle_root [txid genesis_tx0]
     <> Ok (sha256_hex (default [] (fromhex (txid genesis_tx0))
                        ++ default [] (fromhex (txid genesis_tx0)))%list).
Proof.
  split; [vm_compute; reflexivity|].
  split; [vm_compute; reflexivity|].
  vm_compute. discriminate.
Qed.

(** ** Validation reads the ledger and writes nothing *)

Section Purity.
Context `{wallet.Ecdsa}.

Lemma check_inputs_state ins asset total bc :
  snd (check_inputs ins asset total bc) = bc.
Proof.
  revert asset total.
  induction ins as [|inp rest IH]; intros asset total; cbn [check_inputs].
  - reflexivity.
  - unfold bind, utxo_get.
    destruct (get_output (txid_ref inp) (index inp) (utxo bc)) as [u|];
      [|reflexivity].
    destruct (negb _); [reflexivity|].
    destruct (fromhex (pubkey inp)) as [pk|]; [|reflexivity].
    destruct (String.eqb _ _); [apply IH | reflexivity].
Qed.

Lemma validate_transaction_state tx bc :
  snd (validate_transaction tx bc) = bc.
Proof.
  unfold validate_transaction.
  destruct (inputs tx) as [|inp rest] eqn:Ei; [reflexivity|].
  unfold bind.
  pose proof (check_inputs_state (inp :: rest) None 0 bc) as Hs.
  destruct (check_inputs (inp :: rest) None 0 bc) as [[r| | |] bc1];
    cbn [snd] in Hs; subst bc1; try reflexivity.
  destruct r as [verdict|[asset total_in]]; [reflexivity|].
  destruct (check_outputs (outputs tx) asset 0); [reflexivity|].
  destruct (negb _); reflexivity.
Qed.

Lemma validate_transaction_run tx bc :
  validate_transaction tx bc = (fst (validate_transaction tx bc), bc).
Proof.
  rewrite <- (validate_transaction_state tx bc) at 3.
  now destruct (validate_transaction tx bc).
Qed.

Lemma select_valid_state pending selected bc :
  snd (select_valid pending selected bc) = bc.
Proof.
  revert selected.
  induction pending as [|tx rest IH]; intros selected; cbn [select_valid].
  - reflexivity.
  - unfold bind. rewrite (validate_transaction_run tx bc).
    destruct (fst (validate_transaction tx bc)) as [verdict| | |];
      try reflexivity.
    destruct (MAX_TX_PER_BLOCK <=? _); [reflexivity | apply IH].
Qed.

Lemma validate_all_state ts bc : snd (validate_all ts bc) = bc.
Proof.
  induction ts as [|tx rest IH]; cbn [validate_all].
  - reflexivity.
  - unfold bind. rewrite (validate_transaction_run tx bc).
    destruct (fst (validate_transaction tx bc)) as [verdict| | |];
      try reflexivity.
    destruct (negb _); [reflexivity | apply IH].
Qed.

(** C9: [validate_transaction] leaves the chain map, the tip and the UTXO
    set as they were, and a second call on the state the first one left
    gives the same outcome, the same [(ok, reason)] pair when it returns
    one. *)
Theorem validate_transaction_pure (tx : Transaction) (bc : Blockchain) :
  let first := validate_transaction tx bc in
  let second := validate_transaction tx (snd first) in
  blocks_by_hash (snd first) = blocks_by_hash bc
  /\ height_tip_hash (snd first) = height_tip_hash bc
  /\ utxo (snd first) = utxo bc
  /\ fst second = fst first
  /\ snd second = bc.
Proof.
  cbn zeta. rewrite !validate_transaction_state. repeat split; reflexivity.
Qed.

End Purity.

(** ** Mining with nothing to mine *)

Section Mining.
Context `{wallet.Ecdsa}.

Lemma select_valid_none pending bc :
  none_validates pending bc -> select_valid pending [] bc = (Ok [], bc).
Proof.
  induction 1 as [|tx rest [reason Hv] _ IH]; cbn [select_valid].
  - reflexivity.
  - unfold bind. rewrite (validate_transaction_run tx bc), Hv.
    cbn [fst]. exact IH.
Qed.



End Mining.


(** ** Dictionaries *)

Lemma eqb_false_ne (a b : string) : String.eqb a b = false <-> a <> b.
Proof. apply String.eqb_neq. Qed.

Lemma dict_get_set_eq {V} (k : string) (v : V) (d : pydict V) :
  dict_get k (dict_set k v d) = Some v.
Proof.
  induction d as [|[k' v'] rest IH]; cbn.
  - now rewrite String.eqb_refl.
  - destruct (String.eqb k k') eqn:E; cbn; rewrite E; [reflexivity | exact IH].
Qed.


(** ** The UTXO loops *)

Lemma add_outputs_from t outs k bc :
  for_each (enumerate_from k outs) (fun io => utxo_add t (fst io) (snd io)) bc
  = (Ok tt, with_utxo (put_outputs t (enumerate_from k outs)) bc).
Proof.
  revert k bc. induction outs as [|o rest IH]; intros k bc; cbn.
  - now destruct bc.
  - unfold bind, utxo_add at 1, modify. rewrite IH. reflexivity.
Qed.

Lemma add_outputs_run tx bc :
  add_outputs tx bc = (Ok tt, with_utxo (put_outputs (txid tx) (enumerate (outputs tx))) bc).
Proof. apply add_outputs_from. Qed.

Lemma put_outputs_cons (t : string) (io : Z * TxOutput)
    (outs : list (Z * TxOutput)) (u : UTXOSet) :
  put_outputs t (io :: outs) u
  = put_outputs t outs (add_output t (fst io) (snd io) u).
Proof. reflexivity. Qed.

Lemma lookup_put_outputs (t : string) (outs : list TxOutput) (k : Z)
    (u : UTXOSet) (t' : string) (i : Z) :
  put_outputs t (enumerate_from k outs) u !! (t', i)
  = if decide (t' = t /\ k <= i < k + Z.of_nat (length outs))
    then outs !! Z.to_nat (i - k)
    else u !! (t', i).
Proof.
  revert k u. induction outs as [|o rest IH]; intros k u.
  - cbn. destruct (decide _) as [[_ Hr]|]; [lia | reflexivity].
  - cbn [enumerate_from]. rewrite put_outputs_cons, IH. unfold add_output. cbn [fst snd length].
    destruct (decide (t' = t /\ k + 1 <= i < k + 1 + Z.of_nat (length rest)))
      as [[-> Hr]|Hn].
    + rewrite decide_True by (split; [reflexivity | lia]).
      replace (Z.to_nat (i - k)) with (S (Z.to_nat (i - (k + 1)))) by lia.
      reflexivity.
    + destruct (decide ((t', i) = (t, k))) as [E|Hne].
      * injection E as -> ->. rewrite lookup_insert_eq.
        rewrite decide_True by (split; [reflexivity | lia]).
        now rewrite Z.sub_diag.
      * rewrite lookup_insert_ne by congruence.
        destruct (decide (t' = t /\ k <= i < k + Z.of_nat (S (length rest))))
          as [[-> Hr]|]; [|reflexivity].
        exfalso. destruct (Z.eq_dec i k) as [->|]; [now apply Hne|].
        apply Hn. split; [reflexivity | lia].
Qed.

Lemma genesis_outputs_run ts bc :
  for_each ts add_outputs bc
  = (Ok tt,
     with_utxo
       (fun u =>
          fold_left
            (fun acc tx => put_outputs (txid tx) (enumerate (outputs tx)) acc)
            ts u) bc).
Proof.
  revert bc. induction ts as [|tx rest IH]; intros bc; cbn.
  - now destruct bc.
  - unfold bind. rewrite add_outputs_run, IH. reflexivity.
Qed.

Lemma lookup_genesis_outputs (ts : list Transaction) (u : UTXOSet)
    (t : string) (i : Z) :
  fold_left
    (fun acc tx => put_outputs (txid tx) (enumerate (outputs tx)) acc) ts u
    !! (t, i)
  = match last_output ts t i with
    | Some o => Some o
    | None => u !! (t, i)
    end.
Proof.
  revert u. induction ts as [|tx rest IH]; intros u; cbn.
  - reflexivity.
  - rewrite IH. destruct (last_output rest t i); [reflexivity|].
    unfold enumerate. rewrite lookup_put_outputs.
    destruct (String.eqb (txid tx) t) eqn:E; cbn [andb].
    + apply String.eqb_eq in E. subst t.
      destruct (0 <=? i) eqn:Ei.
      * apply Z.leb_le in Ei.
        destruct (decide _) as [[_ Hr]|Hn].
        -- rewrite Z.sub_0_r.
           destruct (lookup_lt_is_Some_2 (outputs tx) (Z.to_nat i)) as [o Ho];
             [lia|]. now rewrite Ho.
        -- rewrite (proj2 (lookup_ge_None (outputs tx) (Z.to_nat i)));
             [reflexivity|].
           destruct (Z.lt_ge_cases i (Z.of_nat (length (outputs tx))));
             [exfalso; apply Hn; split; [reflexivity | lia] | lia].
      * apply Z.leb_gt in Ei. rewrite decide_False by lia. reflexivity.
    + apply String.eqb_neq in E.
      rewrite decide_False by (intros [-> _]; now apply E). reflexivity.
Qed.

(** C5 (as the code has it): [add_genesis_block] makes no test on the
    chain; on every ledger it returns normally, stores the block under its
    header hash, moves the tip there, and writes every output of every
    transaction at [(txid, position)], validating nothing. *)
Theorem add_genesis_block_unchecked (block : Block) (bc : Blockchain) :
  exists bc',
    add_genesis_block block bc = (Ok tt, bc')
    /\ dict_get (hash (header block)) (blocks_by_hash bc') = Some block
    /\ height_tip_hash bc' = hash (header block)
    /\ forall t i,
         utxo bc' !! (t, i)
         = match last_output (txs block) t i with
           | Some o => Some o
           | None => utxo bc !! (t, i)
           end.
Proof.
  eexists. split.
  - unfold add_genesis_block, bind, modify. rewrite genesis_outputs_run.
    reflexivity.
  - cbn. split; [apply dict_get_set_eq|]. split; [reflexivity|].
    intros t i. apply lookup_genesis_outputs.
Qed.

(** C5 (as stated) fails: on the ledger that already holds the genesis
    block, [add_genesis_block] raises nothing; it stores a second block
    and moves the tip to it. *)
Lemma add_genesis_block_on_nonempty_chain :
  blocks_by_hash chain1 = [(genesis_hash, genesis)]
  /\ add_genesis_block empty_block chain1
     = (Ok tt,
        {| blocks_by_hash :=
             [(genesis_hash, genesis); (empty_block_hash, empty_block)];
           height_tip_hash := empty_block_hash;
           utxo := utxo chain1 |}).
Proof. split; [reflexivity|]. by_computing. Qed.

(** ** Blocks that do not extend the tip *)

Lemma on_ledger_read {A} (r : nat) (m : M Blockchain A) (w : World)
    (bc : Blockchain) (res : result A) :
  ledgers w !! r = Some bc -> m bc = (res, bc) -> on_ledger r m w = (res, w).
Proof.
  intros Hbc Hm. unfold on_ledger. rewrite Hbc, Hm.
  rewrite list_insert_id by exact Hbc. now destruct w.
Qed.

Section Fork.
Context `{wallet.Ecdsa}.

(** C4 (as the code has it): on a ledger with a tip, a block whose
    [prev_hash] is not the tip hash is dropped; the call returns and the
    whole world, the node's mempool and its ledger included, is as
    before. *)
Theorem receive_block_rejects_fork (w : World) (self : nat) (nd : FullNode)
    (bc : Blockchain) (block : Block) :
  nodes w !! self = Some nd ->
  ledgers w !! blockchain nd = Some bc ->
  height_tip_hash bc <> "" ->
  prev_hash (header block) <> height_tip_hash bc ->
  receive_block self block w = (Ok tt, w).
Proof.
  intros Hnd Hbc Htip Hprev.
  unfold receive_block, bind, get_node. rewrite Hnd.
  rewrite (on_ledger_read _ get w bc (Ok bc) Hbc eq_refl).
  apply String.eqb_neq in Htip, Hprev. now rewrite Htip, Hprev.
Qed.

End Fork.

Lemma receive_block_rejects_fork_witness :
  nodes (world_of chain1) !! 0%nat = Some node0
  /\ ledgers (world_of chain1) !! blockchain node0 = Some chain1
  /\ height_tip_hash chain1 <> ""
  /\ prev_hash (header empty_block) <> height_tip_hash chain1
  /\ receive_block (H := reject_all) 0 empty_block (world_of chain1)
     = (Ok tt, world_of chain1).
Proof.
  assert (Ht : height_tip_hash chain1 <> "") by discriminate.
  assert (Hp : prev_hash (header empty_block) <> height_tip_hash chain1)
    by (vm_compute; discriminate).
  split; [reflexivity|]. split; [reflexivity|].
  split; [exact Ht|]. split; [exact Hp|].
  exact (receive_block_rejects_fork (H := reject_all) (world_of chain1) 0
           node0 chain1 empty_block eq_refl eq_refl Ht Hp).
Defined.

(** C4 (as stated) fails on the empty chain: the tip hash is the empty
    string, the test on [prev_hash] is skipped, and a block with a valid
    proof of work is stored and becomes the tip. *)
Lemma receive_block_on_empty_chain :
  height_tip_hash empty_chain = ""
  /\ prev_hash (header empty_block) <> height_tip_hash empty_chain
  /\ receive_block (H := reject_all) 0 empty_block (world_of empty_chain)
     = (Ok tt, world_of chain_of_empty_block).
Proof.
  split; [reflexivity|]. split; [vm_compute; discriminate|].
  exact empty_block_received.
Qed.

(** ** What a call of [mine_block] or [receive_block] does to a ledger *)

Section Steps.
Context `{wallet.Ecdsa}.

Lemma drop_inputs_run ins bc :
  for_each ins (fun inp => utxo_remove (txid_ref inp) (index inp)) bc
  = (Ok tt, with_utxo (drop_inputs ins) bc).
Proof.
  revert bc. induction ins as [|inp rest IH]; intros bc; cbn.
  - now destruct bc.
  - unfold bind, utxo_remove at 1, modify. rewrite IH. reflexivity.
Qed.

Lemma apply_transaction_run tx bc :
  apply_transaction tx bc = (Ok tt, with_utxo (apply_utxo tx) bc).
Proof.
  unfold apply_transaction, bind. rewrite drop_inputs_run, add_outputs_run.
  reflexivity.
Qed.

Lemma apply_all_run ts bc :
  for_each ts apply_transaction bc = (Ok tt, with_utxo (apply_all ts) bc).
Proof.
  revert bc. induction ts as [|tx rest IH]; intros bc; cbn.
  - now destruct bc.
  - unfold bind. rewrite apply_transaction_run, IH. reflexivity.
Qed.

Lemma select_valid_sound pending : forall selected bc res bc',
  select_valid pending selected bc = (Ok res, bc') ->
  Forall (validates bc) selected ->
  bc' = bc /\ Forall (validates bc) res.
Proof.
  induction pending as [|tx rest IH]; intros selected bc res bc' Hrun Hsel;
    cbn [select_valid] in Hrun.
  - injection Hrun as <- <-. auto.
  - unfold bind in Hrun. rewrite (validate_transaction_run tx bc) in Hrun.
    destruct (fst (validate_transaction tx bc)) as [[ok reason]| | |] eqn:Hv;
      try discriminate.
    assert (Hsel' : Forall (validates bc)
                      (if ok then (selected ++ [tx])%list else selected)).
    { destruct ok; [|exact Hsel]. apply Forall_app. split; [exact Hsel|].
      constructor; [|constructor]. now exists reason. }
    cbn [fst] in Hrun.
    destruct (MAX_TX_PER_BLOCK <=? _).
    + injection Hrun as <- <-. auto.
    + eapply IH; eauto.
Qed.

Lemma pow_loop_inv fuel height prev root selected : forall nonce bc blk bc',
  pow_loop fuel height prev root selected nonce bc = (Ok blk, bc') ->
  txs blk = selected
  /\ below_target (hash (header blk)) = Some true
  /\ bc' = with_utxo (apply_all selected)
             (with_tip (hash (header blk))
                (with_blocks (dict_set (hash (header blk)) blk) bc)).
Proof.
  induction fuel as [|f IH]; intros nonce bc blk bc' Hrun;
    cbn [pow_loop] in Hrun; [discriminate|].
  destruct (below_target _) as [[|]|] eqn:Hpow; [|eauto|discriminate].
  unfold bind, modify in Hrun. rewrite apply_all_run in Hrun.
  injection Hrun as <- <-. cbn. auto.
Qed.

Lemma mine_block_inv fuel pending bc blk bc' :
  mine_block fuel pending bc = (Ok blk, bc') -> accepted bc blk bc'.
Proof.
  unfold mine_block, bind. intros Hrun.
  destruct (select_valid pending [] bc) as [[selected| | |] bc1] eqn:Hsel;
    try discriminate.
  destruct (select_valid_sound _ _ _ _ _ Hsel (Forall_nil_2 _)) as [-> Hvalid].
  destruct selected as [|tx0 rest]; [discriminate|].
  destruct (utils.merkle_root _); try discriminate.
  unfold get in Hrun.
  destruct (tip bc) as [t|];
    apply pow_loop_inv in Hrun; destruct Hrun as (Htxs & Hpow & ->);
    (split; [exact Hpow|]; split; [now rewrite Htxs|]; now rewrite Htxs).
Qed.

Lemma validate_all_sound ts bc :
  fst (validate_all ts bc) = Ok true -> Forall (validates bc) ts.
Proof.
  induction ts as [|tx rest IH]; cbn [validate_all]; [constructor|].
  unfold bind. rewrite (validate_transaction_run tx bc).
  destruct (fst (validate_transaction tx bc)) as [[ok reason]| | |] eqn:Hv;
    try discriminate.
  destruct ok; cbn [negb fst]; [|discriminate].
  intros Hrest. constructor; [now exists reason | auto].
Qed.

(** The apply loop of [receive_block], seen from the ledger. *)
Lemma receive_loop (self r : nat) ts : forall w nd bc,
  nodes w !! self = Some nd ->
  ledgers w !! r = Some bc ->
  exists w',
    for_each ts
      (fun tx =>
         run! on_ledger r (apply_transaction tx) in
         update_node self (with_mempool (dict_pop (txid tx)))) w
    = (Ok tt, w')
    /\ ledgers w' !! r = Some (with_utxo (apply_all ts) bc).
Proof.
  induction ts as [|tx rest IH]; intros w nd bc Hnd Hbc; cbn [for_each].
  - exists w. split; [reflexivity|]. now destruct bc.
  - unfold bind at 1. unfold bind at 1, on_ledger at 1.
    rewrite Hbc, apply_transaction_run. unfold update_node at 1.
    cbn [nodes ledgers]. rewrite Hnd.
    edestruct (IH
      {| ledgers := <[r := with_utxo (apply_utxo tx) bc]> (ledgers w);
         nodes := <[self := with_mempool (dict_pop (txid tx)) nd]> (nodes w) |})
      as (w' & Hrun & Hl).
    + cbn. apply list_lookup_insert_eq. eapply lookup_lt_Some; eauto.
    + cbn. apply list_lookup_insert_eq. eapply lookup_lt_Some; eauto.
    + exists w'. split; [exact Hrun | exact Hl].
Qed.

Lemma receive_block_inv self blk w w' nd bc bc' :
  receive_block self blk w = (Ok tt, w') ->
  nodes w !! self = Some nd ->
  ledgers w !! blockchain nd = Some bc ->
  ledgers w' !! blockchain nd = Some bc' ->
  bc' = bc \/ accepted bc blk bc'.
Proof.
  intros Hrun Hnd Hbc Hbc'.
  unfold receive_block, bind, get_node in Hrun. rewrite Hnd in Hrun.
  rewrite (on_ledger_read _ get w bc (Ok bc) Hbc eq_refl) in Hrun.
  destruct (negb _ && negb _).
  { injection Hrun as <-. left. congruence. }
  destruct (below_target _) as [[|]|] eqn:Hpow; [| |discriminate].
  2:{ injection Hrun as <-. left. congruence. }
  pose proof (validate_all_state (txs blk) bc) as Hst.
  pose proof (validate_all_sound (txs blk) bc) as Hsound.
  destruct (validate_all (txs blk) bc) as [res bc1] eqn:Hval.
  cbn [snd fst] in Hst, Hsound. subst bc1.
  rewrite (on_ledger_read _ _ w bc res Hbc Hval) in Hrun.
  destruct res as [[|]| | |]; try discriminate.
  2:{ injection Hrun as <-. left. congruence. }
  cbn [negb] in Hrun. unfold on_ledger at 1 in Hrun.
  rewrite Hbc in Hrun. unfold modify in Hrun.
  set (w1 := {| ledgers := <[blockchain nd := _]> (ledgers w);
                nodes := nodes w |}) in Hrun.
  edestruct (receive_loop self (blockchain nd) (txs blk) w1 nd) as (w2 & Hloop & Hl).
  - exact Hnd.
  - subst w1. cbn. apply list_lookup_insert_eq. eapply lookup_lt_Some; eauto.
  - assert (E : (Ok tt, w') = (Ok tt, w2)) by (rewrite <- Hrun; exact Hloop).
    injection E as ->. right.
    rewrite Hl in Hbc'. injection Hbc' as <-.
    split; [exact Hpow|]. split; [auto | reflexivity].
Qed.

Lemma ledger_step_inv bc blk bc' :
  ledger_step bc blk bc' -> bc' = bc \/ accepted bc blk bc'.
Proof.
  intros [fuel pending Hrun | w w' self nd Hrun Hnd Hbc Hbc'].
  - right. eapply mine_block_inv; eauto.
  - eapply receive_block_inv; eauto.
Qed.

End Steps.

(** ** Proof of work of stored blocks *)

Section ProofOfWork.
Context `{wallet.Ecdsa}.


End ProofOfWork.



(** ** The asset trace *)

Section Sorting.
Context {A : Type} (key : A -> Z).

Lemma insert_desc_perm x l : insert_desc key x l ≡ₚ x :: l.
Proof.
  induction l as [|y rest IH]; cbn; [reflexivity|].
  destruct (key x <? key y); [|reflexivity].
  rewrite IH. apply Permutation_swap.
Qed.

Lemma sort_desc_perm l : sort_desc key l ≡ₚ l.
Proof.
  induction l as [|x rest IH]; cbn; [reflexivity|].
  now rewrite insert_desc_perm, IH.
Qed.

Lemma insert_desc_sorted x l :
  StronglySorted (newer_first key) l ->
  StronglySorted (newer_first key) (insert_desc key x l).
Proof.
  induction 1 as [|y rest Hs IH Hall]; cbn.
  - constructor; constructor.
  - destruct (key x <? key y) eqn:E.
    + apply Z.ltb_lt in E. constructor; [exact IH|].
      rewrite insert_desc_perm. constructor; [unfold newer_first; lia | exact Hall].
    + apply Z.ltb_ge in E. constructor; [now constructor|].
      constructor; [exact E|].
      eapply Forall_impl; [exact Hall|]. unfold newer_first. intros z Hz. lia.
Qed.

Lemma sort_desc_sorted l : StronglySorted (newer_first key) (sort_desc key l).
Proof.
  induction l as [|x rest IH]; cbn; [constructor | now apply insert_desc_sorted].
Qed.

End Sorting.

Lemma first_hit_has_asset {A} (a : string) (outs : list TxOutput) (e : A) :
  first_hit a outs e
  = if existsb (fun o => String.eqb (asset_id o) a) outs then [e] else [].
Proof.
  induction outs as [|o rest IH]; cbn; [reflexivity|].
  destruct (String.eqb (asset_id o) a); [reflexivity | exact IH].
Qed.

Lemma trace_block_entries (a : string) (kv : string * Block) :
  trace_block a kv = trace_entries a kv.
Proof.
  unfold trace_block, trace_entries.
  induction (txs (snd kv)) as [|tx rest IH]; cbn [flat_map]; [reflexivity|].
  rewrite first_hit_has_asset, IH, filter_cons. fold (has_asset a tx).
  destruct (has_asset a tx) eqn:E.
  - rewrite decide_True by reflexivity. reflexivity.
  - rewrite decide_False by discriminate. reflexivity.
Qed.

Lemma trace_entries_height (a : string) (kv : string * Block) e :
  e ∈ trace_entries a kv -> entry_height e = height (header (snd kv)).
Proof.
  unfold trace_entries. rewrite list_elem_of_fmap.
  intros (tx & -> & _). reflexivity.
Qed.

Lemma trace_sorted (a : string) (blocks : list (string * Block)) :
  StronglySorted (newer_first (fun kv => height (header (snd kv)))) blocks ->
  StronglySorted (newer_first entry_height)
    (flat_map (trace_entries a) blocks).
Proof.
  induction 1 as [|kv rest Hs IH Hall]; cbn [flat_map]; [constructor|].
  apply StronglySorted_app_2; [| |exact IH].
  - intros e1 e2 H1 H2. apply trace_entries_height in H1.
    apply list_elem_of_In, in_flat_map in H2. destruct H2 as (kv' & Hin & H2).
    apply list_elem_of_In, trace_entries_height in H2.
    rewrite List.Forall_forall in Hall. specialize (Hall kv' Hin).
    unfold newer_first in *. congruence.
  - unfold trace_entries.
    induction (filter _ _) as [|tx ts IHt]; cbn; constructor; [exact IHt|].
    apply List.Forall_forall. intros e He. apply in_map_iff in He.
    destruct He as (tx' & <- & _). unfold newer_first, entry_height. cbn. lia.
Qed.

(** C7: [trace_asset] goes through the stored blocks in an order of
    descending height and takes from each block, in block order, one
    entry [(height, block_hash, tx)] for every transaction with at least
    one output of the asset, and no second entry for further matching
    outputs; the heights of the result never go up. *)
Theorem trace_asset_newest_first (bc : Blockchain) (a : string) :
  exists blocks : list (string * Block),
    blocks ≡ₚ dict_items (blocks_by_hash bc)
    /\ StronglySorted (newer_first (fun kv => height (header (snd kv)))) blocks
    /\ trace_asset bc a = flat_map (trace_entries a) blocks
    /\ StronglySorted (newer_first entry_height) (trace_asset bc a).
Proof.
  exists (sort_desc (fun kv => height (header (snd kv)))
            (dict_items (blocks_by_hash bc))).
  assert (E : trace_asset bc a
              = flat_map (trace_entries a)
                  (sort_desc (fun kv => height (header (snd kv)))
                     (dict_items (blocks_by_hash bc)))).
  { unfold trace_asset. apply flat_map_ext. intros kv.
    apply trace_block_entries. }
  split; [apply sort_desc_perm|]. split; [apply sort_desc_sorted|].
  split; [exact E|]. rewrite E. apply trace_sorted, sort_desc_sorted.
Qed.

(** ** The chain walk *)

Lemma dict_get_in {V} (k : string) (d : pydict V) (v : V) :
  dict_get k d = Some v -> In k (map fst d).
Proof.
  induction d as [|[k' v'] rest IH]; cbn; [discriminate|].
  destruct (String.eqb k k') eqn:E.
  - apply String.eqb_eq in E. auto.
  - auto.
Qed.

Lemma next_hash_snoc cur acc c b :
  next_hash cur (acc ++ [(c, b)]) = prev_hash (header b).
Proof.
  revert cur. induction acc as [|[h b'] rest IH]; intros cur; cbn; auto.
Qed.

Lemma linked_snoc blocks cur acc c b :
  linked blocks cur acc ->
  next_hash cur acc = c ->
  c <> "" ->
  dict_get c blocks = Some b ->
  (acc <> [] -> c <> utils.zero_hash) ->
  linked blocks cur (acc ++ [(c, b)]).
Proof.
  revert cur. induction acc as [|[h b'] rest IH]; intros cur Hl Hn Hc Hb Hz.
  - cbn in *. subst c. repeat split; auto; congruence.
  - cbn in Hl, Hn |- *. destruct Hl as (-> & Hne & Hget & Hrest & Hl).
    repeat split; auto.
    intros _. destruct rest as [|hb rest'].
    + cbn in Hn. rewrite Hn. apply Hz. discriminate.
    + apply Hrest. discriminate.
Qed.

Lemma build_chain_loop_total blocks tip : forall fuel cur visited acc,
  visited = list_to_set (map fst acc) ->
  NoDup (map fst acc) ->
  incl (map fst acc) (map fst blocks) ->
  linked blocks tip acc ->
  next_hash tip acc = cur ->
  (acc <> [] -> cur <> utils.zero_hash) ->
  (length blocks - length acc < fuel)%nat ->
  exists chain,
    build_chain_loop fuel blocks cur visited acc = Some chain
    /\ NoDup (map fst chain)
    /\ linked blocks tip chain
    /\ walk_stops blocks tip chain.
Proof.
  induction fuel as [|f IH];
    intros cur visited acc Hv Hnd Hincl Hl Hn Hz Hfuel; [lia|].
  cbn [build_chain_loop].
  destruct (String.eqb cur "") eqn:Eempty; cbn [negb andb].
  { apply String.eqb_eq in Eempty. exists acc. repeat split; auto.
    right. left. congruence. }
  apply String.eqb_neq in Eempty.
  destruct (bool_decide (cur ∈ visited)) eqn:Evis; cbn [negb].
  { apply bool_decide_eq_true in Evis. subst visited.
    apply elem_of_list_to_set, list_elem_of_In in Evis.
    exists acc. repeat split; auto. right. right. left. congruence. }
  apply bool_decide_eq_false in Evis.
  assert (Hfresh : ~ In cur (map fst acc)).
  { intros Hin. apply Evis. subst visited.
    now apply elem_of_list_to_set, list_elem_of_In. }
  destruct (dict_get cur blocks) as [blk|] eqn:Eget.
  2:{ exists acc. repeat split; auto. right. right. right. congruence. }
  assert (Hnd' : NoDup (map fst (acc ++ [(cur, blk)]))).
  { rewrite map_app. cbn. apply NoDup_app. repeat split; auto.
    - intros x Hx Hx'. apply list_elem_of_In in Hx.
      apply list_elem_of_singleton in Hx'. now subst x.
    - apply NoDup_singleton. }
  assert (Hl' : linked blocks tip (acc ++ [(cur, blk)]))
    by (apply linked_snoc; auto).
  destruct (String.eqb (prev_hash (header blk)) utils.zero_hash) eqn:Ez.
  { apply String.eqb_eq in Ez. exists (acc ++ [(cur, blk)])%list.
    repeat split; auto. left. split.
    - now destruct acc.
    - now rewrite next_hash_snoc. }
  apply String.eqb_neq in Ez.
  assert (Hincl' : incl (map fst (acc ++ [(cur, blk)])) (map fst blocks)).
  { rewrite map_app. apply incl_app; [exact Hincl|].
    intros x [<-|[]]. eapply dict_get_in; eauto. }
  apply IH; auto.
  - subst visited. rewrite map_app, list_to_set_app_L. cbn.
    rewrite (right_id_L ∅ (∪)). apply (comm_L (∪)).
  - apply next_hash_snoc.
  - apply NoDup_ListNoDup in Hnd'.
    pose proof (NoDup_incl_length Hnd' Hincl') as Hlen.
    rewrite !length_map, length_app in Hlen. cbn in Hlen.
    rewrite length_app. cbn. lia.
Qed.

Lemma build_chain_loop_more blocks : forall fuel cur visited acc chain,
  build_chain_loop fuel blocks cur visited acc = Some chain ->
  build_chain_loop (S fuel) blocks cur visited acc = Some chain.
Proof.
  induction fuel as [|f IH]; intros cur visited acc chain.
  - cbn. destruct (negb _ && negb _); [discriminate | auto].
  - intros Hrun. cbn [build_chain_loop] in Hrun.
    change (build_chain_loop (S (S f)) blocks cur visited acc)
      with (if negb (String.eqb cur "") && negb (bool_decide (cur ∈ visited))
            then match dict_get cur blocks with
                 | None => Some acc
                 | Some blk =>
                     if String.eqb (prev_hash (header blk)) utils.zero_hash
                     then Some (acc ++ [(cur, blk)])%list
                     else build_chain_loop (S f) blocks
                            (prev_hash (header blk)) ({[cur]} ∪ visited)
                            (acc ++ [(cur, blk)])%list
                 end
            else Some acc).
    destruct (negb _ && negb _); [|exact Hrun].
    destruct (dict_get cur blocks) as [blk|]; [|exact Hrun].
    destruct (String.eqb _ utils.zero_hash); [exact Hrun | auto].
Qed.

(** C8: for every chain map and tip the walk ends within one iteration
    per stored block plus one (a larger budget changes nothing); its
    result follows the prev-hash links from the tip, tip first, holds no
    hash twice, and ends at a genesis block, at an empty or already
    visited hash, or at a hash without a stored block. *)
Theorem build_chain_from_tip_terminates (bc : Blockchain) :
  exists chain,
    build_chain_from_tip bc = Some chain
    /\ (forall extra : nat,
          build_chain_loop (S (length (blocks_by_hash bc)) + extra)
            (blocks_by_hash bc) (height_tip_hash bc) ∅ [] = Some chain)
    /\ NoDup (map fst chain)
    /\ linked (blocks_by_hash bc) (height_tip_hash bc) chain
    /\ walk_stops (blocks_by_hash bc) (height_tip_hash bc) chain.
Proof.
  destruct (build_chain_loop_total (blocks_by_hash bc) (height_tip_hash bc)
              (S (length (blocks_by_hash bc))) (height_tip_hash bc) ∅ [])
    as (chain & Hrun & Hnd & Hl & Hstop).
  - reflexivity.
  - constructor.
  - intros x [].
  - exact I.
  - reflexivity.
  - congruence.
  - cbn. lia.
  - exists chain. repeat split; auto.
    intros extra. induction extra as [|n IHn].
    + now rewrite Nat.add_0_r.
    + rewrite Nat.add_succ_r. now apply build_chain_loop_more.
Qed.

(** ** The flood of a transaction without inputs *)

Lemma node_grows_refl t nd : node_grows t nd nd.
Proof. repeat split; auto. Qed.

Lemma node_grows_trans t a b c :
  node_grows t a b -> node_grows t b c -> node_grows t a c.
Proof.
  intros (? & ? & ? & Hab) (? & ? & ? & Hbc). repeat split; try congruence.
  auto.
Qed.

Lemma nodes_grow_refl t l : Forall2 (node_grows t) l l.
Proof. induction l; constructor; auto using node_grows_refl. Qed.

Lemma grows_refl t w : grows t w w.
Proof. split; [reflexivity | apply nodes_grow_refl]. Qed.

Lemma grows_trans t w1 w2 w3 : grows t w1 w2 -> grows t w2 w3 -> grows t w1 w3.
Proof.
  intros [E12 H12] [E23 H23]. split; [congruence|].
  revert H23. generalize (nodes w3). induction H12 as [|a b l k Hab _ IH];
    intros l3 H23; inversion H23; subst; constructor;
    eauto using node_grows_trans.
Qed.

Lemma in_mempool_grows t nd nd' :
  node_grows t nd nd' -> in_mempool t nd = true -> in_mempool t nd' = true.
Proof.
  intros (_ & _ & _ & Hkeep). unfold in_mempool, dict_mem.
  destruct (dict_get t (mempool nd)) as [v|] eqn:E; [|discriminate].
  now rewrite (Hkeep v eq_refl).
Qed.

Lemma lacking_grows t l l' :
  Forall2 (node_grows t) l l' -> (lacking t l' <= lacking t l)%nat.
Proof.
  induction 1 as [|nd nd' l l' Hg _ IH]; cbn; [lia|].
  destruct (in_mempool t nd) eqn:E.
  - rewrite (in_mempool_grows _ _ _ Hg E). lia.
  - destruct (in_mempool t nd'); lia.
Qed.

Lemma lacking_insert t (l : list FullNode) : forall i nd nd',
  l !! i = Some nd ->
  in_mempool t nd = false ->
  in_mempool t nd' = true ->
  (lacking t (<[i := nd']> l) < lacking t l)%nat.
Proof.
  induction l as [|x rest IH]; intros [|i] nd nd' Hl Hno Hyes; cbn in *;
    try discriminate.
  - injection Hl as ->. rewrite Hno, Hyes. clear. lia.
  - specialize (IH i nd nd' Hl Hno Hyes). apply Nat.add_lt_mono_l, IH.
Qed.

Lemma grows_insert t (l : list FullNode) : forall i nd nd',
  l !! i = Some nd ->
  node_grows t nd nd' ->
  Forall2 (node_grows t) l (<[i := nd']> l).
Proof.
  induction l as [|x rest IH]; intros [|i] nd nd' Hl Hg; cbn in *;
    try discriminate.
  - injection Hl as ->. constructor; [exact Hg | apply nodes_grow_refl].
  - constructor; [apply node_grows_refl | eauto].
Qed.

Lemma well_formed_node w i nd :
  well_formed w = true ->
  nodes w !! i = Some nd ->
  (blockchain nd < length (ledgers w))%nat
  /\ Forall (fun p => (p < length (nodes w))%nat) (peers nd).
Proof.
  unfold well_formed. rewrite forallb_forall. intros Hwf Hnd.
  assert (Hin : In nd (nodes w))
    by (apply list_elem_of_In, list_elem_of_lookup; eauto).
  specialize (Hwf nd Hin). apply andb_true_iff in Hwf. destruct Hwf as [Hb Hp].
  split; [now apply Nat.ltb_lt in Hb|].
  rewrite forallb_forall in Hp. apply List.Forall_forall.
  intros p Hpin. now apply Nat.ltb_lt, Hp.
Qed.

Lemma well_formed_grows t w w' :
  grows t w w' -> well_formed w = true -> well_formed w' = true.
Proof.
  intros [El Hn] Hwf. unfold well_formed in *. rewrite forallb_forall in *.
  intros nd' Hin. apply list_elem_of_In, list_elem_of_lookup in Hin.
  destruct Hin as [i Hi].
  destruct (Forall2_lookup_r _ _ _ _ _ Hn Hi) as (nd & Hnd & _ & Hb & Hp & _).
  assert (Hin : In nd (nodes w))
    by (apply list_elem_of_In, list_elem_of_lookup; eauto).
  specialize (Hwf nd Hin). rewrite El, Hb, Hp.
  now rewrite <- (Forall2_length _ _ _ Hn).
Qed.

Section Flood.
Context `{wallet.Ecdsa}.

Lemma validate_coinbase tx bc :
  inputs tx = [] ->
  validate_transaction tx bc = (Ok (true, "coinbase/genesis tx"), bc).
Proof. intros E. unfold validate_transaction. now rewrite E. Qed.

Lemma holds_grows t w w' p : grows t w w' -> holds t w p -> holds t w' p.
Proof.
  intros [_ Hn] (nd & Hnd & Hin).
  destruct (Forall2_lookup_l _ _ _ _ _ Hn Hnd) as (nd' & Hnd' & Hg).
  exists nd'. eauto using in_mempool_grows.
Qed.

Lemma flood_peers tx f
    (IH : forall w self,
        well_formed w = true ->
        (self < length (nodes w))%nat ->
        (lacking (txid tx) (nodes w) < f)%nat ->
        exists w',
          receive_transaction f self tx w = (Ok tt, w')
          /\ grows (txid tx) w w' /\ holds (txid tx) w' self) :
  forall ps w,
    well_formed w = true ->
    Forall (fun p => (p < length (nodes w))%nat) ps ->
    (lacking (txid tx) (nodes w) < f)%nat ->
    exists w',
      for_each ps (fun p => receive_transaction f p tx) w = (Ok tt, w')
      /\ grows (txid tx) w w' /\ Forall (holds (txid tx) w') ps.
Proof.
  induction ps as [|p rest IHps]; intros w Hwf Hps Hlack.
  - exists w. cbn. auto using grows_refl.
  - apply Forall_cons in Hps. destruct Hps as [Hp Hrest].
    destruct (IH w p Hwf Hp Hlack) as (w1 & Hrun1 & Hg1 & Hh1).
    pose proof (Forall2_length _ _ _ (proj2 Hg1)) as Hlen.
    destruct (IHps w1) as (w2 & Hrun2 & Hg2 & Hh2).
    + eauto using well_formed_grows.
    + now rewrite <- Hlen.
    + pose proof (lacking_grows _ _ _ (proj2 Hg1)). lia.
    + exists w2. split; [|split].
      * cbn [for_each]. unfold bind. now rewrite Hrun1.
      * eauto using grows_trans.
      * constructor; eauto using holds_grows.
Qed.

(** The call on a node that does not have the transaction yet, given
    what the nested calls with budget [f] do. *)
Lemma flood_fresh tx f
    (IH : forall w self,
        well_formed w = true ->
        (self < length (nodes w))%nat ->
        (lacking (txid tx) (nodes w) < f)%nat ->
        exists w',
          receive_transaction f self tx w = (Ok tt, w')
          /\ grows (txid tx) w w' /\ holds (txid tx) w' self) :
  inputs tx = [] ->
  forall w self nd,
    well_formed w = true ->
    nodes w !! self = Some nd ->
    in_mempool (txid tx) nd = false ->
    (lacking (txid tx) (nodes w) < S f)%nat ->
    exists w',
      receive_transaction (S f) self tx w = (Ok tt, w')
      /\ grows (txid tx) w w'
      /\ (exists nd', nodes w' !! self = Some nd'
                      /\ dict_get (txid tx) (mempool nd') = Some tx)
      /\ Forall (holds (txid tx) w') (peers nd).
Proof.
  intros Hcb w self nd Hwf Hnd Emem Hlack.
  assert (Hself : (self < length (nodes w))%nat)
    by (eapply lookup_lt_Some; eauto).
  cbn [receive_transaction]. unfold bind at 1, get_node. rewrite Hnd.
  unfold in_mempool in Emem. rewrite Emem.
  destruct (well_formed_node _ _ _ Hwf Hnd) as [Hb Hpeers].
  destruct (lookup_lt_is_Some_2 _ _ Hb) as [bc Hbc].
  unfold bind at 1.
  rewrite (on_ledger_read _ _ w bc _ Hbc (validate_coinbase tx bc Hcb)).
  cbn [fst negb]. unfold bind at 1, update_node. rewrite Hnd.
  set (nd1 := with_mempool (dict_set (txid tx) tx) nd).
  set (w1 := {| ledgers := ledgers w; nodes := <[self := nd1]> (nodes w) |}).
  assert (Hget1 : dict_get (txid tx) (mempool nd1) = Some tx)
    by (unfold nd1; cbn; apply dict_get_set_eq).
  assert (Hin1 : in_mempool (txid tx) nd1 = true)
    by (unfold in_mempool, dict_mem; now rewrite Hget1).
  assert (Hg1 : grows (txid tx) w w1).
  { split; [reflexivity|]. apply (grows_insert _ _ _ nd); [exact Hnd|].
    repeat split. intros v Hv. unfold dict_mem in Emem. now rewrite Hv in Emem. }
  assert (Hlen : length (nodes w1) = length (nodes w))
    by apply length_insert.
  destruct (flood_peers tx f IH (peers nd) w1) as (w2 & Hrun & Hg2 & Hh2).
  - eauto using well_formed_grows.
  - now rewrite Hlen.
  - pose proof (lacking_insert (txid tx) (nodes w) self nd nd1 Hnd Emem Hin1)
      as Hless.
    cbn [nodes w1]. clear -Hless Hlack. lia.
  - exists w2. split; [exact Hrun|]. split; [eauto using grows_trans|].
    split; [|exact Hh2].
    assert (Hnd1 : nodes w1 !! self = Some nd1)
      by (cbn; now apply list_lookup_insert_eq).
    destruct (Forall2_lookup_l _ _ _ _ _ (proj2 Hg2) Hnd1)
      as (nd2 & Hnd2 & _ & _ & _ & Hkeep).
    exists nd2. auto.
Qed.

Lemma flood_coinbase tx :
  inputs tx = [] ->
  forall fuel w self,
    well_formed w = true ->
    (self < length (nodes w))%nat ->
    (lacking (txid tx) (nodes w) < fuel)%nat ->
    exists w',
      receive_transaction fuel self tx w = (Ok tt, w')
      /\ grows (txid tx) w w' /\ holds (txid tx) w' self.
Proof.
  intros Hcb. induction fuel as [|f IH]; intros w self Hwf Hself Hlack;
    [clear -Hlack; lia|].
  destruct (lookup_lt_is_Some_2 _ _ Hself) as [nd Hnd].
  destruct (in_mempool (txid tx) nd) eqn:Emem.
  - exists w. split; [|split; [apply grows_refl | now exists nd]].
    cbn [receive_transaction]. unfold bind, get_node. rewrite Hnd.
    unfold in_mempool in Emem. now rewrite Emem.
  - destruct (flood_fresh tx f IH Hcb w self nd Hwf Hnd Emem Hlack)
      as (w' & Hrun & Hg & (nd' & Hnd' & Hget) & _).
    exists w'. split; [exact Hrun|]. split; [exact Hg|].
    exists nd'. split; [exact Hnd'|].
    unfold in_mempool, dict_mem. now rewrite Hget.
Qed.

Lemma lacking_le_length t nds : (lacking t nds <= length nds)%nat.
Proof.
  induction nds as [|nd rest IH]; cbn; [lia|].
  destruct (in_mempool t nd); clear -IH; lia.
Qed.

(** C10: a transaction without inputs passes [validate_transaction] on
    every ledger, whatever its outputs, with the reason
    ["coinbase/genesis tx"]; so a node that does not hold its txid yet
    puts it into its mempool and hands it to every peer, and after the
    call the node has it under its txid and every peer has an entry for
    that txid.  The ledgers are not touched. *)
Theorem coinbase_transaction_floods (w : World) (self : nat) (nd : FullNode)
    (tx : Transaction) (fuel : nat) :
  inputs tx = [] ->
  well_formed w = true ->
  nodes w !! self = Some nd ->
  in_mempool (txid tx) nd = false ->
  (length (nodes w) < fuel)%nat ->
  (forall bc,
     validate_transaction tx bc = (Ok (true, "coinbase/genesis tx"), bc))
  /\ exists w',
       receive_transaction fuel self tx w = (Ok tt, w')
       /\ ledgers w' = ledgers w
       /\ (exists nd', nodes w' !! self = Some nd'
                       /\ dict_get (txid tx) (mempool nd') = Some tx)
       /\ Forall (holds (txid tx) w') (peers nd).
Proof.
  intros Hcb Hwf Hnd Emem Hfuel.
  split; [intros bc; now apply validate_coinbase|].
  destruct fuel as [|f]; [clear -Hfuel; lia|].
  pose proof (lacking_le_length (txid tx) (nodes w)) as Hle.
  destruct (flood_fresh tx f (flood_coinbase tx Hcb f) Hcb w self nd Hwf Hnd
              Emem) as (w' & Hrun & [Hl _] & Hself & Hpeers).
  - clear -Hle Hfuel. lia.
  - exists w'. auto.
Qed.

End Flood.

Lemma coinbase_transaction_floods_witness :
  inputs mint = []
  /\ well_formed (mesh_of chain1) = true
  /\ nodes (mesh_of chain1) !! 0%nat = Some mesh_node0
  /\ in_mempool (txid mint) mesh_node0 = false
  /\ (length (nodes (mesh_of chain1)) < 4)%nat
  /\ exists w',
       receive_transaction (H := reject_all) 4 0 mint (mesh_of chain1)
       = (Ok tt, w')
       /\ ledgers w' = ledgers (mesh_of chain1)
       /\ (exists nd', nodes w' !! 0%nat = Some nd'
                       /\ dict_get (txid mint) (mempool nd') = Some mint)
       /\ Forall (holds (txid mint) w') (peers mesh_node0).
Proof.
  split; [reflexivity|]. split; [reflexivity|]. split; [reflexivity|].
  split; [reflexivity|]. split; [cbn; lia|].
  exact (proj2 (coinbase_transaction_floods (H := reject_all)
                  (mesh_of chain1) 0 mesh_node0 mint 4
                  eq_refl eq_refl eq_refl eq_refl
                  (Nat.lt_succ_diag_r 3))).
Defined.

(** ** Sums of unspent portions *)

Lemma asset_sum_insert (a : string) (u : UTXOSet) (k : string * Z)
    (o : TxOutput) :
  u !! k = None ->
  asset_sum a (<[k := o]> u) = asset_portion a o + asset_sum a u.
Proof.
  intros Hk. unfold asset_sum.
  rewrite map_fold_insert_L; [reflexivity | intros; lia | exact Hk].
Qed.

Lemma asset_sum_delete (a : string) (u : UTXOSet) (k : string * Z)
    (o : TxOutput) :
  u !! k = Some o ->
  asset_sum a u = asset_portion a o + asset_sum a (delete k u).
Proof.
  intros Hk. unfold asset_sum.
  rewrite (map_fold_delete_L _ _ k o u); [reflexivity | intros; lia | exact Hk].
Qed.

Lemma drop_inputs_cons (inp : TxInput) (ins : list TxInput) (u : UTXOSet) :
  drop_inputs (inp :: ins) u = drop_inputs ins (delete (outpoint inp) u).
Proof. reflexivity. Qed.

Lemma lookup_drop_inputs (ins : list TxInput) (u : UTXOSet) (k : string * Z) :
  drop_inputs ins u !! k
  = if decide (k ∈ map outpoint ins) then None else u !! k.
Proof.
  revert u. induction ins as [|inp rest IH]; intros u.
  - cbn. rewrite decide_False by apply not_elem_of_nil. reflexivity.
  - rewrite drop_inputs_cons, IH. cbn [map].
    destruct (decide (k ∈ map outpoint rest)) as [Hin|Hout].
    + rewrite decide_True by (now apply elem_of_cons; right). reflexivity.
    + destruct (decide (k = outpoint inp)) as [->|Hne].
      * rewrite lookup_delete_eq.
        rewrite decide_True by (apply elem_of_cons; now left). reflexivity.
      * rewrite lookup_delete_ne by congruence.
        rewrite decide_False; [reflexivity|].
        rewrite elem_of_cons. intros [?|?]; contradiction.
Qed.

Lemma spent_portion_ext (a : string) (u u' : UTXOSet) (ins : list TxInput) :
  Forall (fun inp => u' !! outpoint inp = u !! outpoint inp) ins ->
  spent_portion a u' ins = spent_portion a u ins.
Proof.
  induction 1 as [|inp rest E _ IH]; cbn; [reflexivity|]. now rewrite E, IH.
Qed.

(** Removing distinct, present outpoints takes exactly their portions. *)
Lemma asset_sum_drop_inputs (a : string) (ins : list TxInput) :
  forall u : UTXOSet,
    NoDup (map outpoint ins) ->
    Forall (fun inp => is_Some (u !! outpoint inp)) ins ->
    asset_sum a u = spent_portion a u ins + asset_sum a (drop_inputs ins u).
Proof.
  induction ins as [|inp rest IH]; intros u Hnd Hall.
  - cbn. lia.
  - cbn [map] in Hnd. apply NoDup_cons in Hnd. destruct Hnd as [Hfresh Hnd].
    apply Forall_cons in Hall. destruct Hall as [[o Ho] Hall].
    assert (Hkeep : Forall (fun i => delete (outpoint inp) u !! outpoint i
                                     = u !! outpoint i) rest).
    { apply List.Forall_forall. intros i Hi. apply lookup_delete_ne.
      intros E. apply Hfresh. rewrite E. apply list_elem_of_In, in_map, Hi. }
    rewrite drop_inputs_cons. cbn [spent_portion]. rewrite Ho.
    rewrite (asset_sum_delete a u _ o Ho).
    rewrite (IH (delete (outpoint inp) u) Hnd).
    + rewrite (spent_portion_ext a u _ rest Hkeep). lia.
    + rewrite List.Forall_forall in *. intros i Hi.
      rewrite (Hkeep i Hi). now apply Hall.
Qed.

(** Writing outputs at unused keys adds exactly their portions. *)
Lemma asset_sum_put_outputs (a t : string) (outs : list TxOutput) :
  forall (k : Z) (u : UTXOSet),
    (forall i, k <= i -> u !! (t, i) = None) ->
    asset_sum a (put_outputs t (enumerate_from k outs) u)
    = created_portion a outs + asset_sum a u.
Proof.
  induction outs as [|o rest IH]; intros k u Hfree.
  - reflexivity.
  - cbn [enumerate_from]. rewrite put_outputs_cons. cbn [fst snd].
    unfold add_output. rewrite IH.
    + rewrite asset_sum_insert by (apply Hfree; lia).
      cbn [created_portion]. lia.
    + intros i Hi. rewrite lookup_insert_ne by (intros E; injection E; lia).
      apply Hfree. lia.
Qed.

Lemma asset_sum_apply (a : string) (tx : Transaction) (u : UTXOSet) :
  NoDup (map outpoint (inputs tx)) ->
  balanced u tx ->
  (forall i, u !! (txid tx, i) = None) ->
  asset_sum a (apply_utxo tx u) = asset_sum a u.
Proof.
  intros Hnd [Hall Hbal] Hfree. unfold apply_utxo, enumerate.
  rewrite asset_sum_put_outputs.
  - rewrite (asset_sum_drop_inputs a (inputs tx) u Hnd Hall), Hbal. lia.
  - intros i _. rewrite lookup_drop_inputs. destruct (decide _); auto.
Qed.

(** ** What validation says about the UTXO set *)

Section Conservation.
Context `{wallet.Ecdsa}.

Lemma check_inputs_sound ins : forall asset total bc r,
  fst (check_inputs ins asset total bc) = Ok r ->
  match r with
  | inl verdict => fst verdict = false
  | inr (asset', total') =>
      Forall (fun inp => is_Some (utxo bc !! outpoint inp)) ins
      /\ (forall a, asset = Some a -> asset' = Some a)
      /\ (ins <> [] -> is_Some asset')
      /\ forall a', asset' = Some a' ->
           forall b, spent_portion b (utxo bc) ins
                     = if String.eqb a' b then total' - total else 0
  end.
Proof.
  induction ins as [|inp rest IH]; intros asset total bc r;
    cbn [check_inputs].
  - intros E. injection E as <-. repeat split; auto; [congruence|].
    intros a' _ b. cbn. destruct (String.eqb a' b); lia.
  - unfold bind, utxo_get, get_output. fold (outpoint inp).
    destruct (utxo bc !! outpoint inp) as [o|] eqn:Eo.
    2:{ intros E. injection E as <-. reflexivity. }
    destruct (negb _) eqn:Esame.
    { intros E. injection E as <-. reflexivity. }
    destruct (fromhex (pubkey inp)) as [pk|]; [|discriminate].
    destruct (String.eqb (sha256_hex pk) (pubkey_hash o)).
    2:{ intros E. injection E as <-. reflexivity. }
    intros E. specialize (IH _ _ _ _ E).
    destruct r as [verdict|[asset' total']]; [exact IH|].
    destruct IH as (Hall & Hkeep & _ & Hsum).
    pose proof (Hkeep _ eq_refl) as Hasset'.
    split; [constructor; [now rewrite Eo | exact Hall]|].
    split.
    { intros a ->. apply negb_false_iff, String.eqb_eq in Esame. congruence. }
    split; [intros _; now rewrite Hasset'|].
    intros a' Ea' b. cbn [spent_portion]. rewrite Eo, (Hsum a' Ea' b).
    assert (a' = asset_id o) by congruence. subst a'.
    unfold asset_portion. destruct (String.eqb (asset_id o) b); lia.
Qed.

Lemma check_outputs_sound outs a : forall total,
  match check_outputs outs (Some a) total with
  | inl verdict => fst verdict = false
  | inr total' =>
      forall b, created_portion b outs
                = if String.eqb a b then total' - total else 0
  end.
Proof.
  induction outs as [|o rest IH]; intros total; cbn [check_outputs].
  - intros b. cbn. destruct (String.eqb a b); lia.
  - destruct (String.eqb (asset_id o) a) eqn:E; [|reflexivity].
    apply String.eqb_eq in E. specialize (IH (total + portion o)).
    destruct (check_outputs rest (Some a) (total + portion o)); [exact IH|].
    intros b. cbn [created_portion]. rewrite IH. unfold asset_portion.
    rewrite E. destruct (String.eqb a b); lia.
Qed.

Lemma validates_balanced bc tx :
  validates bc tx -> inputs tx <> [] -> balanced (utxo bc) tx.
Proof.
  intros [reason Hv] Hne. unfold validate_transaction in Hv.
  destruct (inputs tx) as [|inp0 ins0] eqn:Ei; [congruence|].
  unfold bind in Hv.
  pose proof (check_inputs_sound (inp0 :: ins0) None 0 bc) as Hin.
  pose proof (check_inputs_state (inp0 :: ins0) None 0 bc) as Hst.
  destruct (check_inputs (inp0 :: ins0) None 0 bc) as [[r| | |] bc1];
    cbn [fst snd] in *; try discriminate.
  specialize (Hin r eq_refl).
  destruct r as [verdict|[asset total_in]].
  { cbn in Hv. injection Hv as Hv. rewrite Hv in Hin. discriminate. }
  destruct Hin as (Hall & _ & Hsome & Hspent).
  destruct (Hsome ltac:(discriminate)) as [a ->].
  pose proof (check_outputs_sound (outputs tx) a 0) as Hout.
  destruct (check_outputs (outputs tx) (Some a) 0) as [verdict|total_out].
  { cbn in Hv. injection Hv as Hv. rewrite Hv in Hout. discriminate. }
  destruct (total_in =? total_out) eqn:Etot; cbn [negb] in Hv;
    [|cbn in Hv; discriminate].
  apply Z.eqb_eq in Etot. unfold balanced. rewrite Ei. split; [exact Hall|].
  intros b. rewrite (Hspent a eq_refl b), Hout, Etot. reflexivity.
Qed.

Lemma clean_on_step (u : UTXOSet) tx rest :
  clean_on u (tx :: rest) -> clean_on (apply_utxo tx u) rest.
Proof.
  intros (Hbal & Hspent & Hids & Hfree).
  apply Forall_cons in Hbal. destruct Hbal as [[Hpres _] Hbal].
  apply Forall_cons in Hfree. destruct Hfree as [Hfree0 Hfree].
  cbn [map] in Hids. apply NoDup_cons in Hids. destruct Hids as [Hid0 Hids].
  unfold spent in Hspent. cbn [flat_map] in Hspent. fold (spent rest) in Hspent.
  apply NoDup_app in Hspent. destruct Hspent as (_ & Hdisj & Hspent).
  assert (Hframe : forall tx', In tx' rest ->
            forall inp, In inp (inputs tx') ->
              is_Some (u !! outpoint inp) ->
              apply_utxo tx u !! outpoint inp = u !! outpoint inp).
  { intros tx' Htx' inp Hinp [o Ho]. unfold apply_utxo, enumerate.
    destruct (outpoint inp) as [t i] eqn:Eop.
    rewrite lookup_put_outputs. rewrite decide_False.
    - rewrite lookup_drop_inputs. rewrite decide_False; [reflexivity|].
      intros Hin. apply (Hdisj _ Hin). apply list_elem_of_In.
      unfold spent. apply in_flat_map. exists tx'. split; [exact Htx'|].
      rewrite <- Eop. now apply in_map.
    - intros [-> _]. rewrite Hfree0 in Ho. discriminate. }
  split; [|split; [exact Hspent | split; [exact Hids|]]].
  - rewrite List.Forall_forall in *. intros tx' Htx'.
    destruct (Hbal tx' Htx') as [Hpres' Hbal'].
    rewrite List.Forall_forall in Hpres'.
    assert (Hsame : Forall (fun inp => apply_utxo tx u !! outpoint inp
                                       = u !! outpoint inp) (inputs tx')).
    { apply List.Forall_forall. intros inp Hinp. eauto. }
    split.
    + apply List.Forall_forall. intros inp Hinp.
      rewrite List.Forall_forall in Hsame. rewrite (Hsame inp Hinp). auto.
    + intros a. rewrite (spent_portion_ext a u _ _ Hsame). apply Hbal'.
  - rewrite List.Forall_forall in *. intros tx' Htx' i.
    unfold apply_utxo, enumerate. rewrite lookup_put_outputs.
    rewrite decide_False.
    + rewrite lookup_drop_inputs. destruct (decide _); auto.
    + intros [E _]. apply Hid0. rewrite <- E.
      apply list_elem_of_In, in_map, Htx'.
Qed.

Lemma asset_sum_apply_all a ts : forall u : UTXOSet,
  clean_on u ts -> asset_sum a (apply_all ts u) = asset_sum a u.
Proof.
  induction ts as [|tx rest IH]; intros u Hclean; [reflexivity|].
  change (apply_all (tx :: rest) u) with (apply_all rest (apply_utxo tx u)).
  rewrite (IH _ (clean_on_step _ _ _ Hclean)).
  destruct Hclean as (Hbal & Hspent & _ & Hfree).
  apply Forall_cons in Hbal. apply Forall_cons in Hfree.
  apply asset_sum_apply; [|tauto|tauto].
  unfold spent in Hspent. cbn [flat_map] in Hspent.
  now apply NoDup_app in Hspent.
Qed.

Lemma fresh_txid (u : UTXOSet) (t : string) :
  t ∉ utxo_txids u -> forall i, u !! (t, i) = None.
Proof.
  intros Hfresh i. destruct (u !! (t, i)) as [o|] eqn:E; [|reflexivity].
  exfalso. apply Hfresh. unfold utxo_txids.
  apply list_elem_of_fmap. exists ((t, i), o). split; [reflexivity|].
  now apply elem_of_map_to_list.
Qed.

(** C1 (as the code has it): a block that [mine_block] or
    [receive_block] applies leaves the sum of the unspent portions of
    every asset as it was, so an asset at 100 stays at 100, when the
    block spends cleanly: each of its transactions has an input, no
    outpoint is spent twice, and its txids are distinct and new to the
    UTXO set.  The code tests none of the three. *)
Theorem asset_sum_preserved (bc : Blockchain) (blk : Block) (bc' : Blockchain) :
  ledger_step bc blk bc' ->
  spends_cleanly (utxo bc) (txs blk) ->
  forall a, asset_sum a (utxo bc') = asset_sum a (utxo bc).
Proof.
  intros Hstep (Hins & Hspent & Hids & Hfresh) a.
  destruct (ledger_step_inv _ _ _ Hstep) as [->|(_ & Hvalid & ->)];
    [reflexivity|].
  cbn [utxo with_utxo with_tip with_blocks]. apply asset_sum_apply_all.
  split; [|split; [exact Hspent | split; [exact Hids|]]].
  - rewrite List.Forall_forall in *. intros tx Htx.
    apply validates_balanced; auto.
  - eapply Forall_impl; [exact Hfresh|]. intros tx. apply fresh_txid.
Qed.

End Conservation.

Lemma asset_sum_preserved_witness :
  ledger_step (H := keyed_hash_check) chain1 split_block chain_split
  /\ spends_cleanly (utxo chain1) (txs split_block)
  /\ asset_sum "asset-0" (utxo chain_split) = asset_sum "asset-0" (utxo chain1).
Proof.
  assert (Hstep : ledger_step (H := keyed_hash_check) chain1 split_block
                    chain_split)
    by exact (world_step (H := keyed_hash_check) _ _ _ split_received).
  assert (Hclean : spends_cleanly (utxo chain1) (txs split_block)).
  { split; [|split; [|split]].
    - constructor; [discriminate | constructor].
    - apply NoDup_singleton.
    - apply NoDup_singleton.
    - constructor; [|constructor].
      assert (Hd : bool_decide (txid split ∉ utxo_txids (utxo chain1)) = true)
        by (vm_compute; reflexivity).
      exact (bool_decide_eq_true_1 _ Hd). }
  split; [exact Hstep|]. split; [exact Hclean|].
  exact (asset_sum_preserved (H := keyed_hash_check) _ _ _ Hstep Hclean
           "asset-0").
Defined.

(** C1 (as stated) fails: after genesis [asset-0] stands at 100; a block
    with a valid proof of work whose one transaction has no inputs and
    one output of 50 of [asset-0] is accepted by [receive_block] (no
    signature is looked at, the transaction has no input), and the asset
    then stands at 150. *)
Lemma asset_sum_grows_by_coinbase :
  In "asset-0" (map asset_id (flat_map outputs (txs genesis)))
  /\ add_genesis_block genesis empty_chain = (Ok tt, chain1)
  /\ asset_sum "asset-0" (utxo chain1) = 100
  /\ inputs mint = []
  /\ receive_block (H := reject_all) 0 mint_block (world_of chain1)
     = (Ok tt, world_of chain_minted)
  /\ ledger_step (H := reject_all) chain1 mint_block chain_minted
  /\ dict_get (hash (header mint_block)) (blocks_by_hash chain_minted)
     = Some mint_block
  /\ asset_sum "asset-0" (utxo chain_minted) = 150.
Proof.
  split; [cbn; auto|]. split; [exact genesis_stored|].
  split; [vm_compute; reflexivity|]. split; [reflexivity|].
  split; [exact mint_received|].
  split; [exact (world_step (H := reject_all) _ _ _ mint_received)|].
  rewrite mint_block_hashed. split; vm_compute; reflexivity.
Qed.

(** ** The loops of the model have budget enough

    The two places where the embedding counts iterations that the code
    does not count ([merkle_loop], [pow_loop]) and the one place where it
    makes an exception of [int] explicit are shown harmless here. *)

Lemma int16_from_hex_byte (b : byte) (rest : bytes) (acc : Z) :
  int16_from acc (hex (b :: rest))
  = int16_from (256 * acc + byte_val b) (hex rest).
Proof.
  destruct b; cbn [hex];
    match goal with
    | |- int16_from _ (String ?c1 (String ?c2 _)) = int16_from (_ + ?v) _ =>
        let d1 := eval vm_compute in (digit_val c1) in
        let d2 := eval vm_compute in (digit_val c2) in
        let v' := eval vm_compute in v in
        change (int16_from acc (String c1 (String c2 (hex rest))))
          with (match d1 with
                | Some x =>
                    match d2 with
                    | Some y => int16_from (16 * (16 * acc + x) + y) (hex rest)
                    | None => None
                    end
                | None => None
                end);
        change v with v'; cbv iota beta; f_equal; lia
    end.
Qed.

Lemma int16_from_hex (bs : bytes) : forall acc,
  int16_from acc (hex bs) = Some (be_val acc bs).
Proof.
  induction bs as [|b rest IH]; intros acc; [reflexivity|].
  rewrite int16_from_hex_byte, IH. reflexivity.
Qed.

(** [int(digest.hex(), 16)] is the digest read as a big-endian number. *)
Lemma int16_hex (b : byte) (rest : bytes) :
  int16 (hex (b :: rest)) = Some (be_val 0 (b :: rest)).
Proof.
  change (int16 (hex (b :: rest))) with (int16_from 0 (hex (b :: rest))).
  apply int16_from_hex.
Qed.

Lemma round_length v k w : length v = 8%nat -> length (round v k w) = 8%nat.
Proof.
  do 9 (destruct v as [|? v]; try discriminate). reflexivity.
Qed.

Lemma rounds_length ks : forall win v,
  length v = 8%nat -> length (rounds ks win v) = 8%nat.
Proof.
  induction ks as [|k ks IH]; intros win v Hv; cbn [rounds]; [exact Hv|].
  destruct win as [|w0 rest]; [exact Hv|]. apply IH, round_length, Hv.
Qed.

Lemma add_words_length xs : forall ys,
  length xs = 8%nat -> length ys = 8%nat -> length (add_words xs ys) = 8%nat.
Proof.
  do 9 (destruct xs as [|? xs]; try discriminate).
  intros ys _ Hy. do 9 (destruct ys as [|? ys]; try discriminate).
  reflexivity.
Qed.

Lemma blocks_length n : forall ws h,
  length h = 8%nat -> length (blocks n ws h) = 8%nat.
Proof.
  induction n as [|n IH]; intros ws h Hh; cbn [blocks]; [exact Hh|].
  destruct ws; [exact Hh|].
  apply IH, add_words_length; [exact Hh | apply rounds_length, Hh].
Qed.

Lemma sha256_bytes_nonempty data :
  exists b rest, sha256_bytes data = b :: rest.
Proof.
  unfold sha256_bytes.
  pose proof (blocks_length (length (words (pad data))) (words (pad data)) H256
                eq_refl) as Hlen.
  destruct (blocks _ _ H256) as [|x xs]; [discriminate|].
  cbn [flat_map be_bytes app]. eauto.
Qed.

(** The comparison with the target never fails on a header hash. *)
Lemma below_target_hash (h : BlockHeader) :
  exists verdict, below_target (hash h) = Some verdict.
Proof.
  unfold below_target, hash, sha256_hex.
  destruct (sha256_bytes_nonempty (encode (BlockHeader_json h)))
    as (b & rest & ->).
  rewrite int16_hex.
  change (int16 TARGET_HEX) with (int16_from 0 TARGET_HEX).
  destruct (int16_from 0 TARGET_HEX) eqn:E; [eauto|].
  vm_compute in E. discriminate.
Qed.

Section Budget.
Context `{wallet.Ecdsa}.

(** If some nonce within the budget passes, the search returns the block
    of the first nonce that passes. *)
Lemma pow_loop_finds height prev root selected : forall fuel nonce bc,
  (exists n, nonce <= n < nonce + Z.of_nat fuel
             /\ below_target (hash (candidate height prev root n)) = Some true) ->
  exists n bc',
    pow_loop fuel height prev root selected nonce bc
    = (Ok {| header := candidate height prev root n; txs := selected |}, bc')
    /\ nonce <= n
    /\ below_target (hash (candidate height prev root n)) = Some true
    /\ forall m, nonce <= m < n ->
         below_target (hash (candidate height prev root m)) = Some false.
Proof.
  induction fuel as [|f IH]; intros nonce bc (n & Hn & Hpass); [lia|].
  cbn [pow_loop]. fold (candidate height prev root nonce).
  destruct (below_target_hash (candidate height prev root nonce))
    as [[|] Hhere]; rewrite Hhere.
  - exists nonce. eexists. split.
    + unfold bind, modify. rewrite apply_all_run. reflexivity.
    + split; [lia|]. split; [exact Hhere|]. intros m Hm. lia.
  - assert (n <> nonce) by (intros ->; rewrite Hpass in Hhere; discriminate).
    destruct (IH (nonce + 1) bc) as (n' & bc' & Hrun & Hle & Hpass' & Hfirst).
    { exists n. split; [lia | exact Hpass]. }
    exists n', bc'. split; [exact Hrun|]. split; [lia|].
    split; [exact Hpass'|]. intros m Hm. destruct (Z.eq_dec m nonce) as [->|]; [exact Hhere|].
    apply Hfirst. lia.
Qed.

(** A call of [mine_block] that does not return a block leaves the
    ledger as it was. *)
Lemma pow_loop_atomic height prev root selected : forall fuel nonce bc r bc',
  pow_loop fuel height prev root selected nonce bc = (r, bc') ->
  (forall blk, r <> Ok blk) -> bc' = bc.
Proof.
  induction fuel as [|f IH]; intros nonce bc r bc' Hrun Hfail;
    cbn [pow_loop] in Hrun.
  - now injection Hrun as _ <-.
  - destruct (below_target _) as [[|]|].
    + unfold bind, modify in Hrun. rewrite apply_all_run in Hrun.
      injection Hrun as <- _. now destruct (Hfail _ eq_refl).
    + eauto.
    + now injection Hrun as _ <-.
Qed.

Lemma mine_block_atomic fuel pending bc r bc' :
  mine_block fuel pending bc = (r, bc') ->
  (forall blk, r <> Ok blk) -> bc' = bc.
Proof.
  unfold mine_block, bind. intros Hrun Hfail.
  pose proof (select_valid_state pending [] bc) as Hst.
  destruct (select_valid pending [] bc) as [[selected| | |] bc1];
    cbn [snd] in Hst; subst bc1; try (now injection Hrun as _ <-).
  destruct selected as [|tx0 rest]; [now injection Hrun as _ <-|].
  destruct (utils.merkle_root _); try (now injection Hrun as _ <-).
  unfold get in Hrun. destruct (tip bc); eapply pow_loop_atomic; eauto.
Qed.

End Budget.

Lemma merkle_level_shrinks (level : list bytes) :
  (level <> [] -> utils.merkle_level level <> [])
  /\ (length (utils.merkle_level level) <= length level)%nat
  /\ (2 <= length level ->
      length (utils.merkle_level level) < length level)%nat.
Proof.
  assert (Hboth : forall l : list bytes,
             ((length (utils.merkle_level l) <= length l)%nat
              /\ (2 <= length l ->
                  length (utils.merkle_level l) < length l)%nat)
             /\ forall x,
                  (length (utils.merkle_level (x :: l)) <= S (length l))%nat
                  /\ (1 <= length l ->
                      length (utils.merkle_level (x :: l)) < S (length l))%nat).
  { induction l as [|y rest [[IH1 IH2] IH3]].
    - cbn. split; [split; lia|]. intros x. cbn. split; lia.
    - split.
      + destruct (IH3 y) as [Ha Hb]. cbn [length] in *. split; lia.
      + intros x. cbn [utils.merkle_level length]. split; lia. }
  split; [|exact (proj1 (Hboth level))].
  destruct level as [|x [|y rest]]; cbn; congruence.
Qed.

(** The budget [len(level)] of [merkle_loop] is never used up. *)
Lemma merkle_loop_total : forall fuel (level : list bytes),
  level <> [] -> (length level <= S fuel)%nat ->
  exists root, utils.merkle_loop fuel level = Ok [root].
Proof.
  induction fuel as [|f IH]; intros level Hne Hlen.
  - destruct level as [|x [|y rest]]; [congruence| |cbn in Hlen; lia].
    exists x. reflexivity.
  - destruct level as [|x [|y rest]]; [congruence|exists x; reflexivity|].
    assert (Hstep : utils.merkle_loop (S f) (x :: y :: rest)
                    = utils.merkle_loop f (utils.merkle_level (x :: y :: rest))).
    { cbn [utils.merkle_loop].
      replace (1 <? Z.of_nat (length (x :: y :: rest))) with true;
        [reflexivity|].
      symmetry. apply Z.ltb_lt. cbn [length]. lia. }
    rewrite Hstep.
    destruct (merkle_level_shrinks (x :: y :: rest)) as (Hne' & _ & Hlt).
    apply IH; [apply Hne'; discriminate|].
    cbn [length] in *. lia.
Qed.

Lemma merkle_root_total (txids : list string) (level : list bytes) :
  utils.fromhex_all txids = Some level ->
  exists root, utils.merkle_root txids = Ok root.
Proof.
  intros Hlevel. unfold utils.merkle_root.
  destruct txids as [|t rest]; [eauto|]. rewrite Hlevel.
  assert (Hne : level <> []).
  { cbn in Hlevel. destruct (fromhex t); [|discriminate].
    destruct (utils.fromhex_all rest); [|discriminate]. congruence. }
  destruct (merkle_loop_total (length level) level Hne) as [root ->]; eauto.
Qed.

Section MiningReturns.
Context `{wallet.Ecdsa}.

(** With something selected, a root, and a passing nonce within the
    budget, [mine_block] returns a block of the selected transactions. *)
Lemma mine_block_returns fuel pending bc selected root :
  select_valid pending [] bc = (Ok selected, bc) ->
  selected <> [] ->
  utils.merkle_root (map txid selected) = Ok root ->
  (exists n, 0 <= n < Z.of_nat fuel
             /\ below_target
                  (hash (candidate (fst (next_position bc))
                           (snd (next_position bc)) root n)) = Some true) ->
  exists blk bc',
    mine_block fuel pending bc = (Ok blk, bc')
    /\ txs blk = selected
    /\ below_target (hash (header blk)) = Some true.
Proof.
  intros Hsel Hne Hroot Hnonce. unfold mine_block, bind. rewrite Hsel.
  destruct selected as [|tx0 rest]; [congruence|]. rewrite Hroot.
  unfold get. unfold next_position in Hnonce.
  destruct (tip bc) as [t|]; cbn [fst snd] in Hnonce;
    (edestruct pow_loop_finds as (n & bc' & Hrun & _ & Hpass & _);
     [exact Hnonce|]; rewrite Hrun; eexists _, _;
     split; [reflexivity|]; split; [reflexivity | exact Hpass]).
Qed.

(** [FullNode.mine] on an empty mempool: nothing to mine, nothing
    changes. *)
Lemma mine_empty_mempool fuel self w nd :
  nodes w !! self = Some nd -> mempool nd = [] ->
  mine fuel self w = (Ok None, w).
Proof.
  intros Hnd Hempty. unfold mine, bind, get_node. now rewrite Hnd, Hempty.
Qed.

(** [FullNode.mine] when nothing in the mempool validates: the
    [RuntimeError] of [mine_block] is caught, [None] is returned and the
    world is as before. *)
Lemma mine_nothing_valid fuel self w nd bc :
  nodes w !! self = Some nd ->
  ledgers w !! blockchain nd = Some bc ->
  none_validates (dict_values (mempool nd)) bc ->
  mine fuel self w = (Ok None, w).
Proof.
  intros Hnd Hbc Hnone. unfold mine, bind, get_node. rewrite Hnd.
  destruct (mempool nd) as [|kv rest] eqn:Emp; [reflexivity|].
  assert (Hrun : mine_block fuel (dict_values (kv :: rest)) bc
                 = (Raise no_valid_transactions, bc)).
  { unfold mine_block, bind. now rewrite (select_valid_none _ _ Hnone). }
  now rewrite (on_ledger_read _ _ w bc _ Hbc Hrun).
Qed.

End MiningReturns.

(** ** The run of the specification's scenarios 1, 2 and 6 *)

(** After genesis both assets stand at 100. *)
Example genesis_sums :
  asset_sum "asset-0" (utxo chain1) = 100
  /\ asset_sum "asset-1" (utxo chain1) = 100.
Proof. split; vm_compute; reflexivity. Qed.

(** After the split block the trace of [asset-0] has two entries, height
    1 then height 0; the split transaction, both of whose outputs are of
    [asset-0], is there once. *)
Example trace_after_split :
  trace_asset chain_split "asset-0"
  = [ (1, split_block_hash, split); (0, genesis_hash, genesis_tx0) ].
Proof. vm_compute. reflexivity. Qed.

(** The walk from the tip after the split block: two blocks, tip first. *)
Example chain_after_split :
  build_chain_from_tip chain_split
  = Some [ (split_block_hash, split_block); (genesis_hash, genesis) ].
Proof. vm_compute. reflexivity. Qed.

(** * Part III: further properties of the code *)

(** ** When a transaction validates *)

Section Verdicts.
Context `{wallet.Ecdsa}.

Lemma check_inputs_accepts ins bc a : forall asset total,
  (asset = None \/ asset = Some a) ->
  Forall (input_bound (utxo bc) a) ins ->
  ins <> [] \/ asset = Some a ->
  check_inputs ins asset total bc
  = (Ok (inr (Some a, total + input_total (utxo bc) ins)), bc).
Proof.
  induction ins as [|inp rest IH]; intros asset total Hasset Hall Hne.
  - destruct Hne as [Hne | ->]; [congruence|]. cbn. now rewrite Z.add_0_r.
  - apply Forall_cons in Hall.
    destruct Hall as [(o & pk & Ho & Ha & Hpk & Hhash) Hall].
    cbn [check_inputs input_total]. unfold bind, utxo_get, get_output.
    fold (outpoint inp). rewrite Ho, Hpk, Hhash, String.eqb_refl.
    replace (negb _) with false.
    + rewrite Ha, (IH (Some a) (total + portion o)); auto.
      now rewrite Z.add_assoc.
    + symmetry. apply negb_false_iff.
      destruct Hasset as [-> | ->]; [reflexivity|].
      rewrite Ha. apply String.eqb_refl.
Qed.

Lemma check_inputs_accepted ins bc : forall asset total asset' total',
  fst (check_inputs ins asset total bc) = Ok (inr (asset', total')) ->
  total' = total + input_total (utxo bc) ins
  /\ forall a, asset' = Some a -> Forall (input_bound (utxo bc) a) ins.
Proof.
  induction ins as [|inp rest IH]; intros asset total asset' total';
    cbn [check_inputs input_total].
  - intros E. injection E as <- <-. split; [lia | constructor].
  - unfold bind, utxo_get, get_output. fold (outpoint inp).
    destruct (utxo bc !! outpoint inp) as [o|] eqn:Eo; [|discriminate].
    destruct (negb _); [discriminate|].
    destruct (fromhex (pubkey inp)) as [pk|] eqn:Epk; [|discriminate].
    destruct (String.eqb (sha256_hex pk) (pubkey_hash o)) eqn:Eh;
      [|discriminate].
    intros E. pose proof (check_inputs_sound _ _ _ _ _ E) as (_ & Hkeep & _).
    destruct (IH _ _ _ _ E) as [-> Hall]. split; [lia|].
    intros a Ha. constructor; [|auto].
    exists o, pk. apply String.eqb_eq in Eh.
    specialize (Hkeep _ eq_refl). repeat split; auto. congruence.
Qed.

Lemma check_outputs_accepts outs a : forall total,
  Forall (fun o => asset_id o = a) outs ->
  check_outputs outs (Some a) total = inr (total + output_total outs).
Proof.
  induction outs as [|o rest IH]; intros total Hall; cbn.
  - now rewrite Z.add_0_r.
  - apply Forall_cons in Hall. destruct Hall as [-> Hall].
    rewrite String.eqb_refl, IH by exact Hall. now rewrite Z.add_assoc.
Qed.

Lemma check_outputs_accepted outs a : forall total total',
  check_outputs outs (Some a) total = inr total' ->
  total' = total + output_total outs
  /\ Forall (fun o => asset_id o = a) outs.
Proof.
  induction outs as [|o rest IH]; intros total total'; cbn.
  - intros E. injection E as <-. split; [lia | constructor].
  - destruct (String.eqb (asset_id o) a) eqn:Ea; [|discriminate].
    apply String.eqb_eq in Ea. intros E.
    destruct (IH _ _ E) as [-> Hall]. split; [lia | now constructor].
Qed.

Lemma check_signatures_verdict ins msg :
  check_signatures ins msg
  = if forallb (fun inp => wallet.verify (pubkey inp) msg (signature inp)) ins
    then (true, "ok") else (false, "signature verification failed").
Proof.
  induction ins as [|inp rest IH]; cbn; [reflexivity|].
  destruct (wallet.verify _ _ _); cbn; [exact IH | reflexivity].
Qed.

(** [validate_transaction] says yes in two cases and no other: the
    transaction has no inputs (reason ["coinbase/genesis tx"]), or it has
    inputs and every input is unspent, of one asset and bound to its key,
    every output is of that asset, the portions balance and every
    signature verifies (reason ["ok"]). *)
Theorem validate_transaction_accepts_iff (tx : Transaction) (bc : Blockchain)
    (reason : string) :
  fst (validate_transaction tx bc) = Ok (true, reason)
  <-> (inputs tx = [] /\ reason = "coinbase/genesis tx")
      \/ (spendable bc tx /\ reason = "ok").
Proof.
  unfold validate_transaction, spendable.
  destruct (inputs tx) as [|inp0 ins0] eqn:Ei.
  { unfold ret. cbn [fst]. split.
    - intros E. left. split; [reflexivity | congruence].
    - intros [[_ ->]|[[Hne _] _]]; [reflexivity | congruence]. }
  unfold bind. split.
  - intros Hv.
    pose proof (check_inputs_sound (inp0 :: ins0) None 0 bc) as Hsound.
    pose proof (check_inputs_accepted (inp0 :: ins0) bc None 0) as Hacc.
    destruct (check_inputs (inp0 :: ins0) None 0 bc) as [[r| | |] bc1];
      cbn [fst] in *; try discriminate.
    specialize (Hsound r eq_refl).
    destruct r as [verdict|[asset total_in]].
    { cbn in Hv. injection Hv as Hv. rewrite Hv in Hsound. discriminate. }
    destruct Hsound as (_ & _ & Hsome & _).
    destruct (Hsome ltac:(discriminate)) as [a ->].
    destruct (Hacc _ _ eq_refl) as [-> Hbound].
    pose proof (check_outputs_sound (outputs tx) a 0) as Hosound.
    pose proof (check_outputs_accepted (outputs tx) a 0) as Hoacc.
    destruct (check_outputs (outputs tx) (Some a) 0) as [verdict|total_out].
    { cbn in Hv. injection Hv as Hv. rewrite Hv in Hosound. discriminate. }
    destruct (Hoacc _ eq_refl) as [-> Hout].
    destruct (_ =? _) eqn:Etot; cbn [negb] in Hv; [|cbn in Hv; discriminate].
    apply Z.eqb_eq in Etot. unfold ret in Hv. cbn [fst] in Hv.
    rewrite check_signatures_verdict in Hv.
    destruct (forallb _ _) eqn:Esig; [|discriminate].
    assert (reason = "ok") by congruence. subst reason.
    right. split; [|reflexivity].
    split; [discriminate|]. exists a. split; [now apply Hbound|].
    split; [exact Hout|]. split; [lia|].
    apply List.Forall_forall. intros inp Hin.
    rewrite forallb_forall in Esig. now apply Esig.
  - intros [[? _]|[(_ & a & Hbound & Hout & Htot & Hsig) ->]]; [discriminate|].
    rewrite (check_inputs_accepts _ _ a None 0) by auto.
    rewrite (check_outputs_accepts _ a 0 Hout). cbn [fst].
    replace (0 + input_total (utxo bc) (inp0 :: ins0) =? 0 + output_total (outputs tx))
      with true by (symmetry; apply Z.eqb_eq; lia).
    unfold ret. cbn [fst negb]. rewrite check_signatures_verdict.
    replace (forallb _ _) with true; [reflexivity|].
    symmetry. apply forallb_forall. intros inp Hin.
    rewrite List.Forall_forall in Hsig. now apply Hsig.
Qed.

End Verdicts.

(** ** A spent outpoint stays spent *)

Section Replay.
Context `{wallet.Ecdsa}.

Lemma validate_missing_first tx bc inp rest :
  inputs tx = inp :: rest ->
  utxo bc !! outpoint inp = None ->
  validate_transaction tx bc
  = (Ok (false,
         "missing UTXO for (" ++ txid_ref inp ++ ", "
           ++ str_int (index inp) ++ ")"), bc).
Proof.
  intros Ei Hmiss. unfold validate_transaction. rewrite Ei.
  cbn [check_inputs]. unfold bind, utxo_get, get_output.
  fold (outpoint inp). now rewrite Hmiss.
Qed.

Lemma lookup_apply_utxo (tx : Transaction) (u : UTXOSet) (t : string) (i : Z) :
  apply_utxo tx u !! (t, i)
  = if decide (t = txid tx /\ 0 <= i < 0 + Z.of_nat (length (outputs tx)))
    then outputs tx !! Z.to_nat (i - 0)
    else if decide ((t, i) ∈ map outpoint (inputs tx)) then None
         else u !! (t, i).
Proof.
  unfold apply_utxo, enumerate. rewrite lookup_put_outputs.
  destruct (decide _); [reflexivity|]. apply lookup_drop_inputs.
Qed.

(** After [apply_transaction(tx)] the same transaction is refused: its
    first input names an outpoint that is gone (a transaction does not
    refer to its own txid). *)
Theorem spent_outpoint_is_refused (tx : Transaction) (bc : Blockchain)
    (inp : TxInput) (rest : list TxInput) :
  inputs tx = inp :: rest ->
  txid_ref inp <> txid tx ->
  exists bc',
    apply_transaction tx bc = (Ok tt, bc')
    /\ utxo bc' !! outpoint inp = None
    /\ validate_transaction tx bc'
       = (Ok (false,
              "missing UTXO for (" ++ txid_ref inp ++ ", "
                ++ str_int (index inp) ++ ")"), bc').
Proof.
  intros Ei Hself. eexists. split; [apply apply_transaction_run|].
  assert (Hgone : utxo (with_utxo (apply_utxo tx) bc) !! outpoint inp = None).
  { cbn [utxo with_utxo]. unfold outpoint at 1. rewrite lookup_apply_utxo.
    rewrite decide_False by (intros [E _]; contradiction).
    rewrite decide_True; [reflexivity|].
    rewrite Ei. cbn [map]. apply elem_of_cons. now left. }
  split; [exact Hgone|]. now apply (validate_missing_first tx _ inp rest).
Qed.

End Replay.

Lemma spent_outpoint_is_refused_witness :
  inputs split = [split_input split_signature]
  /\ txid_ref (split_input split_signature) <> txid split
  /\ exists bc',
       apply_transaction split chain1 = (Ok tt, bc')
       /\ utxo bc' !! outpoint (split_input split_signature) = None
       /\ validate_transaction (H := keyed_hash_check) split bc'
          = (Ok (false,
                 "missing UTXO for ("
                   ++ txid_ref (split_input split_signature) ++ ", "
                   ++ str_int (index (split_input split_signature)) ++ ")"),
             bc').
Proof.
  assert (Hself : txid_ref (split_input split_signature) <> txid split)
    by (vm_compute; discriminate).
  split; [reflexivity|]. split; [exact Hself|].
  exact (spent_outpoint_is_refused (H := keyed_hash_check) split chain1
           (split_input split_signature) [] eq_refl Hself).
Defined.

(** ** What [mine_block] puts into its block *)

Example issue_mined :
  mine_block (H := reject_all) 3 [issue] chain1 = (Ok issue_block, chain_issued).
Proof. by_computing. Qed.

Lemma snoc_app {A} (l : list A) (x : A) (k : list A) :
  ((l ++ [x]) ++ k = l ++ x :: k)%list.
Proof. now rewrite <- app_assoc. Qed.

Section Selection.
Context `{wallet.Ecdsa}.

Lemma select_valid_greedy pending bc : forall selected res bc',
  select_valid pending selected bc = (Ok res, bc') ->
  (Z.of_nat (length selected) < MAX_TX_PER_BLOCK) ->
  res = take (Z.to_nat MAX_TX_PER_BLOCK)
          (selected ++ filter (fun tx => valid_now bc tx = true) pending).
Proof.
  induction pending as [|tx rest IH]; intros selected res bc' Hrun Hlen;
    cbn [select_valid] in Hrun.
  - injection Hrun as <- _. rewrite filter_nil, app_nil_r.
    symmetry. apply take_ge. unfold MAX_TX_PER_BLOCK in *. lia.
  - unfold bind in Hrun. rewrite (validate_transaction_run tx bc) in Hrun.
    rewrite filter_cons.
    assert (Hvn : valid_now bc tx
                  = match fst (validate_transaction tx bc) with
                    | Ok (true, _) => true
                    | _ => false
                    end) by reflexivity.
    destruct (fst (validate_transaction tx bc)) as [[ok reason]| | |];
      try discriminate.
    cbn [fst] in Hrun. destruct ok.
    + rewrite decide_True by exact Hvn.
      destruct (MAX_TX_PER_BLOCK <=? _) eqn:Efull.
      * injection Hrun as <- _. apply Z.leb_le in Efull.
        rewrite length_app in Efull. cbn [length] in Efull.
        rewrite <- (snoc_app selected tx
                      (filter (fun tx => valid_now bc tx = true) rest)).
        rewrite take_app_le.
        -- symmetry. apply take_ge. rewrite length_app. cbn [length].
           unfold MAX_TX_PER_BLOCK in *. lia.
        -- rewrite length_app. cbn [length]. unfold MAX_TX_PER_BLOCK in *. lia.
      * apply Z.leb_gt in Efull.
        rewrite <- (snoc_app selected tx
                      (filter (fun tx => valid_now bc tx = true) rest)).
        eapply IH; eauto.
    + rewrite decide_False by (rewrite Hvn; discriminate).
      destruct (MAX_TX_PER_BLOCK <=? _) eqn:Efull;
        [apply Z.leb_le in Efull; lia|].
      eapply IH; eauto.
Qed.

(** The block [mine_block] returns holds the first eight (or fewer) of
    the pending transactions that validate on the ledger as it was, in
    the order of the pending list, and at least one. *)
Theorem mine_block_takes_first_valid (fuel : nat)
    (pending : list Transaction) (bc : Blockchain) (blk : Block)
    (bc' : Blockchain) :
  mine_block fuel pending bc = (Ok blk, bc') ->
  txs blk = take 8 (filter (fun tx => valid_now bc tx = true) pending)
  /\ (1 <= length (txs blk) <= 8)%nat.
Proof.
  unfold mine_block, bind. intros Hrun.
  destruct (select_valid pending [] bc) as [[selected| | |] bc1] eqn:Hsel;
    try discriminate.
  pose proof (select_valid_greedy _ _ _ _ _ Hsel eq_refl) as Hgreedy.
  change (Z.to_nat MAX_TX_PER_BLOCK) with 8%nat in Hgreedy.
  rewrite app_nil_l in Hgreedy.
  pose proof (select_valid_state pending [] bc) as Hst.
  rewrite Hsel in Hst. cbn [snd] in Hst. subst bc1.
  destruct selected as [|tx0 rest]; [discriminate|].
  destruct (utils.merkle_root _); try discriminate.
  unfold get in Hrun.
  assert (Htxs : txs blk = tx0 :: rest)
    by (destruct (tip bc); apply pow_loop_inv in Hrun; tauto).
  rewrite Htxs. split; [exact Hgreedy|].
  split; [cbn; lia|]. rewrite Hgreedy, length_take. lia.
Qed.

End Selection.

Lemma mine_block_takes_first_valid_witness :
  mine_block (H := reject_all) 3 [split; issue] chain1
  = (Ok issue_block, chain_issued)
  /\ txs issue_block
     = take 8 (filter (fun tx => valid_now (H := reject_all) chain1 tx = true)
                 [split; issue])
  /\ (1 <= length (txs issue_block) <= 8)%nat.
Proof.
  assert (Hrun : mine_block (H := reject_all) 3 [split; issue] chain1
                 = (Ok issue_block, chain_issued)) by by_computing.
  split; [exact Hrun|].
  exact (mine_block_takes_first_valid (H := reject_all) 3 [split; issue]
           chain1 issue_block chain_issued Hrun).
Defined.

Section MinedHeader.
Context `{wallet.Ecdsa}.

Lemma pow_loop_first height prev root selected : forall fuel nonce bc blk bc',
  pow_loop fuel height prev root selected nonce bc = (Ok blk, bc') ->
  exists n,
    nonce <= n
    /\ blk = {| header := candidate height prev root n; txs := selected |}
    /\ forall m, nonce <= m < n ->
         below_target (hash (candidate height prev root m)) = Some false.
Proof.
  induction fuel as [|f IH]; intros nonce bc blk bc' Hrun;
    cbn [pow_loop] in Hrun; [discriminate|].
  fold (candidate height prev root nonce) in Hrun.
  destruct (below_target (hash (candidate height prev root nonce)))
    as [[|]|] eqn:Hhere; [| |discriminate].
  - unfold bind, modify in Hrun. rewrite apply_all_run in Hrun.
    injection Hrun as Hblk _.
    exists nonce. split; [lia|]. split; [now symmetry|]. intros m Hm. lia.
  - destruct (IH _ _ _ _ Hrun) as (n & Hle & Hblk & Hfirst).
    exists n. split; [lia|]. split; [exact Hblk|].
    intros m Hm. destruct (Z.eq_dec m nonce) as [->|]; [exact Hhere|].
    apply Hfirst. lia.
Qed.



End MinedHeader.



(** ** A received block is taken whole or not at all *)

Lemma with_utxo_id bc : with_utxo (fun u => u) bc = bc.
Proof. now destruct bc. Qed.

Lemma with_mempool_id nd : with_mempool (fun m => m) nd = nd.
Proof. now destruct nd. Qed.

Section ReceiveBlock.
Context `{wallet.Ecdsa}.

Lemma receive_loop_exact (self r : nat) ts : forall w nd bc,
  nodes w !! self = Some nd ->
  ledgers w !! r = Some bc ->
  for_each ts
    (fun tx =>
       run! on_ledger r (apply_transaction tx) in
       update_node self (with_mempool (dict_pop (txid tx)))) w
  = (Ok tt,
     {| ledgers := <[r := with_utxo (apply_all ts) bc]> (ledgers w);
        nodes := <[self := with_mempool (pop_all ts) nd]> (nodes w) |}).
Proof.
  induction ts as [|tx rest IH]; intros w nd bc Hnd Hbc; cbn [for_each].
  - unfold ret. f_equal. unfold apply_all, pop_all. cbn [fold_left].
    rewrite with_utxo_id, with_mempool_id.
    rewrite !list_insert_id by assumption. now destruct w.
  - unfold bind at 1. unfold bind at 1, on_ledger at 1.
    rewrite Hbc, apply_transaction_run. unfold update_node at 1.
    cbn [nodes ledgers]. rewrite Hnd.
    rewrite (IH _ (with_mempool (dict_pop (txid tx)) nd)
               (with_utxo (apply_utxo tx) bc)).
    + cbn [ledgers nodes]. rewrite !list_insert_insert_eq. reflexivity.
    + cbn. apply list_lookup_insert_eq. eapply lookup_lt_Some; eauto.
    + cbn. apply list_lookup_insert_eq. eapply lookup_lt_Some; eauto.
Qed.

Lemma validate_all_complete ts bc :
  Forall (validates bc) ts -> validate_all ts bc = (Ok true, bc).
Proof.
  induction 1 as [|tx rest [reason Hv] _ IH]; cbn [validate_all];
    [reflexivity|].
  unfold bind. rewrite (validate_transaction_run tx bc), Hv. exact IH.
Qed.

Lemma extends_tip_test bc blk :
  negb (String.eqb (height_tip_hash bc) "")
  && negb (String.eqb (prev_hash (header blk)) (height_tip_hash bc)) = false
  <-> extends_tip bc blk.
Proof.
  unfold extends_tip. rewrite andb_false_iff, !negb_false_iff, !String.eqb_eq.
  reflexivity.
Qed.

Lemma receive_block_run (w : World) (self : nat) (nd : FullNode)
    (bc : Blockchain) (blk : Block) :
  nodes w !! self = Some nd ->
  ledgers w !! blockchain nd = Some bc ->
  extends_tip bc blk ->
  below_target (hash (header blk)) = Some true ->
  Forall (validates bc) (txs blk) ->
  receive_block self blk w = (Ok tt, world_with_block w self nd bc blk).
Proof.
  intros Hnd Hbc Hext Hpow Hvalid.
  unfold receive_block, bind, get_node. rewrite Hnd.
  rewrite (on_ledger_read _ get w bc (Ok bc) Hbc eq_refl).
  rewrite (proj2 (extends_tip_test bc blk) Hext), Hpow.
  rewrite (on_ledger_read _ _ w bc _ Hbc (validate_all_complete _ _ Hvalid)).
  cbn [negb]. unfold on_ledger at 1. rewrite Hbc. unfold modify.
  rewrite (receive_loop_exact self (blockchain nd) (txs blk) _ nd
             (with_tip (hash (header blk))
                (with_blocks (dict_set (hash (header blk)) blk) bc))).
  - unfold world_with_block. cbn [ledgers nodes].
    now rewrite list_insert_insert_eq.
  - exact Hnd.
  - cbn. apply list_lookup_insert_eq. eapply lookup_lt_Some; eauto.
Qed.

(** A block that extends the tip (or meets an empty chain), passes the
    proof-of-work test and whose transactions all validate is taken in:
    the ledger stores it, makes it the tip and applies its transactions,
    the node drops their txids from its mempool, and nothing else in the
    world moves. *)
Theorem receive_block_takes_in (w : World) (self : nat) (nd : FullNode)
    (bc : Blockchain) (blk : Block) :
  nodes w !! self = Some nd ->
  ledgers w !! blockchain nd = Some bc ->
  extends_tip bc blk ->
  below_target (hash (header blk)) = Some true ->
  Forall (validates bc) (txs blk) ->
  receive_block self blk w = (Ok tt, world_with_block w self nd bc blk).
Proof. exact (receive_block_run w self nd bc blk). Qed.

(** In every other case, an exception of a validation included, the
    call leaves the world exactly as it was. *)
Theorem receive_block_refuses (w : World) (self : nat) (nd : FullNode)
    (bc : Blockchain) (blk : Block) :
  nodes w !! self = Some nd ->
  ledgers w !! blockchain nd = Some bc ->
  ~ (extends_tip bc blk
     /\ below_target (hash (header blk)) = Some true
     /\ Forall (validates bc) (txs blk)) ->
  snd (receive_block self blk w) = w.
Proof.
  intros Hnd Hbc Hno.
  unfold receive_block, bind, get_node. rewrite Hnd.
  rewrite (on_ledger_read _ get w bc (Ok bc) Hbc eq_refl).
  destruct (negb _ && negb _) eqn:Etest; [reflexivity|].
  apply extends_tip_test in Etest.
  destruct (below_target _) as [[|]|] eqn:Hpow; [|reflexivity..].
  pose proof (validate_all_state (txs blk) bc) as Hst.
  pose proof (validate_all_sound (txs blk) bc) as Hsound.
  destruct (validate_all (txs blk) bc) as [res bc1] eqn:Hval.
  cbn [snd fst] in Hst, Hsound. subst bc1.
  rewrite (on_ledger_read _ _ w bc res Hbc Hval).
  destruct res as [[|]| | |]; try reflexivity.
  exfalso. apply Hno. auto.
Qed.

End ReceiveBlock.

Lemma receive_block_takes_in_witness :
  nodes (busy_world chain1) !! 0%nat = Some busy_node
  /\ ledgers (busy_world chain1) !! blockchain busy_node = Some chain1
  /\ extends_tip chain1 split_block
  /\ below_target (hash (header split_block)) = Some true
  /\ Forall (validates (H := keyed_hash_check) chain1) (txs split_block)
  /\ receive_block (H := keyed_hash_check) 0 split_block (busy_world chain1)
     = (Ok tt, world_with_block (busy_world chain1) 0 busy_node chain1
                 split_block).
Proof.
  assert (Hext : extends_tip chain1 split_block) by (right; reflexivity).
  assert (Hpow : below_target (hash (header split_block)) = Some true)
    by (vm_compute; reflexivity).
  assert (Hvalid : Forall (validates (H := keyed_hash_check) chain1)
                     (txs split_block)).
  { constructor; [|constructor]. exists "ok". vm_compute. reflexivity. }
  split; [reflexivity|]. split; [reflexivity|]. split; [exact Hext|].
  split; [exact Hpow|]. split; [exact Hvalid|].
  exact (receive_block_takes_in (H := keyed_hash_check) (busy_world chain1) 0
           busy_node chain1 split_block eq_refl eq_refl Hext Hpow Hvalid).
Defined.

Lemma receive_block_refuses_witness :
  nodes (busy_world chain1) !! 0%nat = Some busy_node
  /\ ledgers (busy_world chain1) !! blockchain busy_node = Some chain1
  /\ ~ (extends_tip chain1 split_block
        /\ below_target (hash (header split_block)) = Some true
        /\ Forall (validates (H := reject_all) chain1) (txs split_block))
  /\ snd (receive_block (H := reject_all) 0 split_block (busy_world chain1))
     = busy_world chain1.
Proof.
  assert (Hno : ~ (extends_tip chain1 split_block
                   /\ below_target (hash (header split_block)) = Some true
                   /\ Forall (validates (H := reject_all) chain1)
                        (txs split_block))).
  { intros (_ & _ & Hvalid). apply Forall_cons in Hvalid.
    destruct Hvalid as [[reason Hv] _]. vm_compute in Hv. discriminate. }
  split; [reflexivity|]. split; [reflexivity|]. split; [exact Hno|].
  exact (receive_block_refuses (H := reject_all) (busy_world chain1) 0
           busy_node chain1 split_block eq_refl eq_refl Hno).
Defined.

(** ** The mempool after a block *)

Lemma dict_pop_keys {V} (k : string) (d : pydict V) x :
  In x (dict_keys (dict_pop k d)) -> In x (dict_keys d).
Proof.
  unfold dict_keys. induction d as [|[k' v'] rest IH]; cbn; [auto|].
  destruct (String.eqb k k'); cbn; [auto|]. intros [?|?]; auto.
Qed.

Lemma dict_pop_nodup {V} (k : string) (d : pydict V) :
  NoDup (dict_keys d) -> NoDup (dict_keys (dict_pop k d)).
Proof.
  unfold dict_keys. induction d as [|[k' v'] rest IH]; cbn; [auto|].
  intros Hnd. apply NoDup_cons in Hnd. destruct Hnd as [Hfresh Hnd].
  destruct (String.eqb k k'); cbn; [exact Hnd|].
  apply NoDup_cons. split; [|auto].
  intros Hin. apply Hfresh, list_elem_of_In.
  apply list_elem_of_In in Hin. exact (dict_pop_keys k rest k' Hin).
Qed.

Lemma dict_get_none {V} (k : string) (d : pydict V) :
  ~ In k (dict_keys d) -> dict_get k d = None.
Proof.
  unfold dict_keys. induction d as [|[k' v'] rest IH]; cbn; [reflexivity|].
  intros Hout. destruct (String.eqb k k') eqn:E.
  - apply String.eqb_eq in E. subst. exfalso. auto.
  - auto.
Qed.

Lemma dict_get_pop_eq {V} (k : string) (d : pydict V) :
  NoDup (dict_keys d) -> dict_get k (dict_pop k d) = None.
Proof.
  unfold dict_keys. induction d as [|[k' v'] rest IH]; cbn; [reflexivity|].
  intros Hnd. apply NoDup_cons in Hnd. destruct Hnd as [Hfresh Hnd].
  destruct (String.eqb k k') eqn:E; cbn.
  - apply String.eqb_eq in E. subst k'. apply dict_get_none.
    intros Hin. now apply Hfresh, list_elem_of_In.
  - rewrite E. auto.
Qed.

Lemma dict_get_pop_ne {V} (k k' : string) (d : pydict V) :
  k <> k' -> dict_get k' (dict_pop k d) = dict_get k' d.
Proof.
  intros Hne. induction d as [|[k0 v0] rest IH]; cbn; [reflexivity|].
  destruct (String.eqb k k0) eqn:E; cbn.
  - apply String.eqb_eq in E. subst k0.
    now rewrite (proj2 (String.eqb_neq k' k)) by congruence.
  - now rewrite IH.
Qed.

Lemma pop_all_nodup ts : forall mp : pydict Transaction,
  NoDup (dict_keys mp) -> NoDup (dict_keys (pop_all ts mp)).
Proof.
  induction ts as [|tx rest IH]; intros mp Hnd; [exact Hnd|].
  apply (IH (dict_pop (txid tx) mp)), dict_pop_nodup, Hnd.
Qed.

Lemma pop_all_other ts k : forall mp : pydict Transaction,
  ~ In k (map txid ts) -> dict_get k (pop_all ts mp) = dict_get k mp.
Proof.
  induction ts as [|tx rest IH]; intros mp Hout; [reflexivity|].
  cbn [map] in Hout.
  change (pop_all (tx :: rest) mp) with (pop_all rest (dict_pop (txid tx) mp)).
  rewrite IH by (intros Hin; apply Hout; now right).
  apply dict_get_pop_ne. intros E. apply Hout. now left.
Qed.

Lemma pop_all_gone ts : forall (tx : Transaction) (mp : pydict Transaction),
  NoDup (dict_keys mp) -> In tx ts -> dict_get (txid tx) (pop_all ts mp) = None.
Proof.
  induction ts as [|tx0 rest IH]; intros tx mp Hnd Hin; [destruct Hin|].
  change (pop_all (tx0 :: rest) mp) with (pop_all rest (dict_pop (txid tx0) mp)).
  destruct (in_dec String.string_dec (txid tx) (map txid rest)) as [Hlater|Hnot].
  - apply in_map_iff in Hlater. destruct Hlater as (tx' & E & Hin').
    rewrite <- E. apply IH; [now apply dict_pop_nodup | exact Hin'].
  - rewrite pop_all_other by exact Hnot.
    destruct Hin as [->|Hin]; [now apply dict_get_pop_eq|].
    exfalso. apply Hnot. now apply in_map.
Qed.

Section MempoolAfterBlock.
Context `{wallet.Ecdsa}.

(** After a block was taken in, the node's mempool (a dictionary, so
    with distinct keys) has no entry left under the txid of any
    transaction of the block, and every other entry is as before. *)
Theorem accepted_block_leaves_mempool (w : World) (self : nat) (nd : FullNode)
    (bc : Blockchain) (blk : Block) :
  nodes w !! self = Some nd ->
  ledgers w !! blockchain nd = Some bc ->
  extends_tip bc blk ->
  below_target (hash (header blk)) = Some true ->
  Forall (validates bc) (txs blk) ->
  NoDup (dict_keys (mempool nd)) ->
  exists w' nd',
    receive_block self blk w = (Ok tt, w')
    /\ nodes w' !! self = Some nd'
    /\ (forall tx, In tx (txs blk) -> dict_get (txid tx) (mempool nd') = None)
    /\ (forall k, ~ In k (map txid (txs blk)) ->
          dict_get k (mempool nd') = dict_get k (mempool nd)).
Proof.
  intros Hnd Hbc Hext Hpow Hvalid Hkeys.
  exists (world_with_block w self nd bc blk),
         (with_mempool (pop_all (txs blk)) nd).
  split; [now apply receive_block_run|].
  split; [cbn; apply list_lookup_insert_eq; eapply lookup_lt_Some; eauto|].
  split.
  - intros tx Hin. cbn. now apply pop_all_gone.
  - intros k Hout. cbn. now apply pop_all_other.
Qed.

End MempoolAfterBlock.

Lemma accepted_block_leaves_mempool_witness :
  nodes (busy_world chain1) !! 0%nat = Some busy_node
  /\ ledgers (busy_world chain1) !! blockchain busy_node = Some chain1
  /\ extends_tip chain1 split_block
  /\ below_target (hash (header split_block)) = Some true
  /\ Forall (validates (H := keyed_hash_check) chain1) (txs split_block)
  /\ NoDup (dict_keys (mempool busy_node))
  /\ exists w' nd',
       receive_block (H := keyed_hash_check) 0 split_block (busy_world chain1)
       = (Ok tt, w')
       /\ nodes w' !! 0%nat = Some nd'
       /\ (forall tx, In tx (txs split_block) ->
             dict_get (txid tx) (mempool nd') = None)
       /\ (forall k, ~ In k (map txid (txs split_block)) ->
             dict_get k (mempool nd') = dict_get k (mempool busy_node)).
Proof.
  assert (Hext : extends_tip chain1 split_block) by (right; reflexivity).
  assert (Hpow : below_target (hash (header split_block)) = Some true)
    by (vm_compute; reflexivity).
  assert (Hvalid : Forall (validates (H := keyed_hash_check) chain1)
                     (txs split_block)).
  { constructor; [|constructor]. exists "ok". vm_compute. reflexivity. }
  assert (Hkeys : NoDup (dict_keys (mempool busy_node))).
  { assert (Hd : bool_decide (NoDup (dict_keys (mempool busy_node))) = true)
      by (vm_compute; reflexivity).
    exact (bool_decide_eq_true_1 _ Hd). }
  split; [reflexivity|]. split; [reflexivity|]. split; [exact Hext|].
  split; [exact Hpow|]. split; [exact Hvalid|]. split; [exact Hkeys|].
  exact (accepted_block_leaves_mempool (H := keyed_hash_check)
           (busy_world chain1) 0 busy_node chain1 split_block
           eq_refl eq_refl Hext Hpow Hvalid Hkeys).
Defined.

(** ** The flood of any transaction *)

Lemma node_took_grows tx nd nd' :
  node_took tx nd nd' -> node_grows (txid tx) nd nd'.
Proof.
  intros [->|[Hno ->]]; [apply node_grows_refl|].
  repeat split. intros v Hv. unfold in_mempool, dict_mem in Hno.
  now rewrite Hv in Hno.
Qed.

Lemma flooded_grows tx w w' : flooded tx w w' -> grows (txid tx) w w'.
Proof.
  intros [El Hn]. split; [exact El|].
  eapply Forall2_impl; [exact Hn|]. apply node_took_grows.
Qed.

Lemma flooded_refl tx w : flooded tx w w.
Proof.
  split; [reflexivity|]. induction (nodes w); constructor; auto. now left.
Qed.

Lemma node_took_trans tx a b c :
  node_took tx a b -> node_took tx b c -> node_took tx a c.
Proof.
  intros [->|[Hno ->]] Hbc; [exact Hbc|].
  destruct Hbc as [->|[Hno' _]]; [now right|].
  unfold in_mempool, dict_mem in Hno'. cbn in Hno'.
  now rewrite dict_get_set_eq in Hno'.
Qed.

Lemma flooded_trans tx w1 w2 w3 :
  flooded tx w1 w2 -> flooded tx w2 w3 -> flooded tx w1 w3.
Proof.
  intros [E12 H12] [E23 H23]. split; [congruence|].
  revert H23. generalize (nodes w3). induction H12 as [|a b l k Hab _ IH];
    intros l3 H23; inversion H23; subst; constructor;
    eauto using node_took_trans.
Qed.

Lemma flooded_insert tx w self nd :
  nodes w !! self = Some nd ->
  in_mempool (txid tx) nd = false ->
  flooded tx w
    {| ledgers := ledgers w;
       nodes := <[self := with_mempool (dict_set (txid tx) tx) nd]> (nodes w) |}.
Proof.
  intros Hnd Hno. split; [reflexivity|]. cbn [nodes].
  revert self Hnd. induction (nodes w) as [|x rest IH]; intros [|i] Hnd;
    cbn in *; try discriminate.
  - injection Hnd as ->. constructor; [now right|].
    clear. induction rest; constructor; auto. now left.
  - constructor; [now left | auto].
Qed.

Section FloodOfAny.
Context `{wallet.Ecdsa}.

Lemma check_inputs_outcome ins : forall asset total bc,
  (exists v, fst (check_inputs ins asset total bc) = Ok v)
  \/ fst (check_inputs ins asset total bc) = Raise utils.fromhex_error.
Proof.
  induction ins as [|inp rest IH]; intros asset total bc; cbn [check_inputs].
  - left. eexists. reflexivity.
  - unfold bind, utxo_get.
    destruct (get_output _ _ _) as [u|]; [|left; eexists; reflexivity].
    destruct (negb _); [left; eexists; reflexivity|].
    destruct (fromhex (pubkey inp)) as [pk|]; [|now right].
    destruct (String.eqb _ _); [apply IH | left; eexists; reflexivity].
Qed.

Lemma validate_transaction_outcome tx bc :
  (exists v, fst (validate_transaction tx bc) = Ok v)
  \/ fst (validate_transaction tx bc) = Raise utils.fromhex_error.
Proof.
  unfold validate_transaction.
  destruct (inputs tx) as [|inp rest]; [left; eexists; reflexivity|].
  unfold bind.
  destruct (check_inputs_outcome (inp :: rest) None 0 bc) as [[v Hv]|Hr].
  - destruct (check_inputs (inp :: rest) None 0 bc) as [r bc1].
    cbn [fst] in Hv. subst r. left.
    destruct v as [verdict|[asset total_in]]; [eexists; reflexivity|].
    destruct (check_outputs _ _ _); [eexists; reflexivity|].
    destruct (negb _); eexists; reflexivity.
  - destruct (check_inputs (inp :: rest) None 0 bc) as [r bc1].
    cbn [fst] in Hr. subst r. now right.
Qed.

Lemma valid_everywhere_flooded tx w w' :
  flooded tx w w' -> valid_everywhere w tx -> valid_everywhere w' tx.
Proof. intros [El _]. unfold valid_everywhere. now rewrite El. Qed.

Lemma flood_peers_any tx f
    (IH : forall w self,
        well_formed w = true ->
        (self < length (nodes w))%nat ->
        (lacking (txid tx) (nodes w) < f)%nat ->
        flood_result tx f self w) :
  forall ps w,
    well_formed w = true ->
    Forall (fun p => (p < length (nodes w))%nat) ps ->
    (lacking (txid tx) (nodes w) < f)%nat ->
    exists r w',
      for_each ps (fun p => receive_transaction f p tx) w = (r, w')
      /\ flood_outcome r
      /\ flooded tx w w'
      /\ (valid_everywhere w tx ->
          r = Ok tt /\ Forall (holds (txid tx) w') ps).
Proof.
  induction ps as [|p rest IHps]; intros w Hwf Hps Hlack.
  - exists (Ok tt), w. split; [reflexivity|]. split; [now left|].
    split; [apply flooded_refl|]. intros _. split; [reflexivity|constructor].
  - apply Forall_cons in Hps. destruct Hps as [Hp Hrest].
    destruct (IH w p Hwf Hp Hlack) as (r1 & w1 & Hrun1 & Hout1 & Hf1 & Hv1).
    pose proof (flooded_grows _ _ _ Hf1) as Hg1.
    pose proof (Forall2_length _ _ _ (proj2 Hg1)) as Hlen.
    cbn [for_each]. unfold bind. rewrite Hrun1.
    destruct Hout1 as [->| ->].
    + destruct (IHps w1) as (r2 & w2 & Hrun2 & Hout2 & Hf2 & Hv2).
      * eauto using well_formed_grows.
      * now rewrite <- Hlen.
      * pose proof (lacking_grows _ _ _ (proj2 Hg1)). lia.
      * exists r2, w2. split; [exact Hrun2|]. split; [exact Hout2|].
        split; [eauto using flooded_trans|].
        intros Hall. destruct (Hv1 Hall) as [_ Hh1].
        destruct (Hv2 (valid_everywhere_flooded _ _ _ Hf1 Hall)) as [-> Hh2].
        split; [reflexivity|]. constructor; [|exact Hh2].
        eauto using holds_grows, flooded_grows.
    + exists (Raise utils.fromhex_error), w1.
      split; [reflexivity|]. split; [now right|]. split; [exact Hf1|].
      intros Hall. destruct (Hv1 Hall) as [E _]. discriminate.
Qed.

Lemma flood_step tx f
    (IH : forall w self,
        well_formed w = true ->
        (self < length (nodes w))%nat ->
        (lacking (txid tx) (nodes w) < f)%nat ->
        flood_result tx f self w) :
  forall w self nd,
    well_formed w = true ->
    nodes w !! self = Some nd ->
    (lacking (txid tx) (nodes w) < S f)%nat ->
    exists r w',
      receive_transaction (S f) self tx w = (r, w')
      /\ flood_outcome r
      /\ flooded tx w w'
      /\ (valid_everywhere w tx ->
          r = Ok tt
          /\ holds (txid tx) w' self
          /\ (in_mempool (txid tx) nd = false ->
              Forall (holds (txid tx) w') (peers nd))).
Proof.
  intros w self nd Hwf Hnd Hlack.
  assert (Hself : (self < length (nodes w))%nat)
    by (eapply lookup_lt_Some; eauto).
  cbn [receive_transaction]. unfold bind at 1, get_node. rewrite Hnd.
  destruct (dict_mem (txid tx) (mempool nd)) eqn:Emem.
  { exists (Ok tt), w. split; [reflexivity|]. split; [now left|].
    split; [apply flooded_refl|]. intros _. split; [reflexivity|].
    split; [now exists nd|]. unfold in_mempool. now rewrite Emem. }
  destruct (well_formed_node _ _ _ Hwf Hnd) as [Hb Hpeers].
  destruct (lookup_lt_is_Some_2 _ _ Hb) as [bc Hbc].
  unfold bind at 1.
  rewrite (on_ledger_read _ _ w bc _ Hbc (validate_transaction_run tx bc)).
  assert (Hvalid : valid_everywhere w tx -> validates bc tx).
  { intros Hall. unfold valid_everywhere in Hall.
    rewrite List.Forall_forall in Hall. apply Hall.
    apply list_elem_of_In, list_elem_of_lookup. eauto. }
  destruct (validate_transaction_outcome tx bc) as [[[ok reason] Hv]|Hr].
  2:{ rewrite Hr. exists (Raise utils.fromhex_error), w.
      split; [reflexivity|]. split; [now right|].
      split; [apply flooded_refl|]. intros Hall.
      destruct (Hvalid Hall) as [reason Hv]. congruence. }
  rewrite Hv. cbn [fst]. destruct ok; cbn [negb].
  2:{ exists (Ok tt), w. split; [reflexivity|]. split; [now left|].
      split; [apply flooded_refl|]. intros Hall.
      destruct (Hvalid Hall) as [reason' Hv']. congruence. }
  unfold bind at 1, update_node. rewrite Hnd.
  set (nd1 := with_mempool (dict_set (txid tx) tx) nd).
  set (w1 := {| ledgers := ledgers w; nodes := <[self := nd1]> (nodes w) |}).
  assert (Hin1 : in_mempool (txid tx) nd1 = true).
  { unfold in_mempool, dict_mem, nd1. cbn. now rewrite dict_get_set_eq. }
  assert (Hf1 : flooded tx w w1) by (now apply flooded_insert).
  pose proof (flooded_grows _ _ _ Hf1) as Hg1.
  assert (Hlen : length (nodes w1) = length (nodes w))
    by apply length_insert.
  destruct (flood_peers_any tx f IH (peers nd) w1)
    as (r2 & w2 & Hrun & Hout & Hf2 & Hv2).
  - eauto using well_formed_grows.
  - now rewrite Hlen.
  - pose proof (lacking_insert (txid tx) (nodes w) self nd nd1 Hnd Emem Hin1)
      as Hless.
    cbn [nodes w1]. clear -Hless Hlack. lia.
  - exists r2, w2. split; [exact Hrun|]. split; [exact Hout|].
    split; [eauto using flooded_trans|].
    intros Hall.
    destruct (Hv2 (valid_everywhere_flooded _ _ _ Hf1 Hall)) as [-> Hh2].
    split; [reflexivity|]. split; [|intros _; exact Hh2].
    apply (holds_grows _ w1 w2); [now apply flooded_grows|].
    exists nd1. split; [|exact Hin1]. cbn. now apply list_lookup_insert_eq.
Qed.

Lemma flood_any tx : forall fuel w self,
  well_formed w = true ->
  (self < length (nodes w))%nat ->
  (lacking (txid tx) (nodes w) < fuel)%nat ->
  flood_result tx fuel self w.
Proof.
  induction fuel as [|f IH]; intros w self Hwf Hself Hlack;
    [clear -Hlack; lia|].
  destruct (lookup_lt_is_Some_2 _ _ Hself) as [nd Hnd].
  destruct (flood_step tx f IH w self nd Hwf Hnd Hlack)
    as (r & w' & Hrun & Hout & Hf & Hv).
  exists r, w'. split; [exact Hrun|]. split; [exact Hout|].
  split; [exact Hf|]. intros Hall. destruct (Hv Hall) as (E & Hh & _). auto.
Qed.

(** The flood of any transaction ends, whatever the peer lists (cycles
    and a full mesh included): with a budget above the number of nodes
    the call returns, or raises the [ValueError] of a key that is not
    hex; no ledger is written, and a node changes at most by taking the
    transaction under its txid into a mempool that had no entry there. *)
Theorem receive_transaction_ends (w : World) (self : nat) (tx : Transaction)
    (fuel : nat) :
  well_formed w = true ->
  (self < length (nodes w))%nat ->
  (length (nodes w) < fuel)%nat ->
  exists r w',
    receive_transaction fuel self tx w = (r, w')
    /\ flood_outcome r
    /\ flooded tx w w'.
Proof.
  intros Hwf Hself Hfuel.
  pose proof (lacking_le_length (txid tx) (nodes w)) as Hle.
  destruct (flood_any tx fuel w self Hwf Hself)
    as (r & w' & Hrun & Hout & Hf & _); [clear -Hle Hfuel; lia|].
  exists r, w'. auto.
Qed.

(** A transaction that validates on every ledger of the world and
    reaches a node without an entry for its txid is taken by that node
    and handed on: after the call the node and each of its peers hold
    an entry for the txid. *)
Theorem valid_transaction_floods (w : World) (self : nat) (nd : FullNode)
    (tx : Transaction) (fuel : nat) :
  well_formed w = true ->
  nodes w !! self = Some nd ->
  in_mempool (txid tx) nd = false ->
  valid_everywhere w tx ->
  (length (nodes w) < fuel)%nat ->
  exists w',
    receive_transaction fuel self tx w = (Ok tt, w')
    /\ flooded tx w w'
    /\ holds (txid tx) w' self
    /\ Forall (holds (txid tx) w') (peers nd).
Proof.
  intros Hwf Hnd Hno Hall Hfuel.
  destruct fuel as [|f]; [clear -Hfuel; lia|].
  pose proof (lacking_le_length (txid tx) (nodes w)) as Hle.
  destruct (flood_step tx f (flood_any tx f) w self nd Hwf Hnd)
    as (r & w' & Hrun & _ & Hf & Hv); [clear -Hle Hfuel; lia|].
  destruct (Hv Hall) as (-> & Hh & Hp). exists w'. auto.
Qed.

(** A transaction whose txid the node already holds, or that does not
    validate on the node's ledger (an exception of the validation
    included), changes nothing and is not handed on. *)
Theorem receive_transaction_refuses (w : World) (self : nat) (nd : FullNode)
    (bc : Blockchain) (tx : Transaction) (fuel : nat) :
  nodes w !! self = Some nd ->
  ledgers w !! blockchain nd = Some bc ->
  in_mempool (txid tx) nd = true \/ ~ validates bc tx ->
  snd (receive_transaction (S fuel) self tx w) = w.
Proof.
  intros Hnd Hbc Hcase.
  cbn [receive_transaction]. unfold bind at 1, get_node. rewrite Hnd.
  destruct (dict_mem (txid tx) (mempool nd)) eqn:Emem; [reflexivity|].
  destruct Hcase as [Hin|Hno];
    [unfold in_mempool in Hin; congruence|].
  unfold bind at 1.
  rewrite (on_ledger_read _ _ w bc _ Hbc (validate_transaction_run tx bc)).
  destruct (fst (validate_transaction tx bc)) as [[ok reason]| | |] eqn:Hv;
    try reflexivity.
  destruct ok; [|reflexivity]. exfalso. apply Hno. now exists reason.
Qed.

End FloodOfAny.

Lemma receive_transaction_ends_witness :
  well_formed (mesh_of chain1) = true
  /\ (0 < length (nodes (mesh_of chain1)))%nat
  /\ (length (nodes (mesh_of chain1)) < 4)%nat
  /\ exists r w',
       receive_transaction (H := reject_all) 4 0 split (mesh_of chain1)
       = (r, w')
       /\ flood_outcome r
       /\ flooded split (mesh_of chain1) w'.
Proof.
  split; [reflexivity|]. split; [cbn; lia|]. split; [cbn; lia|].
  exact (receive_transaction_ends (H := reject_all) (mesh_of chain1) 0 split 4
           eq_refl (Nat.lt_0_succ 2) (Nat.lt_succ_diag_r 3)).
Defined.

Lemma valid_transaction_floods_witness :
  well_formed (mesh_of chain1) = true
  /\ nodes (mesh_of chain1) !! 0%nat = Some mesh_node0
  /\ in_mempool (txid split) mesh_node0 = false
  /\ valid_everywhere (H := keyed_hash_check) (mesh_of chain1) split
  /\ (length (nodes (mesh_of chain1)) < 4)%nat
  /\ exists w',
       receive_transaction (H := keyed_hash_check) 4 0 split (mesh_of chain1)
       = (Ok tt, w')
       /\ flooded split (mesh_of chain1) w'
       /\ holds (txid split) w' 0
       /\ Forall (holds (txid split) w') (peers mesh_node0).
Proof.
  assert (Hall : valid_everywhere (H := keyed_hash_check) (mesh_of chain1)
                   split).
  { constructor; [|constructor]. exists "ok". vm_compute. reflexivity. }
  split; [reflexivity|]. split; [reflexivity|]. split; [reflexivity|].
  split; [exact Hall|]. split; [cbn; lia|].
  exact (valid_transaction_floods (H := keyed_hash_check) (mesh_of chain1) 0
           mesh_node0 split 4 eq_refl eq_refl eq_refl Hall
           (Nat.lt_succ_diag_r 3)).
Defined.

Lemma receive_transaction_refuses_witness :
  nodes (mesh_of chain1) !! 0%nat = Some mesh_node0
  /\ ledgers (mesh_of chain1) !! blockchain mesh_node0 = Some chain1
  /\ (in_mempool (txid split) mesh_node0 = true
      \/ ~ validates (H := reject_all) chain1 split)
  /\ snd (receive_transaction (H := reject_all) 1 0 split (mesh_of chain1))
     = mesh_of chain1.
Proof.
  assert (Hno : ~ validates (H := reject_all) chain1 split).
  { intros [reason Hv]. vm_compute in Hv. discriminate. }
  split; [reflexivity|]. split; [reflexivity|]. split; [now right|].
  exact (receive_transaction_refuses (H := reject_all) (mesh_of chain1) 0
           mesh_node0 chain1 split 0 eq_refl eq_refl (or_intror Hno)).
Defined.

(** ** Hex strings and keys *)

Lemma fromhex_hex_byte (b : byte) (rest : bytes) :
  fromhex (hex (b :: rest))
  = match fromhex (hex rest) with
    | Some bs => Some (b :: bs)
    | None => None
    end.
Proof. destruct b; reflexivity. Qed.

Lemma fromhex_hex (bs : bytes) : fromhex (hex bs) = Some bs.
Proof.
  induction bs as [|b rest IH]; [reflexivity|].
  now rewrite fromhex_hex_byte, IH.
Qed.

(** The key a wallet puts into its inputs ([pubkey_hex]) reads back as
    the wallet's key, and its hash is the wallet's [pubkey_hash]: the
    owner test of [validate_transaction],
    [sha256_hex(bytes.fromhex(inp.pubkey)) != utxo.pubkey_hash], passes
    for an output paid to the wallet and does not raise. *)
Theorem wallet_key_passes_owner_test (w : wallet.Wallet) :
  exists pk,
    fromhex (wallet.pubkey_hex w) = Some pk
    /\ pk = wallet.pubkey_bytes w
    /\ sha256_hex pk = wallet.pubkey_hash w.
Proof.
  exists (wallet.pubkey_bytes w). unfold wallet.pubkey_hex.
  rewrite fromhex_hex. auto.
Qed.

(** ** The hash that is signed *)

Lemma TxInput_json_unsigned (i : TxInput) :
  TxInput_json false (unsigned i) = TxInput_json false i.
Proof. reflexivity. Qed.

(** [message_hash] does not read the signatures: two transactions with
    the same outputs and the same inputs up to their signatures have the
    same message hash, so the hash signed on the draft with empty
    signatures is the hash verified on the signed transaction. *)
Theorem message_hash_ignores_signatures (tx tx' : Transaction) :
  map unsigned (inputs tx) = map unsigned (inputs tx') ->
  outputs tx = outputs tx' ->
  message_hash tx = message_hash tx'.
Proof.
  intros Hin Hout. unfold message_hash, _serialize. rewrite Hout.
  replace (map (TxInput_json false) (inputs tx))
    with (map (TxInput_json false) (map unsigned (inputs tx)))
    by (rewrite map_map; apply map_ext, TxInput_json_unsigned).
  rewrite Hin, map_map.
  now rewrite (map_ext _ _ TxInput_json_unsigned).
Qed.

Lemma message_hash_ignores_signatures_witness :
  map unsigned (inputs split)
  = map unsigned (inputs (new_Transaction [split_input ""] split_outputs))
  /\ outputs split = outputs (new_Transaction [split_input ""] split_outputs)
  /\ message_hash split
     = message_hash (new_Transaction [split_input ""] split_outputs).
Proof.
  split; [reflexivity|]. split; [reflexivity|].
  exact (message_hash_ignores_signatures split
           (new_Transaction [split_input ""] split_outputs)
           eq_refl eq_refl).
Defined.

(** ** The Merkle root of a list of odd length *)

Lemma merkle_loop_step f (level : list bytes) :
  (2 <= length level)%nat ->
  utils.merkle_loop (S f) level = utils.merkle_loop f (utils.merkle_level level).
Proof.
  intros Hlen. cbn [utils.merkle_loop].
  replace (1 <? Z.of_nat (length level)) with true; [reflexivity|].
  symmetry. apply Z.ltb_lt. lia.
Qed.

Lemma merkle_loop_more : forall f (level : list bytes) r,
  utils.merkle_loop f level = Ok r ->
  forall f', (f <= f')%nat -> utils.merkle_loop f' level = Ok r.
Proof.
  induction f as [|f IH]; intros level r Hrun f' Hle.
  - destruct f'; [exact Hrun|]. cbn [utils.merkle_loop] in *.
    destruct (1 <? Z.of_nat (length level)); [discriminate | exact Hrun].
  - destruct f' as [|f']; [lia|]. cbn [utils.merkle_loop] in *.
    destruct (1 <? Z.of_nat (length level)); [|exact Hrun].
    apply (IH _ _ Hrun). lia.
Qed.

Lemma merkle_level_repeats_last (b : bytes) : forall n (level : list bytes),
  length level = (2 * n)%nat ->
  utils.merkle_level (level ++ [b]) = utils.merkle_level (level ++ [b; b]).
Proof.
  induction n as [|n IH]; intros level Hlen.
  - destruct level; [reflexivity | discriminate].
  - destruct level as [|x [|y rest]]; cbn [length] in Hlen; try lia.
    cbn [app utils.merkle_level]. f_equal. apply IH. lia.
Qed.

Lemma fromhex_all_app (l k : list string) :
  utils.fromhex_all (l ++ k)
  = match utils.fromhex_all l, utils.fromhex_all k with
    | Some a, Some b => Some (a ++ b)%list
    | _, _ => None
    end.
Proof.
  induction l as [|t rest IH]; cbn [app utils.fromhex_all].
  - now destruct (utils.fromhex_all k).
  - destruct (fromhex t); [|reflexivity]. rewrite IH.
    destruct (utils.fromhex_all rest); [|reflexivity].
    now destruct (utils.fromhex_all k).
Qed.

Lemma fromhex_all_length (l : list string) : forall level,
  utils.fromhex_all l = Some level -> length level = length l.
Proof.
  induction l as [|t rest IH]; intros level; cbn [utils.fromhex_all].
  - now intros [= <-].
  - destruct (fromhex t); [|discriminate].
    destruct (utils.fromhex_all rest) as [bs|]; [|discriminate].
    intros [= <-]. cbn. now rewrite (IH bs).
Qed.

(** For three or more txids of odd number, repeating the last one does
    not change the root: the pairing loop pairs a last element without
    partner with itself, so the lists [... t] and [... t t] have one
    and the same Merkle root (and raise the same [ValueError] when a
    txid is not hex). *)
Theorem merkle_root_repeats_last (txids : list string) (t : string) :
  txids <> [] ->
  Nat.Even (length txids) ->
  utils.merkle_root (txids ++ [t]) = utils.merkle_root (txids ++ [t; t]).
Proof.
  intros Hne [n Hn]. destruct txids as [|a rest]; [congruence|].
  unfold utils.merkle_root. cbn [app].
  change (a :: (rest ++ [t])%list) with ((a :: rest) ++ [t])%list.
  change (a :: (rest ++ [t; t])%list) with ((a :: rest) ++ [t; t])%list.
  rewrite !fromhex_all_app.
  destruct (utils.fromhex_all (a :: rest)) as [bs|] eqn:Ebs; [|reflexivity].
  cbn [utils.fromhex_all]. destruct (fromhex t) as [b|]; [|reflexivity].
  apply fromhex_all_length in Ebs. rewrite Hn in Ebs.
  assert (Hn1 : (1 <= n)%nat) by (cbn [length] in Hn; lia).
  rewrite !length_app, Ebs. cbn [length].
  replace (2 * n + 1)%nat with (S (2 * n)) by lia.
  replace (2 * n + 2)%nat with (S (S (2 * n))) by lia.
  rewrite !merkle_loop_step by (rewrite length_app, Ebs; cbn [length]; lia).
  rewrite <- (merkle_level_repeats_last b n bs Ebs).
  destruct (merkle_level_shrinks (bs ++ [b])) as (Hne' & Hle & _).
  destruct (merkle_loop_total (2 * n) (utils.merkle_level (bs ++ [b])))
    as [root Hroot].
  - apply Hne'. now destruct bs.
  - rewrite length_app, Ebs in Hle. cbn [length] in Hle. lia.
  - rewrite Hroot.
    now rewrite (merkle_loop_more _ _ _ Hroot (S (2 * n)) (Nat.le_succ_diag_r _)).
Qed.

Lemma merkle_root_repeats_last_witness :
  [txid genesis_tx0; txid genesis_tx1] <> []
  /\ Nat.Even (length [txid genesis_tx0; txid genesis_tx1])
  /\ utils.merkle_root ([txid genesis_tx0; txid genesis_tx1] ++ [txid mint])
     = utils.merkle_root
         ([txid genesis_tx0; txid genesis_tx1] ++ [txid mint; txid mint]).
Proof.
  assert (Hne : [txid genesis_tx0; txid genesis_tx1] <> []) by discriminate.
  assert (Hev : Nat.Even (length [txid genesis_tx0; txid genesis_tx1]))
    by (exists 1%nat; reflexivity).
  split; [exact Hne|]. split; [exact Hev|].
  exact (merkle_root_repeats_last [txid genesis_tx0; txid genesis_tx1]
           (txid mint) Hne Hev).
Defined.

(** ** Outputs looked up in the chain *)

Lemma find_in_txs_some ts t i o :
  find_in_txs ts t i = Some o ->
  exists tx, In tx ts /\ txid tx = t /\ 0 <= i
             /\ outputs tx !! Z.to_nat i = Some o.
Proof.
  induction ts as [|tx rest IH]; cbn [find_in_txs]; [discriminate|].
  destruct (String.eqb (txid tx) t && (0 <=? i)
            && (i <? Z.of_nat (length (outputs tx)))) eqn:E.
  - apply andb_true_iff in E. destruct E as [E _].
    apply andb_true_iff in E. destruct E as [Et Ei].
    apply String.eqb_eq in Et. apply Z.leb_le in Ei.
    intros Ho. exists tx. cbn. auto.
  - intros Ho. destruct (IH Ho) as (tx' & Hin & Hrest).
    exists tx'. cbn. auto.
Qed.

Lemma find_in_txs_none ts t i :
  find_in_txs ts t i = None ->
  forall tx, In tx ts -> txid tx = t ->
             ~ (0 <= i < Z.of_nat (length (outputs tx))).
Proof.
  induction ts as [|tx rest IH]; cbn [find_in_txs]; [intros _ tx []|].
  destruct (String.eqb (txid tx) t && (0 <=? i)
            && (i <? Z.of_nat (length (outputs tx)))) eqn:E.
  - intros Ho. exfalso.
    apply andb_true_iff in E. destruct E as [E Hi].
    apply andb_true_iff in E. destruct E as [_ Hi0].
    apply Z.leb_le in Hi0. apply Z.ltb_lt in Hi.
    apply lookup_ge_None in Ho. lia.
  - intros Hnone tx' [<-|Hin] Ht; [|now apply IH].
    intros [Hi0 Hi].
    rewrite (proj2 (String.eqb_eq _ _) Ht) in E.
    rewrite (proj2 (Z.leb_le _ _) Hi0) in E.
    rewrite (proj2 (Z.ltb_lt _ _) Hi) in E. discriminate.
Qed.

(** [find_output_in_chain(txid, index)] returns output number [index]
    of a stored transaction with that txid when there is one with that
    many outputs, and [None] otherwise; a negative index finds nothing
    (it never counts from the end of the list). *)
Theorem find_output_in_chain_spec (bc : Blockchain) (t : string) (i : Z) :
  match find_output_in_chain bc t i with
  | Some o =>
      exists tx, in_chain bc t i tx /\ outputs tx !! Z.to_nat i = Some o
  | None => forall tx, ~ in_chain bc t i tx
  end.
Proof.
  unfold find_output_in_chain, in_chain.
  induction (dict_values (blocks_by_hash bc)) as [|blk rest IH];
    cbn [find_output_in_chain_from].
  - intros tx [[blk [[] _]] _].
  - destruct (find_in_txs (txs blk) t i) as [o|] eqn:E.
    + destruct (find_in_txs_some _ _ _ _ E) as (tx & Hin & Ht & Hi0 & Ho).
      exists tx. split; [|exact Ho]. split; [exists blk; cbn; auto|].
      split; [exact Ht|]. split; [exact Hi0|].
      apply lookup_lt_Some in Ho. lia.
    + destruct (find_output_in_chain_from rest t i) as [o|].
      * destruct IH as (tx & ([blk' [Hb Hin]] & Hrest) & Ho).
        exists tx. split; [|exact Ho]. split; [|exact Hrest].
        exists blk'. cbn. auto.
      * intros tx ([blk' [[<-|Hb] Hin]] & Ht & Hi).
        -- exact (find_in_txs_none _ _ _ E tx Hin Ht Hi).
        -- apply (IH tx). eauto.
Qed.

(** ** The genesis block *)

Lemma genesis_txs_run (ws : list wallet.Wallet) : forall m k,
  0 <= k ->
  (Z.to_nat k + m <= length ws)%nat ->
  utils.genesis_txs (seqZ k (Z.of_nat m)) ws
  = Ok (zip_with endowment (seqZ k (Z.of_nat m)) (drop (Z.to_nat k) ws)).
Proof.
  induction m as [|m IH]; intros k Hk Hlen; [reflexivity|].
  rewrite seqZ_cons by lia.
  replace (Z.pred (Z.of_nat (S m))) with (Z.of_nat m) by lia.
  cbn [utils.genesis_txs].
  destruct (lookup_lt_is_Some_2 ws (Z.to_nat k)) as [w Hw]; [lia|].
  rewrite Hw, (drop_S _ _ _ Hw).
  rewrite (IH (Z.succ k)) by lia.
  replace (Z.to_nat (Z.succ k)) with (S (Z.to_nat k)) by lia.
  reflexivity.
Qed.

Lemma genesis_txs_index_error (ws : list wallet.Wallet) i : forall ids,
  In i ids -> ws !! Z.to_nat i = None ->
  utils.genesis_txs ids ws = Raise (IndexError "list index out of range").
Proof.
  induction ids as [|j rest IH]; intros Hin Hnone; [destruct Hin|].
  cbn [utils.genesis_txs].
  destruct (ws !! Z.to_nat j) as [w|] eqn:Ej; [|reflexivity].
  destruct Hin as [->|Hin]; [congruence|]. now rewrite (IH Hin Hnone).
Qed.

Lemma fromhex_all_digests (ts : list string) :
  Forall (fun t => exists bs, t = hex bs) ts ->
  exists level, utils.fromhex_all ts = Some level.
Proof.
  induction 1 as [|t rest [bs ->] _ [level IH]]; cbn [utils.fromhex_all].
  - eauto.
  - rewrite fromhex_hex, IH. eauto.
Qed.

Lemma endowment_txids (ids : list Z) : forall ws : list wallet.Wallet,
  Forall (fun t => exists bs, t = hex bs)
    (map txid (zip_with endowment ids ws)).
Proof.
  induction ids as [|i rest IH]; intros [|w ws]; cbn; constructor; auto.
  eexists. reflexivity.
Qed.

(** [create_genesis(n, wallets)] with at least [n] wallets returns a
    block of [n] transactions, the one for asset number [i] without
    inputs and with the single output (["asset-i"], hash of wallet [i],
    100); its header has height 0, 64 zeros as previous hash, nonce 0
    and the Merkle root of the txids, whose computation does not
    raise. *)
Theorem create_genesis_endows (n : Z) (ws : list wallet.Wallet) :
  n <= Z.of_nat (length ws) ->
  exists root,
    utils.merkle_root (map txid (zip_with endowment (seqZ 0 n) ws)) = Ok root
    /\ utils.create_genesis n ws
       = Ok {| header := {| height := 0; prev_hash := utils.zero_hash;
                            models.merkle_root := root; nonce := 0 |};
               txs := zip_with endowment (seqZ 0 n) ws |}.
Proof.
  intros Hn. unfold utils.create_genesis.
  assert (Hrun : utils.genesis_txs (seqZ 0 n) ws
                 = Ok (zip_with endowment (seqZ 0 n) ws)).
  { destruct (Z.le_gt_cases n 0) as [Hneg|Hpos].
    - unfold seqZ. replace (Z.to_nat n) with 0%nat by lia. reflexivity.
    - rewrite <- (Z2Nat.id n) by lia.
      rewrite (genesis_txs_run ws (Z.to_nat n) 0) by lia. reflexivity. }
  rewrite Hrun.
  destruct (fromhex_all_digests _ (endowment_txids (seqZ 0 n) ws))
    as [level Hlevel].
  destruct (merkle_root_total _ _ Hlevel) as [root Hroot].
  exists root. now rewrite Hroot.
Qed.

(** With fewer wallets than assets the indexing [initial_wallets[i]]
    raises [IndexError] and no block is built. *)
Theorem create_genesis_short_of_wallets (n : Z) (ws : list wallet.Wallet) :
  Z.of_nat (length ws) < n ->
  utils.create_genesis n ws = Raise (IndexError "list index out of range").
Proof.
  intros Hn. unfold utils.create_genesis.
  rewrite (genesis_txs_index_error ws (Z.of_nat (length ws))); [reflexivity| |].
  - apply list_elem_of_In, elem_of_seqZ. lia.
  - apply lookup_ge_None. lia.
Qed.

Lemma create_genesis_endows_witness :
  2 <= Z.of_nat (length [w0; w1])
  /\ exists root,
       utils.merkle_root (map txid (zip_with endowment (seqZ 0 2) [w0; w1]))
       = Ok root
       /\ utils.create_genesis 2 [w0; w1]
          = Ok {| header := {| height := 0; prev_hash := utils.zero_hash;
                               models.merkle_root := root; nonce := 0 |};
                  txs := zip_with endowment (seqZ 0 2) [w0; w1] |}.
Proof.
  assert (Hn : 2 <= Z.of_nat (length [w0; w1])) by (cbn; lia).
  split; [exact Hn|]. exact (create_genesis_endows 2 [w0; w1] Hn).
Defined.

Lemma create_genesis_short_of_wallets_witness :
  Z.of_nat (length [w0; w1]) < 3
  /\ utils.create_genesis 3 [w0; w1]
     = Raise (IndexError "list index out of range").
Proof.
  assert (Hn : Z.of_nat (length [w0; w1]) < 3) by (cbn; lia).
  split; [exact Hn|]. exact (create_genesis_short_of_wallets 3 [w0; w1] Hn).
Defined.

(** ** Mining on a ledger the peers share *)

Lemma pop_loop (self : nat) ts : forall w nd,
  nodes w !! self = Some nd ->
  for_each ts
    (fun tx => update_node self (with_mempool (dict_pop (txid tx)))) w
  = (Ok tt,
     {| ledgers := ledgers w;
        nodes := <[self := with_mempool (pop_all ts) nd]> (nodes w) |}).
Proof.
  induction ts as [|tx rest IH]; intros w nd Hnd; cbn [for_each].
  - unfold ret. f_equal. unfold pop_all. cbn [fold_left].
    rewrite with_mempool_id, list_insert_id by assumption. now destruct w.
  - unfold bind at 1, update_node at 1. rewrite Hnd.
    rewrite (IH _ (with_mempool (dict_pop (txid tx)) nd)).
    + cbn [ledgers nodes]. now rewrite list_insert_insert_eq.
    + cbn. apply list_lookup_insert_eq. eapply lookup_lt_Some; eauto.
Qed.

Section SharedLedger.
Context `{wallet.Ecdsa}.

Lemma peers_refuse (blk : Block) (w : World) : forall ps,
  Forall
    (fun p =>
       exists ndp bcp,
         nodes w !! p = Some ndp
         /\ ledgers w !! blockchain ndp = Some bcp
         /\ height_tip_hash bcp <> ""
         /\ prev_hash (header blk) <> height_tip_hash bcp) ps ->
  for_each ps (fun p => receive_block p blk) w = (Ok tt, w).
Proof.
  induction 1 as [|p rest (ndp & bcp & Hnd & Hbc & Htip & Hprev) _ IH];
    [reflexivity|].
  cbn [for_each]. unfold bind at 1.
  assert (Hrun : receive_block p blk w = (Ok tt, w)).
  { unfold receive_block, bind, get_node. rewrite Hnd.
    rewrite (on_ledger_read _ get w bcp (Ok bcp) Hbc eq_refl).
    apply eqb_false_ne in Htip. apply eqb_false_ne in Hprev.
    now rewrite Htip, Hprev. }
  rewrite Hrun. exact IH.
Qed.

(** [mine] of a node whose peers work on the node's own ledger object
    (the deployment of the command line): when [mine_block] returns a
    block, the ledger is the one [mine_block] left, the node remembers
    the block and pops its txids from its mempool, and every peer
    returns from [receive_block] at the test on the previous hash,
    because the shared tip is the new block already; the peers and
    their mempools are exactly as before. *)
Theorem mine_on_shared_ledger (fuel : nat) (w : World) (self : nat)
    (nd : FullNode) (bc : Blockchain) (blk : Block) (bc' : Blockchain) :
  nodes w !! self = Some nd ->
  ledgers w !! blockchain nd = Some bc ->
  mempool nd <> [] ->
  mine_block fuel (dict_values (mempool nd)) bc = (Ok blk, bc') ->
  Forall (shares_ledger w nd) (peers nd) ->
  hash (header blk) <> prev_hash (header blk) ->
  mine fuel self w = (Ok (Some blk), world_after_mine w self nd bc' blk).
Proof.
  intros Hnd Hbc Hne Hrun Hpeers Hloop.
  pose proof (mine_block_inv _ _ _ _ _ Hrun) as (Hpow & _ & Hbc').
  assert (Hself : (self < length (nodes w))%nat)
    by (eapply lookup_lt_Some; eauto).
  assert (Hr : (blockchain nd < length (ledgers w))%nat)
    by (eapply lookup_lt_Some; eauto).
  unfold mine, bind at 1, get_node. rewrite Hnd.
  destruct (mempool nd) as [|kv rest] eqn:Emp; [congruence|].
  rewrite <- Emp in *. unfold on_ledger. rewrite Hbc, Hrun.
  unfold bind at 1, update_node at 1. cbn [nodes ledgers]. rewrite Hnd.
  set (nd1 := {| node_id := node_id nd; blockchain := blockchain nd;
                 mempool := mempool nd; peers := peers nd;
                 last_mined_block := Some blk |}).
  unfold bind at 1.
  rewrite (pop_loop self (txs blk) _ nd1)
    by (cbn; now apply list_lookup_insert_eq).
  cbn [ledgers nodes]. rewrite list_insert_insert_eq.
  change (with_mempool (pop_all (txs blk)) nd1)
    with {| node_id := node_id nd; blockchain := blockchain nd;
            mempool := pop_all (txs blk) (mempool nd); peers := peers nd;
            last_mined_block := Some blk |}.
  fold (world_after_mine w self nd bc' blk).
  unfold bind at 1. rewrite peers_refuse; [reflexivity|].
  eapply Forall_impl; [exact Hpeers|].
  intros p (ndp & Hp & Hshare).
  assert (Htip : height_tip_hash bc' = hash (header blk))
    by (now rewrite Hbc').
  assert (Hledger : forall r, r = blockchain nd ->
            ledgers (world_after_mine w self nd bc' blk) !! r = Some bc').
  { intros r ->. cbn. now apply list_lookup_insert_eq. }
  assert (Hgood : height_tip_hash bc' <> ""
                  /\ prev_hash (header blk) <> height_tip_hash bc').
  { rewrite Htip. split; [|congruence].
    intros E. rewrite E in Hpow. vm_compute in Hpow. discriminate. }
  destruct (Nat.eq_dec p self) as [->|Hother].
  - eexists _, bc'. split; [cbn; now apply list_lookup_insert_eq|].
    split; [now apply Hledger|]. exact Hgood.
  - exists ndp, bc'. split; [cbn; now rewrite list_lookup_insert_ne|].
    split; [now apply Hledger|]. exact Hgood.
Qed.

End SharedLedger.

Lemma mine_on_shared_ledger_witness :
  nodes (mining_mesh chain1) !! 0%nat = Some miner
  /\ ledgers (mining_mesh chain1) !! blockchain miner = Some chain1
  /\ mempool miner <> []
  /\ mine_block (H := reject_all) 3 (dict_values (mempool miner)) chain1
     = (Ok issue_block, chain_issued)
  /\ Forall (shares_ledger (mining_mesh chain1) miner) (peers miner)
  /\ hash (header issue_block) <> prev_hash (header issue_block)
  /\ mine (H := reject_all) 3 0 (mining_mesh chain1)
     = (Ok (Some issue_block),
        world_after_mine (mining_mesh chain1) 0 miner chain_issued issue_block).
Proof.
  assert (Hne : mempool miner <> []) by discriminate.
  assert (Hpeers : Forall (shares_ledger (mining_mesh chain1) miner)
                     (peers miner)).
  { repeat constructor; eexists; split; reflexivity. }
  assert (Hloop : hash (header issue_block) <> prev_hash (header issue_block)).
  { intros E. vm_compute in E. discriminate. }
  split; [reflexivity|]. split; [reflexivity|]. split; [exact Hne|].
  split; [exact issue_mined|]. split; [exact Hpeers|]. split; [exact Hloop|].
  exact (mine_on_shared_ledger (H := reject_all) 3 (mining_mesh chain1) 0 miner
           chain1 issue_block chain_issued eq_refl eq_refl Hne issue_mined
           Hpeers Hloop).
Defined.

(** ** The network the command line builds *)

Lemma mesh_nodes_length n r ps : length (mesh_nodes n r ps) = n.
Proof. unfold mesh_nodes. now rewrite length_map, length_seq. Qed.

Lemma mesh_nodes_lookup n r ps k :
  (k < n)%nat ->
  mesh_nodes n r ps !! k
  = Some (with_peers (fun _ => ps k) (cli.new_node k r)).
Proof.
  intros Hk. unfold mesh_nodes.
  rewrite list_lookup_fmap, lookup_seq_lt by exact Hk. reflexivity.
Qed.

Lemma mesh_nodes_ext n r ps ps' :
  (forall k, (k < n)%nat -> ps k = ps' k) ->
  mesh_nodes n r ps = mesh_nodes n r ps'.
Proof.
  intros Hext. unfold mesh_nodes. apply map_ext_in. intros k Hk.
  apply in_seq in Hk. rewrite Hext by lia. reflexivity.
Qed.

Lemma mesh_nodes_insert n r ps k l :
  (k < n)%nat ->
  <[k := with_peers (fun _ => l) (cli.new_node k r)]> (mesh_nodes n r ps)
  = mesh_nodes n r (fun x => if (x =? k)%nat then l else ps x).
Proof.
  intros Hk. apply list_eq. intros x.
  destruct (Nat.lt_ge_cases x n) as [Hx|Hx].
  - rewrite (mesh_nodes_lookup _ _ _ _ Hx).
    destruct (Nat.eq_dec x k) as [->|Hne].
    + rewrite list_lookup_insert_eq by (now rewrite mesh_nodes_length).
      now rewrite Nat.eqb_refl.
    + rewrite list_lookup_insert_ne by congruence.
      rewrite (mesh_nodes_lookup _ _ _ _ Hx).
      now rewrite (proj2 (Nat.eqb_neq x k) Hne).
  - transitivity (@None FullNode);
      [|symmetry]; apply lookup_ge_None;
      rewrite ?length_insert, mesh_nodes_length; exact Hx.
Qed.

Lemma connect_peer_mesh (L : list Blockchain) n r ps i j :
  (i < n)%nat ->
  j ∉ ps i ->
  connect_peer i j {| ledgers := L; nodes := mesh_nodes n r ps |}
  = (Ok tt,
     {| ledgers := L;
        nodes := mesh_nodes n r
                   (fun x => if (x =? i)%nat then (ps i ++ [j])%list
                             else ps x) |}).
Proof.
  intros Hi Hfresh. unfold connect_peer, update_node. cbn [nodes ledgers].
  rewrite (mesh_nodes_lookup _ _ _ _ Hi). cbn [peers with_peers].
  rewrite bool_decide_eq_false_2 by exact Hfresh.
  now rewrite <- (mesh_nodes_insert n r ps i (ps i ++ [j]) Hi).
Qed.

Lemma append_nodes (L : list Blockchain) (r : nat) : forall d n,
  for_each (seq n d) (fun i => cli.append_node (cli.new_node i r))
    {| ledgers := L; nodes := mesh_nodes n r (fun _ => []) |}
  = (Ok tt, {| ledgers := L; nodes := mesh_nodes (n + d) r (fun _ => []) |}).
Proof.
  induction d as [|d IH]; intros n; cbn [seq for_each].
  - now rewrite Nat.add_0_r.
  - unfold bind, cli.append_node at 1, modify. cbn [ledgers nodes].
    replace (mesh_nodes n r (fun _ => []) ++ [cli.new_node n r])%list
      with (mesh_nodes (S n) r (fun _ => [])).
    + rewrite IH. now replace (S n + d)%nat with (n + S d)%nat by lia.
    + unfold mesh_nodes. rewrite seq_S, map_app. reflexivity.
Qed.

Lemma seq_snoc_in (a b x : nat) :
  x ∈ (seq 0 a ++ seq (S a) b)%list ->
  (x < a \/ S a <= x < S a + b)%nat.
Proof.
  rewrite elem_of_app, !elem_of_seq. lia.
Qed.

Lemma peers_at_inner n i j :
  (i < j)%nat -> (j < n)%nat ->
  forall k, (k < n)%nat ->
    (if (k =? j)%nat then (seq 0 i ++ [i])%list
     else if (k =? i)%nat
          then ((seq 0 i ++ seq (S i) (j - S i)) ++ [j])%list
          else peers_at n i j k)
    = peers_at n i (S j) k.
Proof.
  intros Hij Hjn k Hk. unfold peers_at.
  destruct (Nat.eqb_spec k j) as [->|Hkj].
  - rewrite (proj2 (Nat.ltb_ge j i)) by lia.
    rewrite (proj2 (Nat.eqb_neq j i)) by lia.
    rewrite (proj2 (Nat.ltb_lt j (S j))) by lia.
    now rewrite seq_S.
  - destruct (Nat.eqb_spec k i) as [->|Hki].
    + rewrite Nat.ltb_irrefl, <- app_assoc. f_equal.
      replace (S j - S i)%nat with (S (j - S i)) by lia.
      rewrite seq_S. do 2 f_equal. lia.
    + destruct (k <? i)%nat; [reflexivity|].
      destruct (Nat.ltb_spec k j), (Nat.ltb_spec k (S j)); try reflexivity; lia.
Qed.

Lemma connect_pairs (L : list Blockchain) n r i :
  (i < n)%nat ->
  forall d j,
    (i < j)%nat -> (j + d = n)%nat ->
    for_each (seq j d)
      (fun j => run! connect_peer i j in connect_peer j i)
      {| ledgers := L; nodes := mesh_nodes n r (peers_at n i j) |}
    = (Ok tt, {| ledgers := L; nodes := mesh_nodes n r (peers_at n i n) |}).
Proof.
  intros Hi. induction d as [|d IH]; intros j Hij Hn; cbn [seq for_each].
  - replace j with n by lia. reflexivity.
  - unfold bind at 1. unfold bind at 1.
    rewrite connect_peer_mesh; [|exact Hi|].
    2:{ unfold peers_at. rewrite Nat.ltb_irrefl, Nat.eqb_refl.
        intros Hin. apply seq_snoc_in in Hin. lia. }
    rewrite connect_peer_mesh; [|lia|].
    2:{ rewrite (proj2 (Nat.eqb_neq j i)) by lia. unfold peers_at.
        rewrite (proj2 (Nat.ltb_ge j i)) by lia.
        rewrite (proj2 (Nat.eqb_neq j i)) by lia.
        rewrite Nat.ltb_irrefl, elem_of_seq. lia. }
    rewrite (mesh_nodes_ext n r _ (peers_at n i (S j))).
    + apply IH; lia.
    + intros k Hk. rewrite <- (peers_at_inner n i j Hij ltac:(lia) k Hk).
      destruct (Nat.eqb_spec k j) as [->|Hkj].
      * rewrite (proj2 (Nat.eqb_neq j i)) by lia. unfold peers_at.
        rewrite (proj2 (Nat.ltb_ge j i)) by lia.
        rewrite (proj2 (Nat.eqb_neq j i)) by lia.
        now rewrite Nat.ltb_irrefl.
      * destruct (Nat.eqb_spec k i) as [->|Hki]; [|reflexivity].
        unfold peers_at. now rewrite Nat.ltb_irrefl, Nat.eqb_refl.
Qed.

Lemma peers_at_outer n i :
  (S i <= n)%nat ->
  forall k, (k < n)%nat -> peers_at n i n k = peers_at n (S i) (S (S i)) k.
Proof.
  intros Hi k Hk. unfold peers_at, others.
  destruct (Nat.ltb_spec k i), (Nat.ltb_spec k (S i)); try lia.
  - reflexivity.
  - assert (k = i) by lia. subst k. now rewrite Nat.eqb_refl.
  - rewrite (proj2 (Nat.eqb_neq k i)) by lia.
    rewrite (proj2 (Nat.ltb_lt k n)) by lia.
    destruct (Nat.eqb_spec k (S i)) as [->|Hne].
    + replace (S (S i) - S (S i))%nat with 0%nat by lia.
      cbn [seq]. now rewrite app_nil_r.
    + now rewrite (proj2 (Nat.ltb_ge k (S (S i)))) by lia.
Qed.

Lemma connect_all (L : list Blockchain) n r : forall d i,
  (i + d = n)%nat ->
  for_each (seq i d)
    (fun i =>
       for_each (seq (S i) (n - S i))
         (fun j => run! connect_peer i j in connect_peer j i))
    {| ledgers := L; nodes := mesh_nodes n r (peers_at n i (S i)) |}
  = (Ok tt, {| ledgers := L; nodes := mesh_nodes n r (others n) |}).
Proof.
  induction d as [|d IH]; intros i Hn; cbn [seq for_each].
  - unfold ret. do 2 f_equal. apply mesh_nodes_ext. intros k Hk.
    unfold peers_at. now rewrite (proj2 (Nat.ltb_lt k i)) by lia.
  - unfold bind at 1.
    rewrite (connect_pairs L n r i ltac:(lia) (n - S i) (S i)) by lia.
    rewrite (mesh_nodes_ext n r _ _ (peers_at_outer n i ltac:(lia))).
    apply IH. lia.
Qed.

Lemma others_spec n k x : (k < n)%nat ->
  x ∈ others n k <-> (x < n)%nat /\ x <> k.
Proof.
  intros Hk. unfold others. rewrite elem_of_app, !elem_of_seq. lia.
Qed.

Lemma others_nodup n k : NoDup (others n k).
Proof.
  unfold others. apply NoDup_app. split; [apply NoDup_seq|].
  split; [|apply NoDup_seq]. intros x. rewrite !elem_of_seq. lia.
Qed.

(** [initiate fullNodes l] on a ledger and no nodes yet builds the full
    mesh: [l] nodes ["F0"], ["F1"], ... on the one ledger, with empty
    mempools, node [k] having every other node as a peer, once each and
    in ascending order, and not itself; every reference in the world
    names an object. *)
Theorem initiate_fullnodes_full_mesh (l : Z) (r : nat) (w : World) :
  nodes w = [] ->
  (r < length (ledgers w))%nat ->
  cli.initiate_fullnodes l (Some r) w
  = (Ok tt,
     {| ledgers := ledgers w;
        nodes := mesh_nodes (Z.to_nat l) r (others (Z.to_nat l)) |})
  /\ well_formed
       {| ledgers := ledgers w;
          nodes := mesh_nodes (Z.to_nat l) r (others (Z.to_nat l)) |} = true
  /\ forall k, (k < Z.to_nat l)%nat ->
       NoDup (others (Z.to_nat l) k)
       /\ forall p, p ∈ others (Z.to_nat l) k
                    <-> (p < Z.to_nat l)%nat /\ p <> k.
Proof.
  intros Hnodes Hr. set (n := Z.to_nat l). split; [|split].
  - unfold cli.initiate_fullnodes, bind at 1, get. rewrite Hnodes.
    fold n. unfold bind.
    replace w with {| ledgers := ledgers w;
                      nodes := mesh_nodes 0 r (fun _ => []) |} at 1
      by (destruct w; cbn in *; now subst).
    rewrite (append_nodes (ledgers w) r n 0). cbn [Nat.add].
    rewrite (mesh_nodes_ext n r _ (peers_at n 0 1)).
    + apply (connect_all (ledgers w) n r n 0). lia.
    + intros k Hk. unfold peers_at.
      destruct k as [|[|k]]; reflexivity.
  - unfold well_formed. cbn [ledgers nodes]. apply forallb_forall.
    intros nd Hin. unfold mesh_nodes in Hin. apply in_map_iff in Hin.
    destruct Hin as (k & <- & Hk). apply in_seq in Hk.
    cbn [blockchain peers with_peers cli.new_node].
    apply andb_true_iff. split; [now apply Nat.ltb_lt|].
    apply forallb_forall. intros p Hp. apply list_elem_of_In in Hp.
    rewrite mesh_nodes_length. apply Nat.ltb_lt.
    apply others_spec in Hp; lia.
  - intros k Hk. split; [apply others_nodup | intros p; now apply others_spec].
Qed.

Lemma initiate_fullnodes_full_mesh_witness :
  nodes {| ledgers := [chain1]; nodes := [] |} = []
  /\ (0 < length (ledgers {| ledgers := [chain1]; nodes := [] |}))%nat
  /\ cli.initiate_fullnodes 3 (Some 0%nat) {| ledgers := [chain1]; nodes := [] |}
     = (Ok tt, mesh_of chain1).
Proof.
  split; [reflexivity|]. split; [cbn; lia|].
  exact (proj1 (initiate_fullnodes_full_mesh 3 0
                  {| ledgers := [chain1]; nodes := [] |}
                  eq_refl (Nat.lt_0_succ 0))).
Defined.

(** ** Blocks stored and loaded *)

Lemma TxInput_round_trip (i : TxInput) :
  TxInput_from_dict (TxInput_to_dict true i) = Some i.
Proof. now destruct i. Qed.

Lemma TxOutput_round_trip (o : TxOutput) :
  TxOutput_from_dict (TxOutput_to_dict o) = Some o.
Proof. now destruct o. Qed.

Lemma mapM_map_Some {A B C} (f : B -> option C) (g : A -> B) (k : A -> C)
    (l : list A) :
  (forall x, f (g x) = Some (k x)) ->
  mapM (M := option) f (map g l) = Some (map k l).
Proof.
  intros Hfg. induction l as [|x rest IH]; [reflexivity|].
  cbn. rewrite Hfg. cbn. now rewrite IH.
Qed.

(** A block written with [_block_to_dict] and read with
    [_block_from_dict] comes back with its header, its inputs and its
    outputs, whatever hash and time were stored with it; the txids are
    computed anew, so the block comes back equal exactly when each of
    its transactions carried the txid of its serialisation. *)
Theorem block_dict_round_trip (now : Z) (blk : Block) (h : string) :
  _block_from_dict (_block_to_dict now blk h) = Some (reloaded blk)
  /\ (reloaded blk = blk
      <-> Forall (fun tx => txid tx = compute_txid (inputs tx) (outputs tx))
            (txs blk)).
Proof.
  split.
  - unfold _block_from_dict, _block_to_dict, reloaded. cbn.
    destruct blk as [[hh ph mr nn] ts]. cbn.
    unfold list_item. cbn.
    rewrite (mapM_map_Some Transaction_from_dict _
               (fun tx => new_Transaction (inputs tx) (outputs tx)));
      [reflexivity|].
    intros tx. unfold Transaction_from_dict, list_item. cbn.
    rewrite (mapM_fmap_Some _ _ _ TxInput_round_trip).
    now rewrite (mapM_fmap_Some _ _ _ TxOutput_round_trip).
  - unfold reloaded. destruct blk as [hd ts]. cbn. split.
    + intros [= E]. induction ts as [|tx rest IH]; constructor.
      * injection E as E _. now rewrite <- E at 1.
      * apply IH. now injection E.
    + intros Hall. f_equal. induction Hall as [|tx rest Ht _ IH]; [reflexivity|].
      cbn. rewrite IH. f_equal. destruct tx. cbn in *. now subst.
Qed.

(** ** What the master process shows *)

Lemma trace_asset_sorted (bc : Blockchain) (a : string) :
  StronglySorted (newer_first entry_height) (trace_asset bc a).
Proof.
  replace (trace_asset bc a)
    with (flat_map (trace_entries a)
            (sort_desc (fun kv => height (header (snd kv)))
               (dict_items (blocks_by_hash bc)))).
  - apply trace_sorted, sort_desc_sorted.
  - unfold trace_asset. apply flat_map_ext. intros kv.
    symmetry. apply trace_block_entries.
Qed.

Lemma sorted_split {A} (R : A -> A -> Prop) (shown dropped : list A) :
  StronglySorted R (shown ++ dropped) ->
  Forall (fun e => Forall (R e) dropped) shown.
Proof.
  induction shown as [|x rest IH]; cbn; [constructor|].
  intros Hs. apply StronglySorted_inv in Hs. destruct Hs as [Hs Hx].
  constructor; [|auto]. apply Forall_app in Hx. tauto.
Qed.

(** [trace asset k] shows a front part of the ledger's trace: its first
    [k] entries for [k >= 0], all but its last [-k] for [k < 0], all of
    it for [ALL]; no entry left out comes from a higher block than an
    entry shown. *)
Theorem master_trace_shows_newest (bc : Blockchain) (a : string)
    (limit : option Z) :
  exists dropped,
    trace_asset bc a
    = (processes.trace_asset bc a limit ++ dropped)%list
    /\ length (processes.trace_asset bc a limit)
       = match limit with
         | None => length (trace_asset bc a)
         | Some k =>
             if 0 <=? k
             then Nat.min (Z.to_nat k) (length (trace_asset bc a))
             else Z.to_nat (Z.of_nat (length (trace_asset bc a)) + k)
         end
    /\ Forall
         (fun shown =>
            Forall (fun d => entry_height d <= entry_height shown) dropped)
         (processes.trace_asset bc a limit).
Proof.
  pose proof (trace_asset_sorted bc a) as Hs.
  assert (Htake : forall n,
    exists dropped,
      trace_asset bc a = (take n (trace_asset bc a) ++ dropped)%list
      /\ Forall
           (fun shown =>
              Forall (fun d => entry_height d <= entry_height shown) dropped)
           (take n (trace_asset bc a))).
  { intros n. exists (drop n (trace_asset bc a)).
    split; [now rewrite take_drop|].
    apply (sorted_split (newer_first entry_height)).
    now rewrite take_drop. }
  unfold processes.trace_asset. destruct limit as [k|].
  - unfold slice_to. destruct (0 <=? k) eqn:Ek.
    + destruct (Htake (Z.to_nat k)) as (dropped & E & Hd).
      exists dropped. split; [exact E|]. split; [|exact Hd].
      now rewrite length_take.
    + destruct (Htake (Z.to_nat (Z.of_nat (length (trace_asset bc a)) + k)))
        as (dropped & E & Hd).
      exists dropped. split; [exact E|]. split; [|exact Hd].
      rewrite length_take. apply Z.leb_gt in Ek. lia.
  - destruct (Htake (length (trace_asset bc a))) as (dropped & E & Hd).
    rewrite firstn_all in E, Hd. exists dropped. auto.
Qed.

Section MasterReport.
Context `{wallet.Ecdsa}.

(** The report of [verify_transaction] on a block whose first
    transaction has no inputs and at least one output (every genesis
    transaction, every transaction [validate_transaction] accepts as
    ["coinbase/genesis tx"]): the output loop compares the asset of the
    first output with [None], so the report ends with the line of the
    failed output check and never reaches the line of success. *)
Theorem master_refuses_coinbase (w : World) (ledger : nat) (id : string)
    (from_last_block : bool) (node : FullNode) (node_bc bc : Blockchain)
    (tx : Transaction) (rest : list Transaction) (hd : BlockHeader) :
  processes.find_node (nodes w) id = Some node ->
  ledgers w !! blockchain node = Some node_bc ->
  ledgers w !! ledger = Some bc ->
  (if from_last_block then last_mined_block node else tip node_bc)
  = Some {| header := hd; txs := tx :: rest |} ->
  inputs tx = [] ->
  outputs tx <> [] ->
  processes.verify_transaction w ledger id from_last_block []
  = (Ok tt, [processes.leftmost (txid tx); processes.output_mismatch])
  /\ fst (validate_transaction tx bc) = Ok (true, "coinbase/genesis tx").
Proof.
  intros Hnode Hnbc Hbc Hblk Hin Hout. split.
  - unfold processes.verify_transaction. rewrite Hnode, Hnbc, Hbc, Hblk, Hin.
    destruct (outputs tx) as [|o outs]; [congruence|]. reflexivity.
  - unfold validate_transaction. now rewrite Hin.
Qed.

End MasterReport.

Lemma master_refuses_coinbase_witness :
  processes.find_node (nodes (world_of chain1)) "F0" = Some node0
  /\ ledgers (world_of chain1) !! blockchain node0 = Some chain1
  /\ ledgers (world_of chain1) !! 0%nat = Some chain1
  /\ tip chain1
     = Some {| header := header genesis;
               txs := genesis_tx0 :: [genesis_tx1] |}
  /\ inputs genesis_tx0 = []
  /\ outputs genesis_tx0 <> []
  /\ processes.verify_transaction (H := reject_all) (world_of chain1) 0 "F0"
       false []
     = (Ok tt, [processes.leftmost (txid genesis_tx0);
                processes.output_mismatch])
  /\ fst (validate_transaction (H := reject_all) genesis_tx0 chain1)
     = Ok (true, "coinbase/genesis tx").
Proof.
  assert (Htip : tip chain1
                 = Some {| header := header genesis;
                           txs := genesis_tx0 :: [genesis_tx1] |})
    by (vm_compute; reflexivity).
  assert (Hout : outputs genesis_tx0 <> []) by discriminate.
  split; [reflexivity|]. split; [reflexivity|]. split; [reflexivity|].
  split; [exact Htip|]. split; [reflexivity|]. split; [exact Hout|].
  exact (master_refuses_coinbase (H := reject_all) (world_of chain1) 0 "F0"
           false node0 chain1 chain1 genesis_tx0 [genesis_tx1]
           (header genesis) eq_refl eq_refl eq_refl Htip eq_refl Hout).
Defined.

(** ** The transactions the user process makes *)

Lemma choice_in {A} (xs : list A) g x g' :
  choice xs g = (Ok x, g') -> In x xs.
Proof.
  destruct xs as [|x0 rest]; [discriminate|].
  unfold choice, bind, draw, ret. intros E.
  assert (Hx : x = nth (supply g (used g) mod length (x0 :: rest))
                     (x0 :: rest) x0) by congruence.
  rewrite Hx. apply nth_In, Nat.mod_upper_bound. discriminate.
Qed.

Lemma choice_returns {A} (xs : list A) g :
  xs <> [] -> exists x g', choice xs g = (Ok x, g').
Proof.
  destruct xs as [|x0 rest]; [congruence|]. intros _.
  unfold choice, bind, draw, ret. eauto.
Qed.

Lemma randint_range a b g z g' :
  randint a b g = (Ok z, g') -> a <= z <= b.
Proof.
  unfold randint. destruct (a <=? b) eqn:E; [|discriminate].
  apply Z.leb_le in E. unfold bind, draw, ret. intros Hz.
  assert (Hx : z = a + Z.of_nat (supply g (used g)) mod (b - a + 1))
    by congruence.
  pose proof (Z.mod_pos_bound (Z.of_nat (supply g (used g))) (b - a + 1)).
  lia.
Qed.

Lemma randint_returns a b g :
  a <= b -> exists z g', randint a b g = (Ok z, g').
Proof.
  intros Hab. unfold randint. rewrite (proj2 (Z.leb_le a b) Hab).
  unfold bind, draw, ret. eauto.
Qed.

Lemma output_total_app (l k : list TxOutput) :
  output_total (l ++ k) = output_total l + output_total k.
Proof. induction l as [|o rest IH]; cbn; [reflexivity|]. rewrite IH. lia. Qed.


Lemma find_owner_finds ws h :
  (exists w, In w ws /\ wallet.pubkey_hash w = h) ->
  exists w, generators.find_owner ws h = Some w.
Proof.
  intros (w & Hin & Hh). induction ws as [|w0 rest IH]; [destruct Hin|].
  cbn. destruct (String.eqb (wallet.pubkey_hash w0) h) eqn:E; [eauto|].
  destruct Hin as [->|Hin]; [|auto].
  rewrite Hh, String.eqb_refl in E. discriminate.
Qed.

Section GeneratorProofs.
Context `{wallet.Ecdsa}.
Variable ecdsa_sign : wallet.Wallet -> bytes -> nat -> bytes.


Lemma random_outputs_inv ws a k : forall n j remaining outs0 g outs g',
  j + Z.of_nat n = k ->
  generators.random_outputs ws a k (seqZ j (Z.of_nat n)) remaining outs0 g
  = (Ok outs, g') ->
  exists new,
    outs = (outs0 ++ new)%list
    /\ Forall (fun o => asset_id o = a) new
    /\ length new = n
    /\ ((1 <= n)%nat -> output_total new = remaining).
Proof.
  induction n as [|n IH]; intros j remaining outs0 g outs g' Hk Hrun.
  - cbn in Hrun. injection Hrun as <- _. exists [].
    rewrite app_nil_r. repeat split; [constructor | lia].
  - rewrite seqZ_cons in Hrun by lia.
    replace (Z.pred (Z.of_nat (S n))) with (Z.of_nat n) in Hrun by lia.
    cbn [generators.random_outputs] in Hrun. unfold bind at 1 in Hrun.
    destruct (choice ws g) as [[w| | |] g1]; try discriminate.
    unfold bind at 1 in Hrun.
    destruct (j =? k - 1) eqn:Elast.
    + apply Z.eqb_eq in Elast. assert (n = 0%nat) by lia. subst n.
      unfold ret at 1 in Hrun. cbn in Hrun. injection Hrun as <- _.
      eexists [_]. split; [reflexivity|].
      split; [repeat constructor|]. split; [reflexivity|].
      intros _. cbn. lia.
    + destruct (randint 1 (remaining - (k - j - 1)) g1) as [[p| | |] g2];
        try discriminate.
      apply Z.eqb_neq in Elast.
      destruct (IH (Z.succ j) _ _ _ _ _ ltac:(lia) Hrun)
        as (new & -> & Ha & Hlen & Ht).
      eexists (_ :: new). rewrite <- app_assoc. split; [reflexivity|].
      split; [constructor; [reflexivity | exact Ha]|].
      split; [cbn; lia|]. intros _. cbn [output_total portion].
      rewrite Ht by lia. lia.
Qed.

Lemma random_outputs_returns ws a k : forall n j remaining outs0 g,
  ws <> [] ->
  j + Z.of_nat n = k ->
  Z.of_nat n <= remaining ->
  exists outs g',
    generators.random_outputs ws a k (seqZ j (Z.of_nat n)) remaining outs0 g
    = (Ok outs, g')
    /\ forall new, outs = (outs0 ++ new)%list ->
                   Forall (fun o => 1 <= portion o) new.
Proof.
  induction n as [|n IH]; intros j remaining outs0 g Hws Hk Hrem.
  - exists outs0, g. split; [reflexivity|]. intros new E.
    rewrite <- (app_nil_r outs0) in E at 1. apply app_inv_head in E.
    subst. constructor.
  - rewrite seqZ_cons by lia.
    replace (Z.pred (Z.of_nat (S n))) with (Z.of_nat n) by lia.
    cbn [generators.random_outputs]. unfold bind at 1.
    destruct (choice_returns ws g Hws) as (w & g1 & ->).
    unfold bind at 1. destruct (j =? k - 1) eqn:Elast.
    + apply Z.eqb_eq in Elast. assert (n = 0%nat) by lia. subst n.
      unfold ret at 1. cbn. eexists _, _. split; [reflexivity|].
      intros new E. apply app_inv_head in E. subst new.
      repeat constructor. cbn. lia.
    + apply Z.eqb_neq in Elast.
      destruct (randint_returns 1 (remaining - (k - j - 1)) g1 ltac:(lia))
        as (p & g2 & Hp).
      rewrite Hp. apply randint_range in Hp.
      destruct (IH (Z.succ j) (remaining - p)
                  (outs0 ++ [ {| asset_id := a;
                                 pubkey_hash := wallet.pubkey_hash w;
                                 portion := p |} ])%list g2 Hws)
        as (outs & g' & Hrun & Hpos); [lia | lia |].
      exists outs, g'. split; [exact Hrun|].
      intros new E.
      destruct (random_outputs_inv ws a k n (Z.succ j) _ _ _ _ _
                  ltac:(lia) Hrun) as (new' & E' & _).
      rewrite E', <- app_assoc in E. apply app_inv_head in E. subst new.
      constructor; [cbn; lia|]. apply Hpos. exact E'.
Qed.



(** On a ledger with something unspent, where every unspent output has
    a portion of at least 3 and an owner among the wallets,
    [create_random_valid_tx] returns a transaction for every draw of
    the generator (no [None], no exception), and every output of it has
    a portion of at least 1. *)
Theorem random_valid_tx_returns (bc : Blockchain) (ws : list wallet.Wallet)
    (g : rng) :
  utxo bc <> ∅ ->
  splittable bc ws ->
  exists tx g',
    generators.create_random_valid_tx ecdsa_sign bc ws g = (Ok (Some tx), g')
    /\ Forall (fun o => 1 <= portion o) (outputs tx).
Proof.
  intros Hne Hsplit. unfold generators.create_random_valid_tx.
  destruct (map_to_list (utxo bc)) as [|kv0 rest] eqn:El.
  { apply map_to_list_empty_iff in El. congruence. }
  unfold bind at 1.
  destruct (choice_returns (kv0 :: rest) g ltac:(discriminate))
    as ([[t i] u] & g1 & Ec).
  rewrite Ec. apply choice_in in Ec. rewrite <- El in Ec.
  apply list_elem_of_In, elem_of_map_to_list in Ec.
  destruct (Hsplit _ _ Ec) as (Hp & w & Hw & Hh).
  cbn [fst snd]. unfold bind at 1.
  destruct (randint_returns 1 3 g1 ltac:(lia)) as (k & g2 & Ek).
  rewrite Ek. apply randint_range in Ek. unfold bind at 1.
  assert (Hws : ws <> []) by (intros ->; destruct Hw).
  destruct (random_outputs_returns ws (asset_id u) k (Z.to_nat k) 0
              (portion u) [] g2 Hws) as (outs & g3 & Eo & Hpos);
    [lia | lia |].
  rewrite (Z2Nat.id k) in Eo by lia. rewrite Eo.
  destruct (find_owner_finds ws (pubkey_hash u)) as [owner ->]; [eauto|].
  unfold generators.sign, message_hash, sha256_hex.
  rewrite fromhex_hex. unfold bind, draw, ret.
  eexists _, _. split; [reflexivity|]. cbn [outputs new_Transaction].
  now apply Hpos.
Qed.

End GeneratorProofs.

Section InjectedErrors.
Context `{wallet.Ecdsa}.
Variable ecdsa_sign : wallet.Wallet -> bytes -> nat -> bytes.

(** The first two errors of [create_random_invalid_tx] always tell: a
    transaction that validated with ["ok"] and has its first portion
    raised by one fails with the portion mismatch, and one whose first
    output is renamed to ["broken-asset"] (not its asset's name) fails
    with the output asset mismatch. *)
Theorem injected_error_is_refused (bc : Blockchain)
    (ws : list wallet.Wallet) (mode : string) (base : Transaction)
    (g : rng) (changed : list TxInput * list TxOutput) (g' : rng) :
  spendable bc base ->
  outputs base <> [] ->
  mode = "portion"
  \/ (mode = "asset"
      /\ Forall (fun o => asset_id o <> "broken-asset") (outputs base)) ->
  generators.inject_error ecdsa_sign ws mode (inputs base) (outputs base) g
  = (Ok changed, g') ->
  validate_transaction (new_Transaction (fst changed) (snd changed)) bc
  = (Ok (false,
         if String.eqb mode "portion"
         then "portion mismatch: in="
                ++ str_int (output_total (outputs base))
                ++ ", out=" ++ str_int (output_total (outputs base) + 1)
         else "output asset_id mismatch"), bc).
Proof.
  intros (Hne & a & Hbound & Hout & Htot & _) Houts Hmode Hrun.
  destruct (outputs base) as [|o rest] eqn:Eo; [congruence|].
  apply Forall_cons in Hout. destruct Hout as [Ha Hout].
  unfold validate_transaction, new_Transaction. cbn [inputs outputs].
  destruct Hmode as [->|[-> Hfresh]]; cbn in Hrun; injection Hrun as <- _;
    cbn [fst snd]; destruct (inputs base) as [|inp0 ins0] eqn:Ei;
    try congruence; unfold bind;
    rewrite (check_inputs_accepts _ _ a None 0) by auto.
  - rewrite (check_outputs_accepts _ a 0) by (constructor; auto).
    replace (0 + input_total (utxo bc) (inp0 :: ins0))
      with (output_total (o :: rest)) by lia.
    replace (0 + output_total (_ :: rest))
      with (output_total (o :: rest) + 1) by (cbn; lia).
    replace (_ =? _) with false by (symmetry; apply Z.eqb_neq; lia).
    reflexivity.
  - cbn [check_outputs asset_id].
    apply Forall_cons in Hfresh. destruct Hfresh as [Hfresh _].
    rewrite (proj2 (eqb_false_ne "broken-asset" a)) by congruence.
    reflexivity.
Qed.


End InjectedErrors.



Lemma chain1_splittable : splittable chain1 [w0; w1].
Proof.
  intros k u Hu. unfold chain1, add_output in Hu. cbn [utxo] in Hu.
  apply lookup_insert_Some in Hu. destruct Hu as [[_ <-]|[_ Hu]].
  { split; [cbn; lia|]. exists w1. split; [cbn; auto|].
    vm_compute. reflexivity. }
  apply lookup_insert_Some in Hu. destruct Hu as [[_ <-]|[_ Hu]].
  { split; [cbn; lia|]. exists w0. split; [cbn; auto|].
    vm_compute. reflexivity. }
  rewrite lookup_empty in Hu. discriminate.
Qed.

Lemma split_spendable : spendable (H := keyed_hash_check) chain1 split.
Proof.
  split; [discriminate|]. exists "asset-0".
  split; [|split; [|split]].
  - constructor; [|constructor]. exists out0, (wallet.pubkey_bytes w0).
    split; [vm_compute; reflexivity|]. split; [reflexivity|].
    split; vm_compute; reflexivity.
  - repeat constructor.
  - vm_compute. reflexivity.
  - constructor; [vm_compute; reflexivity | constructor].
Qed.


Lemma random_valid_tx_returns_witness :
  utxo chain1 <> ∅
  /\ splittable chain1 [w0; w1]
  /\ exists tx g',
       generators.create_random_valid_tx keyed_sign
         chain1 [w0; w1] (steady 0)
       = (Ok (Some tx), g')
       /\ Forall (fun o => 1 <= portion o) (outputs tx).
Proof.
  assert (Hne : utxo chain1 <> ∅) by apply insert_non_empty.
  split; [exact Hne|]. split; [exact chain1_splittable|].
  exact (random_valid_tx_returns keyed_sign chain1
           [w0; w1] (steady 0) Hne chain1_splittable).
Defined.

Lemma injected_error_is_refused_witness :
  spendable (H := keyed_hash_check) chain1 split
  /\ outputs split <> []
  /\ ("portion" = "portion"
      \/ ("portion" = "asset"
          /\ Forall (fun o => asset_id o <> "broken-asset") (outputs split)))
  /\ generators.inject_error keyed_sign [w0; w1]
       "portion" (inputs split) (outputs split) (steady 0)
     = (Ok (inputs split,
            {| asset_id := "asset-0";
               pubkey_hash := pubkey_hash (hd out0 (outputs split));
               portion := portion (hd out0 (outputs split)) + 1 |}
            :: tl (outputs split)), steady 0)
  /\ validate_transaction (H := keyed_hash_check)
       (new_Transaction (inputs split)
          ({| asset_id := "asset-0";
              pubkey_hash := pubkey_hash (hd out0 (outputs split));
              portion := portion (hd out0 (outputs split)) + 1 |}
           :: tl (outputs split))) chain1
     = (Ok (false, "portion mismatch: in=100, out=101"), chain1).
Proof.
  assert (Hne : outputs split <> []) by discriminate.
  split; [exact split_spendable|]. split; [exact Hne|].
  split; [now left|]. split; [reflexivity|].
  exact (injected_error_is_refused (H := keyed_hash_check) keyed_sign chain1
           [w0; w1] "portion" split (steady 0) _ (steady 0)
           split_spendable Hne (or_introl eq_refl) eq_refl).
Defined.


(** ** The chain walk after a new block *)

Lemma hash_nonempty (h : BlockHeader) : hash h <> "".
Proof.
  destruct (below_target_hash h) as [verdict Hv]. intros E.
  rewrite E in Hv. vm_compute in Hv. discriminate.
Qed.

Lemma dict_get_set_ne {V} (k k' : string) (v : V) (d : pydict V) :
  k <> k' -> dict_get k' (dict_set k v d) = dict_get k' d.
Proof.
  intros Hne. induction d as [|[k0 v0] rest IH]; cbn.
  - now rewrite (proj2 (eqb_false_ne k' k)) by congruence.
  - destruct (String.eqb k k0) eqn:E; cbn.
    + apply String.eqb_eq in E. subst k0.
      now rewrite (proj2 (eqb_false_ne k' k)) by congruence.
    + now rewrite IH.
Qed.

Lemma dict_set_fresh_length {V} (k : string) (v : V) (d : pydict V) :
  dict_get k d = None -> length (dict_set k v d) = S (length d).
Proof.
  induction d as [|[k0 v0] rest IH]; cbn; [reflexivity|].
  destruct (String.eqb k k0); [discriminate|]. intros Hnone. cbn.
  now rewrite IH.
Qed.

(** The walk through the chain map with one more block [blk] under a
    fresh hash [h], started after [h] was visited and collected, goes
    as the walk through the old map and stops where it stopped. *)
Lemma walk_under_new_block (blocks : pydict Block) (h : string) (blk : Block) :
  dict_get h blocks = None ->
  forall fuel cur visited acc chain,
    build_chain_loop fuel blocks cur visited acc = Some chain ->
    build_chain_loop fuel (dict_set h blk blocks) cur ({[h]} ∪ visited)
      ((h, blk) :: acc)
    = Some ((h, blk) :: chain).
Proof.
  intros Hfresh. induction fuel as [|f IH]; intros cur visited acc chain Hrun.
  - cbn [build_chain_loop] in *.
    destruct (String.eqb cur ""); cbn [negb andb] in *;
      [now injection Hrun as <-|].
    destruct (bool_decide (cur ∈ visited)) eqn:Ev; cbn [negb] in Hrun;
      [|discriminate].
    apply bool_decide_eq_true in Ev. injection Hrun as <-.
    rewrite bool_decide_eq_true_2 by set_solver. reflexivity.
  - cbn [build_chain_loop] in *.
    destruct (String.eqb cur ""); cbn [negb andb] in *;
      [now injection Hrun as <-|].
    destruct (bool_decide (cur ∈ visited)) eqn:Ev; cbn [negb] in Hrun.
    { apply bool_decide_eq_true in Ev. injection Hrun as <-.
      rewrite bool_decide_eq_true_2 by set_solver. reflexivity. }
    apply bool_decide_eq_false in Ev.
    destruct (String.eqb_spec cur h) as [->|Hne].
    { rewrite Hfresh in Hrun. injection Hrun as <-.
      rewrite bool_decide_eq_true_2 by set_solver. reflexivity. }
    rewrite bool_decide_eq_false_2.
    2:{ intros Hin. apply elem_of_union in Hin. destruct Hin as [Hin|Hin].
        - apply elem_of_singleton in Hin. congruence.
        - exact (Ev Hin). }
    cbn [negb]. rewrite dict_get_set_ne by congruence.
    destruct (dict_get cur blocks) as [b|]; [|now injection Hrun as <-].
    destruct (String.eqb (prev_hash (header b)) utils.zero_hash);
      [now injection Hrun as <-|].
    replace ({[cur]} ∪ ({[h]} ∪ visited)) with ({[h]} ∪ ({[cur]} ∪ visited))
      by (rewrite !(assoc_L (∪)); f_equal; apply (comm_L (∪))).
    exact (IH _ _ _ _ Hrun).
Qed.

Section WalkAfterBlock.
Context `{wallet.Ecdsa}.

Lemma mine_block_position fuel pending bc blk bc' :
  mine_block fuel pending bc = (Ok blk, bc') ->
  (height (header blk), prev_hash (header blk)) = next_position bc.
Proof.
  intros Hrun. unfold mine_block, bind in Hrun.
  pose proof (select_valid_state pending [] bc) as Hst.
  destruct (select_valid pending [] bc) as [[selected| | |] bc1];
    try discriminate.
  cbn [snd] in Hst. subst bc1.
  destruct selected as [|tx0 rest]; [discriminate|].
  destruct (utils.merkle_root _) as [root| | |]; try discriminate.
  unfold get in Hrun. unfold next_position.
  destruct (tip bc); apply pow_loop_first in Hrun;
    destruct Hrun as (n & _ & -> & _); reflexivity.
Qed.

(** Mining on a chain whose tip block is stored under its own header
    hash puts the new block in front of the chain walk: after
    [mine_block], [build_chain_from_tip] gives the mined block followed
    by what it gave before, provided the hash of the new block was not
    a key of the chain map (a block of that hash would be replaced) and
    the tip's hash is not the 64 zeros the walk takes for the end. *)
Theorem mined_block_extends_walk (fuel : nat) (pending : list Transaction)
    (bc : Blockchain) (blk : Block) (bc' : Blockchain) (t : Block)
    (chain : list (string * Block)) :
  mine_block fuel pending bc = (Ok blk, bc') ->
  tip bc = Some t ->
  hash (header t) = height_tip_hash bc ->
  hash (header t) <> utils.zero_hash ->
  dict_get (hash (header blk)) (blocks_by_hash bc) = None ->
  build_chain_from_tip bc = Some chain ->
  build_chain_from_tip bc' = Some ((hash (header blk), blk) :: chain).
Proof.
  intros Hrun Htip Hstored Hzero Hfresh Hwalk.
  pose proof (mine_block_position _ _ _ _ _ Hrun) as Hpos.
  unfold next_position in Hpos. rewrite Htip in Hpos.
  injection Hpos as _ Hprev.
  pose proof (mine_block_inv _ _ _ _ _ Hrun) as (_ & _ & ->).
  unfold build_chain_from_tip in *. cbn [blocks_by_hash height_tip_hash
    with_utxo with_tip with_blocks].
  rewrite (dict_set_fresh_length _ _ _ Hfresh).
  set (h := hash (header blk)) in *.
  change (build_chain_loop (S (S (length (blocks_by_hash bc))))
            (dict_set h blk (blocks_by_hash bc)) h ∅ [])
    with (if negb (String.eqb h "") && negb (bool_decide (h ∈ (∅ : gset string)))
          then match dict_get h (dict_set h blk (blocks_by_hash bc)) with
               | None => Some []
               | Some b =>
                   if String.eqb (prev_hash (header b)) utils.zero_hash
                   then Some ([] ++ [(h, b)])%list
                   else build_chain_loop (S (length (blocks_by_hash bc)))
                          (dict_set h blk (blocks_by_hash bc))
                          (prev_hash (header b)) ({[h]} ∪ ∅)
                          ([] ++ [(h, b)])%list
               end
          else Some []).
  rewrite (proj2 (eqb_false_ne h "")) by apply hash_nonempty.
  rewrite bool_decide_eq_false_2 by set_solver. cbn [negb andb].
  rewrite dict_get_set_eq, Hprev.
  rewrite (proj2 (eqb_false_ne _ _) Hzero), Hstored. cbn [app].
  now apply walk_under_new_block.
Qed.

End WalkAfterBlock.

(** A block without predecessor (previous hash of 64 zeros, as
    [create_genesis] makes it) that [add_genesis_block] stores is the
    tip, and the chain walk returns this block alone, whatever the
    chain map held before. *)
Theorem genesis_block_is_the_walk (blk : Block) (bc bc' : Blockchain) :
  prev_hash (header blk) = utils.zero_hash ->
  add_genesis_block blk bc = (Ok tt, bc') ->
  tip bc' = Some blk
  /\ build_chain_from_tip bc' = Some [(hash (header blk), blk)].
Proof.
  intros Hprev Hrun. unfold add_genesis_block, bind, modify in Hrun.
  rewrite genesis_outputs_run in Hrun. injection Hrun as <-.
  unfold tip, build_chain_from_tip.
  cbn [blocks_by_hash height_tip_hash with_utxo with_tip with_blocks].
  split; [apply dict_get_set_eq|].
  cbn [build_chain_loop].
  rewrite (proj2 (eqb_false_ne (hash (header blk)) "")) by apply hash_nonempty.
  rewrite bool_decide_eq_false_2 by set_solver. cbn [negb andb].
  now rewrite dict_get_set_eq, Hprev, String.eqb_refl.
Qed.

Lemma mined_block_extends_walk_witness :
  mine_block (H := reject_all) 3 [issue] chain1 = (Ok issue_block, chain_issued)
  /\ tip chain1 = Some genesis
  /\ hash (header genesis) = height_tip_hash chain1
  /\ hash (header genesis) <> utils.zero_hash
  /\ dict_get (hash (header issue_block)) (blocks_by_hash chain1) = None
  /\ build_chain_from_tip chain1 = Some [(genesis_hash, genesis)]
  /\ build_chain_from_tip chain_issued
     = Some [(hash (header issue_block), issue_block);
             (genesis_hash, genesis)].
Proof.
  assert (Htip : tip chain1 = Some genesis) by (vm_compute; reflexivity).
  assert (Hzero : hash (header genesis) <> utils.zero_hash).
  { rewrite genesis_hashed. intros E. vm_compute in E. discriminate. }
  assert (Hfresh : dict_get (hash (header issue_block))
                     (blocks_by_hash chain1) = None)
    by (vm_compute; reflexivity).
  assert (Hwalk : build_chain_from_tip chain1
                  = Some [(genesis_hash, genesis)])
    by (vm_compute; reflexivity).
  split; [exact issue_mined|]. split; [exact Htip|].
  split; [exact genesis_hashed|]. split; [exact Hzero|].
  split; [exact Hfresh|]. split; [exact Hwalk|].
  exact (mined_block_extends_walk (H := reject_all) 3 [issue] chain1
           issue_block chain_issued genesis [(genesis_hash, genesis)]
           issue_mined Htip genesis_hashed Hzero Hfresh Hwalk).
Defined.

Lemma genesis_block_is_the_walk_witness :
  prev_hash (header genesis) = utils.zero_hash
  /\ add_genesis_block genesis empty_chain = (Ok tt, chain1)
  /\ tip chain1 = Some genesis
  /\ build_chain_from_tip chain1 = Some [(hash (header genesis), genesis)].
Proof.
  split; [reflexivity|]. split; [exact genesis_stored|].
  exact (genesis_block_is_the_walk genesis empty_chain chain1 eq_refl
           genesis_stored).
Defined.

(** ** Mining without work *)

Section MineWithoutWork.
Context `{wallet.Ecdsa}.


End MineWithoutWork.


(** ** When the master's report ends well *)

Lemma enumerate_from_values {A} (l : list A) : forall i,
  map snd (enumerate_from i l) = l.
Proof. induction l as [|x rest IH]; intros i; cbn; [|rewrite IH]; auto. Qed.

Section ReportPasses.
Context `{wallet.Ecdsa}.

Lemma verify_fromhex (pk msg sig : string) :
  wallet.verify pk msg sig = true -> exists bs, fromhex pk = Some bs.
Proof.
  unfold wallet.verify. destruct (fromhex pk); [eauto | discriminate].
Qed.

Lemma verify_outputs_passes outs a : forall total,
  Forall (fun o => asset_id o = a) outs ->
  processes.verify_outputs outs (Some a) total
  = Some (total + output_total outs).
Proof.
  induction outs as [|o rest IH]; intros total Hall; cbn.
  - now rewrite Z.add_0_r.
  - apply Forall_cons in Hall. destruct Hall as [-> Hall].
    rewrite String.eqb_refl, IH by exact Hall. now rewrite Z.add_assoc.
Qed.

Lemma verify_outputs_passed outs asset : forall total total',
  processes.verify_outputs outs asset total = Some total' ->
  total' = total + output_total outs
  /\ (outs = [] \/ exists a, asset = Some a
                             /\ Forall (fun o => asset_id o = a) outs).
Proof.
  induction outs as [|o rest IH]; intros total total'; cbn.
  - intros [= <-]. split; [lia | now left].
  - destruct asset as [a|]; [|discriminate].
    destruct (String.eqb (asset_id o) a) eqn:Ea; [|discriminate].
    apply String.eqb_eq in Ea. intros E.
    destruct (IH _ _ E) as [-> Hrest]. split; [lia|]. right. exists a.
    split; [reflexivity|]. constructor; [exact Ea|].
    destruct Hrest as [->|(a' & [= <-] & Hall)]; [constructor | exact Hall].
Qed.

(** The input loop of the report: what it appends to the console never
    is the line of success; when it runs through, every input was
    shown for one asset and the total is the chain's; when it returns
    early or raises, some input is not shown, whatever the asset. *)
Lemma verify_inputs_spec bc tx : forall ins asset total out r out',
  processes.verify_inputs bc tx ins asset total out = (r, out') ->
  exists new,
    out' = (out ++ new)%list
    /\ ~ In processes.all_passed new
    /\ match r with
       | Ok (Some (asset', total')) =>
           total' = total + chain_total bc (map snd ins)
           /\ (ins = [] -> asset' = asset)
           /\ (ins <> [] -> exists a, asset' = Some a)
           /\ forall a, asset' = Some a ->
                (asset = None \/ asset = Some a)
                /\ Forall (shown_input bc tx a) (map snd ins)
       | _ =>
           forall a, asset = None \/ asset = Some a ->
             ~ Forall (shown_input bc tx a) (map snd ins)
       end.
Proof.
  induction ins as [|[idx inp] rest IH]; intros asset total out r out' Hrun.
  { cbn in Hrun. injection Hrun as <- <-. exists [].
    rewrite app_nil_r. split; [reflexivity|].
    split; [intros []|]. cbn [map chain_total]. split; [lia|].
    split; [auto|]. split; [congruence|].
    intros a ->. split; [now right | constructor]. }
  cbn [processes.verify_inputs] in Hrun.
  unfold bind, processes.print, modify in Hrun.
  cbn [map snd chain_total].
  destruct (find_output_in_chain bc (txid_ref inp) (index inp)) as [u|]
    eqn:Efind.
  2:{ injection Hrun as <- <-. eexists [_; _]. rewrite <- app_assoc.
      split; [reflexivity|].
      split; [intros [E|[E|[]]]; discriminate E|].
      intros a _ Hall. apply Forall_cons in Hall.
      destruct Hall as [[(o & Ho & _) _] _]. congruence. }
  assert (Hshown : forall a, shown_input bc tx a inp -> asset_id u = a).
  { intros a [(o & Ho & Hoa) _]. congruence. }
  destruct (negb match asset with
                 | Some a => String.eqb (asset_id u) a
                 | None => true
                 end) eqn:Esame.
  { injection Hrun as <- <-. eexists [_; _; _]. rewrite <- !app_assoc.
    split; [reflexivity|].
    split; [intros [E|[E|[E|[]]]]; discriminate E|].
    intros a Ha Hall. apply Forall_cons in Hall. destruct Hall as [Hi _].
    apply Hshown in Hi. destruct asset as [a0|]; [|discriminate].
    apply negb_true_iff, eqb_false_ne in Esame.
    destruct Ha as [Ha|Ha]; congruence. }
  apply negb_false_iff in Esame.
  assert (Hfits : asset = None \/ asset = Some (asset_id u)).
  { destruct asset as [a0|]; [|now left]. apply String.eqb_eq in Esame.
    right. congruence. }
  destruct (fromhex (pubkey inp)) as [pk|] eqn:Epk.
  2:{ injection Hrun as <- <-. eexists [_; _]. rewrite <- !app_assoc.
      split; [reflexivity|].
      split; [intros [E|[E|[]]]; discriminate E|].
      intros a _ Hall. apply Forall_cons in Hall.
      destruct Hall as [[_ Hv] _]. apply verify_fromhex in Hv.
      destruct Hv. congruence. }
  destruct (wallet.verify (pubkey inp) (message_hash tx) (signature inp))
    eqn:Ev; cbn [negb] in Hrun.
  2:{ injection Hrun as <- <-. eexists [_; _; _; _]. rewrite <- !app_assoc.
      split; [reflexivity|].
      split; [intros [E|[E|[E|[E|[]]]]]; discriminate E|].
      intros a _ Hall. apply Forall_cons in Hall.
      destruct Hall as [[_ Hv] _]. congruence. }
  apply IH in Hrun. destruct Hrun as (new & -> & Hnot & Hres).
  eexists (_ :: _ :: _ :: _ :: new). rewrite <- !app_assoc.
  split; [reflexivity|].
  split; [intros [E|[E|[E|[E|Hin]]]]; try discriminate E; exact (Hnot Hin)|].
  destruct r as [[[asset' total']|]| | |].
  - destruct Hres as (-> & Hnil & Hsome & Hall).
    split; [lia|]. split; [intros E; discriminate E|].
    split.
    { intros _. destruct rest as [|x rest'].
      - rewrite (Hnil eq_refl). eauto.
      - apply Hsome. discriminate. }
    intros a Ha. destruct (Hall a Ha) as [[Hx|Hx] Hrest]; [discriminate|].
    injection Hx as Hx. split; [destruct Hfits; [now left | right; congruence]|].
    constructor; [|exact Hrest].
    split; [exists u; auto | exact Ev].
  - intros a Ha Hall. apply Forall_cons in Hall. destruct Hall as [Hi Hrest].
    apply Hshown in Hi. apply (Hres a); [right; congruence | exact Hrest].
  - intros a Ha Hall. apply Forall_cons in Hall. destruct Hall as [Hi Hrest].
    apply Hshown in Hi. apply (Hres a); [right; congruence | exact Hrest].
  - intros a Ha Hall. apply Forall_cons in Hall. destruct Hall as [Hi Hrest].
    apply Hshown in Hi. apply (Hres a); [right; congruence | exact Hrest].
  - intros a Ha Hall. apply Forall_cons in Hall. destruct Hall as [Hi Hrest].
    apply Hshown in Hi. apply (Hres a); [right; congruence | exact Hrest].
Qed.

Lemma shown_input_asset bc tx a a' inp :
  shown_input bc tx a inp -> shown_input bc tx a' inp -> a = a'.
Proof. intros [(o & Ho & Ha) _] [(o' & Ho' & Ha') _]. congruence. Qed.

(** [verify_transaction] ends with the line of success exactly when the
    first transaction of the block has neither inputs nor outputs, or
    has inputs that all name an output found in the master's chain, of
    one asset, with a signature that verifies, outputs of that asset
    only, and equal sums.  Whether the outputs named are unspent is not
    looked at, and the comparison of the key with the owner hash, though
    printed, decides nothing. *)
Theorem master_passes_iff (w : World) (ledger : nat) (id : string)
    (from_last_block : bool) (node : FullNode) (node_bc bc : Blockchain)
    (tx : Transaction) (rest : list Transaction) (hd : BlockHeader) :
  processes.find_node (nodes w) id = Some node ->
  ledgers w !! blockchain node = Some node_bc ->
  ledgers w !! ledger = Some bc ->
  (if from_last_block then last_mined_block node else tip node_bc)
  = Some {| header := hd; txs := tx :: rest |} ->
  In processes.all_passed
    (snd (processes.verify_transaction w ledger id from_last_block []))
  <-> passes_report bc tx.
Proof.
  intros Hnode Hnbc Hbc Hblk.
  unfold processes.verify_transaction. rewrite Hnode, Hnbc, Hbc, Hblk.
  unfold bind at 1, processes.print at 1, modify. cbn [app]. unfold bind at 1.
  destruct (processes.verify_inputs bc tx (enumerate (inputs tx)) None 0
              [processes.leftmost (txid tx)]) as [r out'] eqn:Hrun.
  apply verify_inputs_spec in Hrun. destruct Hrun as (new & -> & Hnot & Hres).
  unfold enumerate in Hres. rewrite enumerate_from_values in Hres.
  assert (Hfront : ~ In processes.all_passed
                     ([processes.leftmost (txid tx)] ++ new)%list).
  { intros [E|Hin]; [discriminate E | exact (Hnot Hin)]. }
  assert (Hstop : (forall a : string,
                     @None string = None \/ None = Some a ->
                     ~ Forall (shown_input bc tx a) (inputs tx)) ->
                  ~ passes_report bc tx).
  { intros Hno [[Hi _]|(_ & a & Hall & _)].
    - apply (Hno ""); [now left|]. rewrite Hi. constructor.
    - apply (Hno a); [now left | exact Hall]. }
  destruct r as [[[asset' total']|]| | |]; cbn [snd];
    try (split; [intros Hin; destruct (Hfront Hin)
                | intros Hp; destruct (Hstop Hres Hp)]).
  destruct Hres as (-> & Hnil & Hsome & Hall).
  assert (Hnames : forall l : list (Z * TxInput),
             l = [] <-> map snd l = []) by (intros [|x l]; cbn; split; congruence).
  unfold enumerate in Hnil, Hsome.
  rewrite (Hnames (enumerate_from 0 (inputs tx))), enumerate_from_values
    in Hnil, Hsome.
  destruct (processes.verify_outputs (outputs tx) asset' 0)
    as [total_out|] eqn:Eouts.
  - apply verify_outputs_passed in Eouts. destruct Eouts as [-> Houts].
    unfold bind, processes.print, modify.
    destruct (0 + chain_total bc (inputs tx) =? 0 + output_total (outputs tx))
      eqn:Esum; cbn [negb snd].
    + apply Z.eqb_eq in Esum. split; [intros _|].
      * unfold passes_report.
        destruct (inputs tx) as [|inp0 ins0] eqn:Ei.
        -- left. split; [reflexivity|].
           destruct Houts as [Ho|(a & Ha & _)]; [exact Ho|].
           rewrite (Hnil eq_refl) in Ha. discriminate.
        -- right. split; [discriminate|].
           destruct (Hsome ltac:(discriminate)) as [a Ha].
           exists a. destruct (Hall a Ha) as [_ Hshown].
           split; [exact Hshown|]. split; [|lia].
           destruct Houts as [->|(a' & Ha' & Ho)]; [constructor|].
           assert (a' = a) by congruence. now subst a'.
      * intros _. apply in_or_app. right. now left.
    + apply Z.eqb_neq in Esum. split.
      * intros Hin. apply in_app_or in Hin.
        destruct Hin as [Hin|[E|[]]]; [destruct (Hfront Hin) | discriminate E].
      * intros [[Hi Ho]|(_ & a & _ & _ & Ht)]; exfalso; apply Esum.
        -- now rewrite Hi, Ho.
        -- lia.
  - unfold processes.print, modify. cbn [snd]. split.
    + intros Hin. apply in_app_or in Hin.
      destruct Hin as [Hin|[E|[]]]; [destruct (Hfront Hin) | discriminate E].
    + intros [[Hi Ho]|(Hne & a & Hshown & Ho & _)]; exfalso.
      * rewrite Ho in Eouts. cbn in Eouts. discriminate.
      * destruct (Hsome Hne) as [a' Ha']. destruct (Hall a' Ha') as [_ Hshown'].
        assert (a = a').
        { destruct (inputs tx) as [|inp0 ins0]; [congruence|].
          apply Forall_cons in Hshown, Hshown'.
          exact (shown_input_asset _ _ _ _ _ (proj1 Hshown) (proj1 Hshown')). }
        subst a'. rewrite Ha', (verify_outputs_passes _ a 0 Ho) in Eouts.
        discriminate.
Qed.

End ReportPasses.

Lemma master_passes_iff_witness :
  processes.find_node (nodes (world_of chain_split)) "F0" = Some node0
  /\ ledgers (world_of chain_split) !! blockchain node0 = Some chain_split
  /\ ledgers (world_of chain_split) !! 0%nat = Some chain_split
  /\ tip chain_split = Some {| header := header split_block;
                               txs := split :: [] |}
  /\ (In processes.all_passed
        (snd (processes.verify_transaction (H := keyed_hash_check)
                (world_of chain_split) 0 "F0" false []))
      <-> passes_report (H := keyed_hash_check) chain_split split).
Proof.
  assert (Htip : tip chain_split
                 = Some {| header := header split_block; txs := split :: [] |})
    by (vm_compute; reflexivity).
  split; [reflexivity|]. split; [reflexivity|]. split; [reflexivity|].
  split; [exact Htip|].
  exact (master_passes_iff (H := keyed_hash_check) (world_of chain_split) 0
           "F0" false node0 chain_split chain_split split [] (header split_block)
           eq_refl eq_refl eq_refl Htip).
Defined.
